(** * eMRTD secure messaging and LDS reader of the Proxmark3 client

    A shallow embedding of [client/src/cmdhfemrtd.c]: the BAC key
    derivation, the BAC handshake, the secure-messaging channel (SSC,
    retail MAC, secure SELECT / READ BINARY), the file reader and the
    ASN.1/LDS tag reader, with the properties the specification states
    about them; then the data group table, the MRZ field helpers, the
    file dumpers and the authentication driver, with properties read
    off the code.

    Conventions of the embedding.
    - A [uint8_t] is a [Z]; where the C code stores into a byte the
      wrap-around is written [u8].  An [int] is a [Z]; the few places
      where the C arithmetic could leave the [int] range are discussed
      where they occur.
    - A pointer into a byte array is the list of the bytes that are
      readable from the pointer on; [datain + n] is [drop n datain].  A
      read is a lookup [rd p i : option Z]; a read outside the readable
      bytes, a read of a byte that was never written and a write past
      the capacity of a fixed local array are undefined in C and yield
      [None].  A function of the model therefore returns [option _],
      [None] standing for "no defined C behaviour".
    - A [char] is signed, as the compilers for x86-64 have it: the
      character with the code [d] has the value [d] below 128 and
      [d - 256] from there on ([schar]).
    - Output parameters are returned.  Where a function may return
      without touching its output buffer the output component is itself
      an [option]: [None] means the caller's buffer was left untouched. *)

From stdpp Require Import base option list numbers strings pretty.
From Stdlib Require Import ZArith Lia Ascii.

Local Open Scope Z_scope.

(** [lia] is to know the Euclidean division by a constant. *)
Ltac Zify.zify_post_hook ::= Z.to_euclidean_division_equations.

(** ** Undefined behaviour: the option monad *)

Definition obind {A B : Type} (m : option A) (f : A -> option B) : option B :=
  match m with
  | Some a => f a
  | None => None
  end.

Notation "'let*' x := m 'in' k" := (obind m (fun x => k))
  (at level 10, x binder, m at level 100, k at level 200).

(** ** Bytes and buffers *)

Definition u8 (z : Z) : Z := z mod 256.

Definition is_u8 (z : Z) : Prop := 0 <= z < 256.

Global Instance is_u8_dec z : Decision (is_u8 z).
Proof. unfold is_u8. apply _. Defined.

Definition rd (p : list Z) (i : Z) : option Z :=
  if decide (0 <= i) then p !! Z.to_nat i else None.

(** [memcpy (dst, p + off, n)] seen from the source side: the [n] bytes
    at [p + off], all of which must be readable. *)
Definition rd_bytes (p : list Z) (off n : Z) : option (list Z) :=
  if decide (0 <= off /\ 0 <= n /\ off + n <= Z.of_nat (length p))
  then Some (take (Z.to_nat n) (drop (Z.to_nat off) p))
  else None.

Definition zlen (p : list Z) : Z := Z.of_nat (length p).

(** Big-endian value of a byte string. *)
Definition be_val (p : list Z) : Z := fold_left (fun acc b => acc * 256 + b) p 0.

(** ** Bytes printed for the log *)

(** The digit [printf] writes for [%X]. *)
Definition hex_char (d : Z) : ascii :=
  ascii_of_N (Z.to_N (if decide (d < 10) then 48 + d else 55 + d)).

(** [%02X] on a value below 256. *)
Definition hex2 (b : Z) : string :=
  String (hex_char (b / 16)) (String (hex_char (b mod 16)) EmptyString).

(** Modelled from the spec: [sprint_hex_inrow] (client [util.c]) is not
    part of the sources; it prints [len] bytes as two upper-case
    hexadecimal digits each, without separators.  The arguments of a
    [PrintAndLogEx (DEBUG, ...)] are evaluated whatever the log level
    is, so a buffer handed to [sprint_hex_inrow] there is read, and
    has to be readable, over the length given. *)
Definition sprint_hex_inrow (data : list Z) (len : Z) : option string :=
  let* d := rd_bytes data 0 len in
  Some (fold_right (fun b s => hex2 b +:+ s) EmptyString d).

(** ** The send sequence counter: [emrtd_bump_ssc] *)

(** The loop [for (int i = 7; i > 0; i--)], entered with [i = n]. *)
Fixpoint bump_ssc_loop (n : nat) (ssc : list Z) : option (list Z) :=
  match n with
  | O => Some ssc
  | S m =>
      let* b := ssc !! n in
      if decide (b = 0xFF) then bump_ssc_loop m (<[n := 0]> ssc)
      else Some (<[n := u8 (b + 1)]> ssc)
  end.

Definition emrtd_bump_ssc (ssc : list Z) : option (list Z) :=
  bump_ssc_loop 7 ssc.

(** ** MRZ check digit: [emrtd_calculate_check_digit] *)

Definition char_code (c : ascii) : Z := Z.of_N (N_of_ascii c).

(** The value of a [char]. *)
Definition schar (c : ascii) : Z :=
  let d := char_code c in
  if decide (d < 128) then d else d - 256.

Definition mrz_weight : list Z := [7; 3; 1].

(** The [if]/[else if] chain that assigns [value] from the character [d]. *)
Definition mrz_value (d : Z) : Z :=
  if decide (65 <= d /\ d <= 90) then d - 55
  else if decide (97 <= d /\ d <= 122) then d - 87
  else if decide (d = 60) then 0
  else d - 48.

(** The [for] loop over the characters before the terminating NUL, [i]
    being the index of the head of [data].  [cd] is an [int]: each
    character adds between [-176 * 7] and [79 * 7], so the sum stays
    in range on every string of fewer than a million characters
    ([check_digit_loop_int]); the arrays of the callers hold fewer than
    a hundred. *)
Fixpoint check_digit_loop (data : string) (i : nat) (cd : Z) : Z :=
  match data with
  | EmptyString => cd
  | String d rest =>
      check_digit_loop rest (S i)
        (cd + mrz_value (schar d) * mrz_weight !!! (i mod 3)%nat)
  end.

(** [cd % 10]: the C remainder truncates towards zero, so the result
    lies between -9 and 9 and fits the [char] returned. *)
Definition emrtd_calculate_check_digit (data : string) : Z :=
  Z.rem (check_digit_loop data 0 0) 10.

(** The C string held by a character array: the characters before the
    first NUL. *)
Fixpoint c_str (buf : string) : string :=
  match buf with
  | EmptyString => EmptyString
  | String c rest => if decide (char_code c = 0) then EmptyString else String c (c_str rest)
  end.

Fixpoint str_take (n : nat) (s : string) : string :=
  match n, s with
  | S m, String c rest => String c (str_take m rest)
  | _, _ => EmptyString
  end.

(** [emrtd_compare_check_digit]: [tempdata[90]] is zero-initialised and
    receives [datalen] characters of [datain]; the string must leave
    room for its NUL.  [check_digit] is a [uint8_t], the character it
    is compared with a [char]. *)
Definition emrtd_compare_check_digit (datain : string) (datalen : Z)
    (expected_check_digit : ascii) : option bool :=
  if decide (0 <= datalen < 90 /\ datalen <= Z.of_nat (String.length datain)) then
    let tempdata := c_str (str_take (Z.to_nat datalen) datain) in
    let check_digit := u8 (emrtd_calculate_check_digit tempdata + 0x30) in
    Some (bool_decide (check_digit = schar expected_check_digit))
  else None.

(** ** ASN.1 length fields *)

(** The [if] chain of [emrtd_get_asn1_data_length] on the length byte
    at [datain + offset]. *)
Definition asn1_data_length_of (datain : list Z) (datainlen offset : Z) : option Z :=
  let* lenfield := rd datain offset in
  if decide (lenfield <= 0x7f) then Some lenfield
  else if decide (lenfield = 0x80) then Some datainlen
  else if decide (lenfield = 0x81) then rd datain (offset + 1)
  else if decide (lenfield = 0x82) then
    let* b1 := rd datain (offset + 1) in
    let* b2 := rd datain (offset + 2) in
    Some (Z.lor (Z.shiftl b1 8) b2)
  else if decide (lenfield = 0x83) then
    let* b1 := rd datain (offset + 1) in
    let* b2 := rd datain (offset + 2) in
    let* b3 := rd datain (offset + 3) in
    Some (Z.lor (Z.lor (Z.shiftl b1 16) (Z.shiftl b2 8)) b3)
  else Some 0.

(** [emrtd_get_asn1_data_length]: the function first hands the
    [datainlen] bytes of [datain] to the log. *)
Definition emrtd_get_asn1_data_length (datain : list Z) (datainlen offset : Z)
    : option Z :=
  let* _ := sprint_hex_inrow datain datainlen in
  asn1_data_length_of datain datainlen offset.

(** The [if] chain of [emrtd_get_asn1_field_length]. *)
Definition asn1_field_length_of (datain : list Z) (offset : Z) : option Z :=
  let* lenfield := rd datain offset in
  if decide (lenfield <= 0x80) then Some 1
  else if decide (lenfield = 0x81) then Some 2
  else if decide (lenfield = 0x82) then Some 3
  else if decide (lenfield = 0x83) then Some 4
  else Some 0.

(** [emrtd_get_asn1_field_length], with the same log line. *)
Definition emrtd_get_asn1_field_length (datain : list Z) (datainlen offset : Z)
    : option Z :=
  let* _ := sprint_hex_inrow datain datainlen in
  asn1_field_length_of datain offset.

Definition emrtd_lds_determine_tag_length (tag : Z) : Z :=
  if decide (tag = 0x5F \/ tag = 0x7F) then 2 else 1.


(** ** The collaborators: block ciphers, digest, transceiver *)

(** The wrappers [des_encrypt_ecb], [des_decrypt_ecb],
    [des3_encrypt_cbc], [des3_decrypt_cbc] and the digest [sha1hash]
    hand their arguments to mbedtls, which is not part of the sources at
    hand; the model takes them as an interface.  A block operation maps
    a key and an 8-byte block to the 8-byte output block.  A CBC
    operation receives [iv], [key], the [inputlen] input bytes and
    [inputlen]; it yields the updated [iv] (mbedtls overwrites it) and
    the output, or [None] where it writes no output at all (a length
    that is no multiple of 8), after which every caller would go on
    with bytes nobody wrote. *)
Class Primitives := {
  des_encrypt_ecb : list Z -> list Z -> list Z;
  des_decrypt_ecb : list Z -> list Z -> list Z;
  des3_encrypt_cbc : list Z -> list Z -> list Z -> Z -> option (list Z * list Z);
  des3_decrypt_cbc : list Z -> list Z -> list Z -> Z -> option (list Z * list Z);
  sha1hash : list Z -> list Z
}.

(** The transceive layer: [ExchangeAPDU14a] and [exchange_14b_apdu]
    send a command APDU and yield the raw response (status word
    included), or [None] for a non-zero result code.  [Card] is the
    state of everything beyond the antenna. *)
Class Transceiver (Card : Type) := {
  ExchangeAPDU14a : list Z -> bool -> bool -> Card -> Card * option (list Z);
  exchange_14b_apdu : list Z -> bool -> bool -> Z -> Card -> Card * option (list Z)
}.

(** ** Constants *)

Definition EMRTD_MAX_FILE_SIZE : Z := 35000.

(** The size of a command buffer ([pm3_cmd.h]; the transport code
    notes it as 512). *)
Definition PM3_CMD_DATA_SIZE : Z := 512.

Definition KENC_type : list Z := [0x00; 0x00; 0x00; 0x01].
Definition KMAC_type : list Z := [0x00; 0x00; 0x00; 0x02].

Definition xor_bytes (a b : list Z) : list Z := zip_with Z.lxor a b.

(** ** Padding and retail MAC *)

(** [pad_block]: the returned list is the content of [output], its
    length the value the function returns. *)
Definition pad_block (input : list Z) (inputlen : Z) : option (list Z) :=
  let padding := [0x80; 0x00; 0x00; 0x00; 0x00; 0x00; 0x00; 0x00] in
  let* copied := rd_bytes input 0 inputlen in
  let to_pad := 8 - Z.rem inputlen 8 in
  Some (copied ++ take (Z.to_nat to_pad) padding).

(** Hexadecimal arguments of the command strings. *)
Definition hex_digit (c : ascii) : option Z :=
  let d := char_code c in
  if decide (48 <= d <= 57) then Some (d - 48)
  else if decide (65 <= d <= 70) then Some (d - 55)
  else if decide (97 <= d <= 102) then Some (d - 87)
  else None.

(** [isspace] in the C locale. *)
Definition is_space (d : Z) : bool :=
  bool_decide (d = 32 \/ 9 <= d <= 13).

(** [strtol (s, NULL, 16)]: blanks, an optional sign, an optional
    prefix [0x] or [0X], then the longest run of hexadecimal digits
    (none gives 0; so does a prefix that no digit follows, where the
    number read is the [0] of the prefix).  A value outside the range
    of [long], which has 64 bits here, is replaced by the bound it
    passes. *)
Fixpoint strtol16_digits (acc : Z) (s : string) : Z :=
  match s with
  | EmptyString => acc
  | String c rest =>
      match hex_digit c with
      | Some v => strtol16_digits (acc * 16 + v) rest
      | None => acc
      end
  end.

Definition strtol16_prefixed (s : string) : Z :=
  match s with
  | String a (String b rest) =>
      if decide (char_code a = 48 /\ (char_code b = 120 \/ char_code b = 88))
      then strtol16_digits 0 rest
      else strtol16_digits 0 s
  | _ => strtol16_digits 0 s
  end.

Definition strtol16_signed (s : string) : Z :=
  match s with
  | String c rest =>
      if decide (char_code c = 45) then Z.max (- 2 ^ 63) (- strtol16_prefixed rest)
      else if decide (char_code c = 43) then Z.min (2 ^ 63 - 1) (strtol16_prefixed rest)
      else Z.min (2 ^ 63 - 1) (strtol16_prefixed s)
  | EmptyString => 0
  end.

Fixpoint strtol16 (s : string) : Z :=
  match s with
  | String c rest => if is_space (char_code c) then strtol16 rest else strtol16_signed s
  | EmptyString => 0
  end.

Fixpoint str_drop (n : nat) (s : string) : string :=
  match n, s with
  | S m, String _ rest => str_drop m rest
  | _, _ => s
  end.

Definition str_bytes (s : string) : list Z :=
  (fix go s := match s with EmptyString => [] | String c rest => char_code c :: go rest end) s.

Definition nul : ascii := ascii_of_N 0.

(** [_emrtd_convert_filename]: [file] holds the characters of the
    string, behind which its NUL can be read as well; [temp[3]] takes
    two of them at a time and keeps its third byte zero. *)
Definition _emrtd_convert_filename (file : string) : option (list Z) :=
  let readable := file +:+ String nul EmptyString in
  if decide (4 <= String.length readable)%nat then
    Some [u8 (strtol16 (c_str (str_take 2 readable)));
          u8 (strtol16 (c_str (str_take 2 (str_drop 2 readable))))]
  else None.

(** Modelled from the spec: [param_gethex_to_eol] (client [util.c]) is
    not part of the sources; on a command string that consists of an
    even number of hexadecimal digits, the only strings built here, it
    stores the bytes the digit pairs denote.  Other strings are left
    without a model. *)
Fixpoint param_gethex_to_eol (cmd : string) : option (list Z) :=
  match cmd with
  | EmptyString => Some []
  | String a (String b rest) =>
      let* x := hex_digit a in
      let* y := hex_digit b in
      let* r := param_gethex_to_eol rest in
      Some ((16 * x + y) :: r)
  | String _ EmptyString => None
  end.

(** [rng]: the "random" bytes are zeros. *)
Definition rng (length : Z) : list Z := replicate (Z.to_nat length) 0x00.

(** DES keys carry odd parity in each byte.

    Modelled from the spec: [mbedtls_des_key_set_parity] (declared in
    [des.h]) is not part of the sources; it replaces each of the eight
    key bytes by the byte with the same upper seven bits and odd
    parity. *)
Definition popcount8 (b : Z) : Z :=
  fold_right (fun i acc => (if Z.testbit b i then 1 else 0) + acc) 0 [0; 1; 2; 3; 4; 5; 6; 7].

Definition odd_parity (b : Z) : Z :=
  let hi := b / 2 in
  2 * hi + (if Z.even (popcount8 hi) then 1 else 0).

Definition mbedtls_des_key_set_parity (key : list Z) : list Z := odd_parity <$> key.

(** What "forced to odd parity" asks of a byte and its image. *)
Definition odd_parity_ok (b : Z) : bool :=
  bool_decide (0 <= odd_parity b < 256) && Z.odd (popcount8 (odd_parity b))
  && bool_decide (odd_parity b / 2 = b / 2).

Section Model.
Context {prim : Primitives}.
Context {Card : Type} {trx : Transceiver Card}.

(** The chaining loop of [retail_mac], entered with block index [i] and
    [n] blocks to go. *)
Fixpoint retail_mac_chain (k0 message : list Z) (n : nat) (i : Z)
    (intermediate : list Z) : list Z :=
  match n with
  | O => intermediate
  | S m =>
      let block := take 8 (drop (Z.to_nat (i * 8)) message) in
      let intermediate := xor_bytes intermediate block in
      let intermediate_des := des_encrypt_ecb k0 intermediate in
      retail_mac_chain k0 message m (i + 1) intermediate_des
  end.

(** [retail_mac]: [message[256]] has to hold the padded input. *)
Definition retail_mac (key input : list Z) (inputlen : Z) : option (list Z) :=
  let* k0 := rd_bytes key 0 8 in
  let* k1 := rd_bytes key 8 8 in
  let intermediate := replicate 8 0x00 in
  let* message := pad_block input inputlen in
  let blocksize := zlen message in
  if decide (blocksize <= 256) then
    let intermediate :=
      retail_mac_chain k0 message (Z.to_nat (blocksize / 8)) 0 intermediate in
    let intermediate := des_decrypt_ecb k1 intermediate in
    Some (des_encrypt_ecb k0 intermediate)
  else None.

(** The parity loop of [emrtd_deskey], entered with index [i] and [n]
    blocks to go; each block must lie inside the digest. *)
Fixpoint deskey_parity (n : nat) (i : Z) (key : list Z) : option (list Z) :=
  match n with
  | O => Some key
  | S m =>
      let* block := rd_bytes key (i * 8) 8 in
      deskey_parity m (i + 1)
        (take (Z.to_nat (i * 8)) key ++ mbedtls_des_key_set_parity block
           ++ drop (Z.to_nat (i * 8 + 8)) key)
  end.

(** [emrtd_deskey]: [data[50]] receives seed and type, [key] the 20
    bytes of the digest; seed and key pass through the log on the
    way. *)
Definition emrtd_deskey (seed type : list Z) (length : Z) : option (list Z) :=
  let* _ := sprint_hex_inrow seed 16 in
  let* s := rd_bytes seed 0 length in
  let* t := rd_bytes type 0 4 in
  if decide (length + 4 <= 50) then
    let data := s ++ t in
    let key := sha1hash data in
    let* _ := sprint_hex_inrow key (length + 4) in
    let* key := deskey_parity (Z.to_nat ((length + 4) / 8)) 0 key in
    let* _ := sprint_hex_inrow key 20 in
    rd_bytes key 0 length
  else None.

(** ** Plain exchanges *)

(** [get_sw]: the length travels as a [uint8_t]. *)
Definition get_sw (d : list Z) (n : Z) : option Z :=
  let n := u8 n in
  if decide (n < 2) then Some 0
  else
    let n := n - 2 in
    let* hi := rd d n in
    let* lo := rd d (n + 1) in
    Some (hi * 0x0100 + lo).

(** [emrtd_exchange_commands]: the command is given by its bytes (the
    C code prints them in hexadecimal and [param_gethex_to_eol] reads
    them back).  The result is the card, the return value and, where
    [dataout] and [dataoutlen] were written, the bytes stored. *)
Definition emrtd_exchange_commands (cmd : list Z) (activate_field keep_field_on use_14b : bool)
    (card : Card) : option (Card * bool * option (list Z)) :=
  let '(card, res) :=
    if use_14b then exchange_14b_apdu cmd activate_field keep_field_on 15000 card
    else ExchangeAPDU14a cmd activate_field keep_field_on card in
  match res with
  | None => Some (card, false, None)
  | Some response =>
      let resplen := zlen response in
      if decide (resplen < 2) then Some (card, false, None)
      else
        let dataout := take (Z.to_nat (resplen - 2)) response in
        let* sw := get_sw response resplen in
        if decide (sw ≠ 0x9000) then Some (card, false, Some dataout)
        else Some (card, true, Some dataout)
  end.

Definition emrtd_get_challenge (length : Z) (use_14b : bool) (card : Card) :=
  emrtd_exchange_commands [0x00; 0x84; 0x00; 0x00; u8 length] false true use_14b card.

Definition emrtd_external_authenticate (data : list Z) (length : Z) (use_14b : bool)
    (card : Card) : option (Card * bool * option (list Z)) :=
  let* d := rd_bytes data 0 length in
  emrtd_exchange_commands ([0x00; 0x82; 0x00; 0x00; u8 length] ++ d ++ [u8 length])
    false true use_14b card.

(** The offset is printed with [%04X]: two bytes for an offset below
    [0x10000], which every offset inside a file buffer is. *)
Definition _emrtd_read_binary (offset bytes_to_read : Z) (use_14b : bool) (card : Card)
    : option (Card * bool * option (list Z)) :=
  if decide (0 <= offset < 0x10000 /\ 0 <= bytes_to_read < 0x100) then
    emrtd_exchange_commands [0x00; 0xB0; offset / 256; offset mod 256; bytes_to_read]
      false true use_14b card
  else None.

(** ** Secure messaging *)

(** [emrtd_check_cc]: [rapdu] holds the bytes received; [k[500]] takes
    the counter and the DO'87' and DO'99' fields. *)
Definition emrtd_check_cc (ssc key rapdu : list Z) (rapdulength : Z)
    : option (list Z * bool) :=
  let* ssc := emrtd_bump_ssc ssc in
  let* k := rd_bytes ssc 0 8 in
  let* r0 := rd rapdu 0 in
  let* '(length, k) :=
    (if decide (r0 = 0x87) then
       let* r1 := rd rapdu 1 in
       let length := 2 + r1 in
       let* f := rd_bytes rapdu 0 length in
       Some (length, k ++ f)
     else Some (0, k)) in
  let* r := rd rapdu length in
  let* '(length2, k) :=
    (if decide (r = 0x99) then
       let* r1 := rd rapdu (length + 1) in
       let length2 := 2 + r1 in
       let* f := rd_bytes rapdu length length2 in
       Some (length2, k ++ f)
     else Some (0, k)) in
  let klength := length + length2 + 8 in
  if decide (klength <= 500) then
    let* cc := retail_mac key k klength in
    let* cc := rd_bytes cc 0 8 in
    let* tail := rd_bytes rapdu (rapdulength - 8) 8 in
    Some (ssc, bool_decide (cc = tail))
  else None.

(** [emrtd_secure_select_file]: result is the card, the counter and the
    return value.  The header under the checksum carries the number
    [strtol] reads from [select_by]; the command string carries the
    characters of [select_by] themselves, between the constant parts
    and the bytes of [data] in hexadecimal, and
    [emrtd_exchange_commands] reads the whole back into bytes. *)
Definition emrtd_secure_select_file (kenc kmac ssc : list Z) (select_by file : string)
    (use_14b : bool) (card : Card) : option (Card * list Z * bool) :=
  let* file_id := _emrtd_convert_filename file in
  let iv := replicate 8 0x00 in
  let p1 := u8 (strtol16 select_by) in
  let temp := [0x0c; 0xa4; p1; 0x0c; 0; 0; 0; 0] in
  let* cmd := pad_block temp 4 in
  let cmdlen := zlen cmd in
  let* data := pad_block file_id 2 in
  let datalen := zlen data in
  let* '(iv, temp) := des3_encrypt_cbc iv kenc data datalen in
  let* t := rd_bytes temp 0 datalen in
  let do87 := [0x87; 0x09; 0x01] ++ t in
  let m := cmd ++ do87 in
  let* ssc := emrtd_bump_ssc ssc in
  let* s := rd_bytes ssc 0 8 in
  let n := s ++ m in
  let* cc := retail_mac kmac n (cmdlen + datalen + 11) in
  let* cc := rd_bytes cc 0 8 in
  let do8e := [0x8E; 0x08] ++ cc in
  let lc := datalen + 3 + 10 in
  let data := do87 ++ do8e in
  let head := "0C" +:+ "A4" +:+ select_by +:+ "0C" +:+ hex2 lc in
  if decide (Z.of_nat (String.length head) + 2 * lc + 2 < PM3_CMD_DATA_SIZE) then
    let* head := param_gethex_to_eol head in
    let command := head ++ data ++ [0x00] in
    let* '(card, ok, out) := emrtd_exchange_commands command false true use_14b card in
    if ok then
      match out with
      | Some response => let* '(ssc, ok) := emrtd_check_cc ssc kmac response (zlen response) in Some (card, ssc, ok)
      | None => None
      end
    else Some (card, ssc, false)
  else None.

(** [_emrtd_secure_read_binary]: result is the card, the counter, the
    return value and the bytes stored to [dataout], if any.  The first
    statement hands 20 bytes of [kmac] to the log. *)
Definition _emrtd_secure_read_binary (kmac ssc : list Z) (offset bytes_to_read : Z)
    (use_14b : bool) (card : Card) : option (Card * list Z * bool * option (list Z)) :=
  let* _ := sprint_hex_inrow kmac 20 in
  if decide (0 <= offset < 0x10000) then
    let temp := [0x0c; 0xb0; u8 (Z.shiftr offset 8); u8 (Z.shiftr offset 0); 0; 0; 0; 0] in
    let* cmd := pad_block temp 4 in
    let do97 := [0x97; 0x01; u8 bytes_to_read] in
    let* c := rd_bytes cmd 0 8 in
    let m := c ++ do97 in
    let* ssc := emrtd_bump_ssc ssc in
    let* s := rd_bytes ssc 0 8 in
    let n := s ++ m in
    let* cc := retail_mac kmac n 19 in
    let* cc := rd_bytes cc 0 8 in
    let do8e := [0x8E; 0x08] ++ cc in
    let lc := 13 in
    let data := do97 ++ do8e in
    let command := [0x0C; 0xB0; offset / 256; offset mod 256; lc] ++ data ++ [0x00] in
    let* '(card, ok, out) := emrtd_exchange_commands command false true use_14b card in
    if ok then
      match out with
      | Some response => let* '(ssc, ok) := emrtd_check_cc ssc kmac response (zlen response) in Some (card, ssc, ok, out)
      | None => None
      end
    else Some (card, ssc, false, out)
  else None.

(** [_emrtd_secure_read_binary_decrypt]: [response[500]] receives the
    protected response, [temp[500]] the plaintext. *)
Definition _emrtd_secure_read_binary_decrypt (kenc kmac ssc : list Z)
    (offset bytes_to_read : Z) (use_14b : bool) (card : Card)
    : option (Card * list Z * bool * option (list Z)) :=
  let iv := replicate 8 0x00 in
  let* '(card, ssc, ok, out) := _emrtd_secure_read_binary kmac ssc offset bytes_to_read use_14b card in
  let response := default [] out in
  if decide (zlen response <= 500) then
    if ok then
      let* r1 := rd response 1 in
      let cutat := r1 - 1 in
      let* input := rd_bytes response 3 cutat in
      let* '(iv, temp) := des3_decrypt_cbc iv kenc input cutat in
      let* plain := rd_bytes temp 0 bytes_to_read in
      Some (card, ssc, true, Some plain)
    else Some (card, ssc, false, None)
  else None.

(** One READ BINARY of [emrtd_read_file], secure or plain; the bytes
    land in a local array of [capacity] bytes. *)
Definition read_file_chunk (kenc kmac ssc : list Z) (use_secure use_14b : bool)
    (offset toread capacity : Z) (card : Card)
    : option (Card * list Z * bool * list Z) :=
  if use_secure then
    let* '(card, ssc, ok, out) := _emrtd_secure_read_binary_decrypt kenc kmac ssc offset toread use_14b card in
    let data := default [] out in
    if decide (zlen data <= capacity) then Some (card, ssc, ok, data) else None
  else
    let* '(card, ok, out) := _emrtd_read_binary offset toread use_14b card in
    let data := default [] out in
    if decide (zlen data <= capacity) then Some (card, ssc, ok, data) else None.

(** The [while (readlen > 0)] loop of [emrtd_read_file]; [n] bounds the
    number of rounds, each of which lowers [readlen]. *)
Fixpoint read_file_loop (n : nat) (kenc kmac ssc : list Z) (use_secure use_14b : bool)
    (response : list Z) (offset readlen : Z) (card : Card)
    : option (Card * list Z * bool * option (list Z)) :=
  if decide (readlen > 0) then
    match n with
    | O => None
    | S m =>
        let toread := if decide (readlen > 118) then 118 else readlen in
        let* '(card, ssc, ok, tempresponse) := read_file_chunk kenc kmac ssc use_secure use_14b offset toread 500 card in
        if ok then
          if decide (zlen response + zlen tempresponse <= EMRTD_MAX_FILE_SIZE) then
            read_file_loop m kenc kmac ssc use_secure use_14b
              (response ++ tempresponse) (offset + toread) (readlen - toread) card
          else None
        else Some (card, ssc, false, None)
    end
  else Some (card, ssc, true, Some response).

(** [emrtd_read_file]. *)
Definition emrtd_read_file (kenc kmac ssc : list Z) (use_secure use_14b : bool) (card : Card)
    : option (Card * list Z * bool * option (list Z)) :=
  let toread := 4 in
  let offset := 0 in
  let* '(card, ssc, ok, response) := read_file_chunk kenc kmac ssc use_secure use_14b offset toread EMRTD_MAX_FILE_SIZE card in
  if ok then
    let resplen := zlen response in
    let* datalen := emrtd_get_asn1_data_length response resplen 1 in
    let* fieldlen := emrtd_get_asn1_field_length response resplen 1 in
    let readlen := datalen - (3 - fieldlen) in
    let offset := 4 in
    read_file_loop (Z.to_nat readlen) kenc kmac ssc use_secure use_14b
      response offset readlen card
  else Some (card, ssc, false, None).

(** ** The tag reader *)

(** The [while (offset < datainlen)] loop of
    [emrtd_lds_get_data_by_tag]; [n] bounds the number of rounds, each
    of which advances [offset] by at least the tag length.  The result
    is [Some data] for [true] with [data] stored to [dataout], [None]
    for [false]. *)
Fixpoint lds_scan (n : nat) (datain : list Z) (datainlen tag1 tag2 : Z) (twobytetag : bool)
    (skiptagcount offset skipcounter : Z) : option (option (list Z)) :=
  if decide (offset < datainlen) then
    match n with
    | O => None
    | S m =>
        let* t := rd datain offset in
        let e_idlen := emrtd_lds_determine_tag_length t in
        let* e_datalen := emrtd_get_asn1_data_length (drop (Z.to_nat offset) datain)
                      (datainlen - offset) e_idlen in
        let* e_fieldlen := emrtd_get_asn1_field_length (drop (Z.to_nat offset) datain)
                       (datainlen - offset) e_idlen in
        let* found :=
          (if decide (t = tag1) then
             if twobytetag then let* t2 := rd datain (offset + 1) in Some (bool_decide (t2 = tag2))
             else Some true
           else Some false) in
        if found then
          if decide (skipcounter < skiptagcount) then
            lds_scan m datain datainlen tag1 tag2 twobytetag skiptagcount
              (offset + (e_idlen + e_datalen + e_fieldlen)) (skipcounter + 1)
          else if decide (datainlen > e_datalen) then
            let* data := rd_bytes datain (offset + e_idlen + e_fieldlen) e_datalen in
            Some (Some data)
          else Some None
        else
          lds_scan m datain datainlen tag1 tag2 twobytetag skiptagcount
            (offset + (e_idlen + e_datalen + e_fieldlen)) skipcounter
    end
  else Some None.

Definition emrtd_lds_get_data_by_tag (datain : list Z) (datainlen tag1 tag2 : Z)
    (twobytetag entertoptag : bool) (skiptagcount : Z) : option (option (list Z)) :=
  let* offset :=
    (if entertoptag then
       let* t := rd datain 0 in
       let offset := emrtd_lds_determine_tag_length t in
       let* fieldlen := emrtd_get_asn1_field_length datain datainlen offset in
       Some (offset + fieldlen)
     else Some 0) in
  lds_scan (Z.to_nat datainlen) datain datainlen tag1 tag2 twobytetag skiptagcount offset 0.

(** ** Basic Access Control *)

(** [memcpy] of the received bytes into a zero-initialised array of
    [capacity] bytes. *)
Definition store_zeroed (capacity : Z) (out : option (list Z)) : option (list Z) :=
  let data := default [] out in
  if decide (zlen data <= capacity)
  then Some (data ++ replicate (Z.to_nat (capacity - zlen data)) 0x00)
  else None.

(** The MRZ key seed string and the two keys derived from it, the
    opening of [emrtd_do_bac]: [kmrz[25]] holds the string and its
    NUL, [kenc[50]] and [kmac[50]] are zero-initialised. *)
Definition bac_static_keys (documentnumber dob expiry : string)
    : option (list Z * list Z * list Z) :=
  let documentnumbercd := emrtd_calculate_check_digit documentnumber in
  let dobcd := emrtd_calculate_check_digit dob in
  let expirycd := emrtd_calculate_check_digit expiry in
  let kmrz := documentnumber +:+ pretty documentnumbercd +:+ dob +:+ pretty dobcd
                +:+ expiry +:+ pretty expirycd in
  if decide (String.length kmrz < 25)%nat then
    let kseed := sha1hash (str_bytes kmrz) in
    let* kenc := emrtd_deskey kseed KENC_type 16 in
    let* kmac := emrtd_deskey kseed KMAC_type 16 in
    Some (kseed, kenc ++ replicate 34 0x00, kmac ++ replicate 34 0x00)
  else None.

(** [emrtd_do_bac]: result is the card, the return value and, where
    they were written, [ssc], [ks_enc] and [ks_mac]. *)
Definition emrtd_do_bac (documentnumber dob expiry : string) (use_14b : bool) (card : Card)
    : option (Card * bool * option (list Z * list Z * list Z)) :=
  let rnd_ifd := rng 8 in
  let k_ifd := rng 16 in
  let* keys := bac_static_keys documentnumber dob expiry in
  let '(kseed, kenc, kmac) := keys in
  let* '(card, ok, out) := emrtd_get_challenge 8 use_14b card in
  let* rnd_ic := store_zeroed 8 out in
  if ok then
    let S := rnd_ifd ++ rnd_ic ++ k_ifd in
    let iv := replicate 8 0x00 in
    let* '(iv, e_ifd) := des3_encrypt_cbc iv kenc S 32 in
    let* m_ifd := retail_mac kmac e_ifd 32 in
    let* e := rd_bytes e_ifd 0 32 in
    let* m := rd_bytes m_ifd 0 8 in
    let cmd_data := e ++ m in
    let* '(card, ok, out) := emrtd_external_authenticate cmd_data 40 use_14b card in
    let* response := store_zeroed EMRTD_MAX_FILE_SIZE out in
    if ok then
      let* input := rd_bytes response 0 32 in
      let* '(iv, dec_output) := des3_decrypt_cbc iv kenc input 32 in
      let* echoed := rd_bytes dec_output 8 8 in
      if decide (rnd_ifd ≠ echoed) then Some (card, false, None)
      else
        let* k_icc := rd_bytes dec_output 16 16 in
        let kseed := xor_bytes k_ifd k_icc ++ drop 16 kseed in
        let* ks_enc := emrtd_deskey kseed KENC_type 16 in
        let* ks_mac := emrtd_deskey kseed KMAC_type 16 in
        let* r := rd_bytes rnd_ic 4 4 in
        let ssc := r ++ drop 4 rnd_ifd in
        Some (card, true, Some (ssc, ks_enc, ks_mac))
    else Some (card, false, None)
  else Some (card, false, None).

End Model.

(** * Reference definitions, following the specification *)

(** The MRZ alphabet: upper- and lower-case letters, digits and the
    filler ['<']. *)
Definition mrz_char (c : ascii) : Prop :=
  let d := char_code c in
  65 <= d <= 90 \/ 97 <= d <= 122 \/ 48 <= d <= 57 \/ d = 60.

Fixpoint str_forall (P : ascii -> Prop) (s : string) : Prop :=
  match s with
  | EmptyString => True
  | String c rest => P c /\ str_forall P rest
  end.

Global Instance mrz_char_dec c : Decision (mrz_char c).
Proof. unfold mrz_char; cbv zeta; apply _. Defined.

Global Instance str_forall_dec (P : ascii -> Prop) `{forall c, Decision (P c)} s :
  Decision (str_forall P s).
Proof. induction s; cbn; apply _. Defined.

(** The ICAO 9303 check digit as the specification words it: a digit
    counts its value, a letter 10 for A to 35 for Z, whatever its case,
    the filler 0; the values are multiplied by the weights 7, 3, 1,
    repeating from the first character on, and the sum is taken modulo
    10. *)
Definition mrz_char_value (c : ascii) : Z :=
  let d := char_code c in
  if decide (48 <= d <= 57) then d - 48
  else if decide (65 <= d <= 90) then 10 + (d - 65)
  else if decide (97 <= d <= 122) then 10 + (d - 97)
  else 0.

Definition mrz_position_weight (i : nat) : Z :=
  match (i mod 3)%nat with
  | 0%nat => 7
  | 1%nat => 3
  | _ => 1
  end.

Fixpoint mrz_weighted_sum (i : nat) (s : string) : Z :=
  match s with
  | EmptyString => 0
  | String c rest => mrz_char_value c * mrz_position_weight i + mrz_weighted_sum (S i) rest
  end.

Definition mrz_check_digit (s : string) : Z := mrz_weighted_sum 0 s mod 10.

(** What is left of a buffer of [datainlen] bytes behind the length
    byte at [offset]: the "remaining buffer size" of the
    specification. *)
Definition remaining_size (datainlen offset : Z) : Z := datainlen - (offset + 1).

Definition upcase (c : ascii) : ascii :=
  if decide (97 <= char_code c <= 122)
  then ascii_of_N (Z.to_N (char_code c - 32)) else c.

Fixpoint str_map (f : ascii -> ascii) (s : string) : string :=
  match s with
  | EmptyString => EmptyString
  | String c rest => String (f c) (str_map f rest)
  end.


Section Reference.
Context {prim : Primitives}.
Context {Card : Type} {trx : Transceiver Card}.

(** ISO 9797-1 padding method 2: one byte [0x80], then zeros up to the
    next multiple of 8. *)
Definition iso9797_pad2 (msg : list Z) : list Z :=
  msg ++ [0x80] ++ replicate (7 - length msg mod 8)%nat 0x00.

Fixpoint blocks8 (n : nat) (msg : list Z) : list (list Z) :=
  match n with
  | O => []
  | S m => take 8 msg :: blocks8 m (drop 8 msg)
  end.

(** CBC chaining with single DES under [k0] from the zero block. *)
Definition des_cbc_chain (k0 : list Z) (blocks : list (list Z)) : list Z :=
  fold_left (fun c b => des_encrypt_ecb k0 (xor_bytes c b)) blocks (replicate 8 0x00).

(** MAC algorithm 3: the chain, then decrypt under [K1] and encrypt
    under [K0]. *)
Definition retail_mac_iso9797 (key msg : list Z) : list Z :=
  let k0 := take 8 key in
  let k1 := take 8 (drop 8 key) in
  let padded := iso9797_pad2 msg in
  let c := des_cbc_chain k0 (blocks8 (length padded / 8) padded) in
  des_encrypt_ecb k0 (des_decrypt_ecb k1 c).

(** The field with tag [tag] at position [pos] of a response: tag,
    length byte and value, or nothing when another tag stands there. *)
Definition front_field (tag : Z) (rapdu : list Z) (pos : Z) : option (list Z) :=
  let* t := rd rapdu pos in
  if decide (t = tag) then
    let* l := rd rapdu (pos + 1) in
    rd_bytes rapdu pos (2 + l)
  else Some [].

(** [responseData]: the DO'87' and DO'99' fields at the front of the
    response. *)
Definition response_data (rapdu : list Z) : option (list Z) :=
  let* do87 := front_field 0x87 rapdu 0 in
  let* do99 := front_field 0x99 rapdu (zlen do87) in
  Some (do87 ++ do99).

(** The checksum expected on a response: the retail MAC over
    [SSC || responseData]. *)
Definition response_cc (ssc kmac rapdu : list Z) : option (list Z) :=
  let* data := response_data rapdu in
  if decide (zlen data + 8 <= 500) then
    let* cc := retail_mac kmac (ssc ++ data) (zlen data + 8) in
    rd_bytes cc 0 8
  else None.

(** The protected READ BINARY command sent under the counter [ssc]:
    [0C B0 offset 0D DO'97' DO'8E' 00], the checksum taken over
    [SSC || padded head || DO'97']. *)
Definition secure_read_apdu (kmac ssc : list Z) (offset bytes_to_read : Z)
    : option (list Z) :=
  let head := [0x0C; 0xB0; offset / 256; offset mod 256] in
  let do97 := [0x97; 0x01; u8 bytes_to_read] in
  let* cc := retail_mac kmac (ssc ++ iso9797_pad2 head ++ do97) 19 in
  let* cc := rd_bytes cc 0 8 in
  Some (head ++ [13] ++ do97 ++ [0x8E; 0x08] ++ cc ++ [0x00]).


(** The run of a list of requests, each an independent READ BINARY
    whose bytes are appended to those read so far; the first request
    that fails ends the run without a file. *)
Fixpoint read_chunks (kenc kmac ssc : list Z) (use_secure use_14b : bool)
    (response : list Z) (plan : list (Z * Z)) (card : Card)
    : option (Card * list Z * bool * option (list Z)) :=
  match plan with
  | [] => Some (card, ssc, true, Some response)
  | (offset, toread) :: rest =>
      let* '(card, ssc, ok, tempresponse) :=
        read_file_chunk kenc kmac ssc use_secure use_14b offset toread 500 card in
      if ok then
        if decide (zlen response + zlen tempresponse <= EMRTD_MAX_FILE_SIZE) then
          read_chunks kenc kmac ssc use_secure use_14b (response ++ tempresponse) rest card
        else None
      else Some (card, ssc, false, None)
  end.

End Reference.



(** A transceiver that also keeps the list of the commands sent. *)
Definition recording {Card : Type} (trx : Transceiver Card)
    : Transceiver (Card * list (list Z)) :=
  {| ExchangeAPDU14a cmd activate keep st :=
       let '(card, r) := ExchangeAPDU14a cmd activate keep st.1 in
       ((card, st.2 ++ [cmd]), r);
     exchange_14b_apdu cmd activate keep timeout st :=
       let '(card, r) := exchange_14b_apdu cmd activate keep timeout st.1 in
       ((card, st.2 ++ [cmd]), r) |}.

(** The offset and the number of bytes a READ BINARY command asks for:
    [00 B0 offset Le] in the clear, [0C B0 offset 0D 97 01 Le ...]
    under secure messaging. *)
Definition read_request (cmd : list Z) : option (Z * Z) :=
  let* cla := rd cmd 0 in
  let* ins := rd cmd 1 in
  let* hi := rd cmd 2 in
  let* lo := rd cmd 3 in
  if decide (ins = 0xB0) then
    if decide (cla = 0x00) then
      let* n := rd cmd 4 in Some (hi * 256 + lo, n)
    else if decide (cla = 0x0C) then
      let* n := rd cmd 7 in Some (hi * 256 + lo, n)
    else None
  else None.

Definition requested (cmd : list Z) (req : Z * Z) : Prop := read_request cmd = Some req.

(** Requests at advancing offsets from [offset] on, each for 1 to 118
    bytes, each starting where the one before ended. *)
Fixpoint advancing (offset : Z) (reqs : list (Z * Z)) : Prop :=
  match reqs with
  | [] => True
  | (o, k) :: rest => o = offset /\ 1 <= k <= 118 /\ advancing (offset + k) rest
  end.

Definition sum_list (l : list Z) : Z := fold_right Z.add 0 l.

(** The requests that fetch [readlen] bytes from [offset] on in chunks
    of at most 118 bytes: [k] requests, each where the one before
    ended, each for 118 bytes or for what is left. *)
Fixpoint plan_from (k : nat) (offset readlen : Z) : list (Z * Z) :=
  match k with
  | O => []
  | S k' => (offset, Z.min 118 readlen) :: plan_from k' (offset + 118) (readlen - 118)
  end.

(** Their number is known in advance: [readlen / 118], rounded up. *)
Definition chunk_plan (offset readlen : Z) : list (Z * Z) :=
  plan_from (Z.to_nat ((readlen + 117) / 118)) offset readlen.

(** *** LDS elements

    A well-formed buffer is the concatenation of elements, each a tag
    of one byte, or of two bytes when the first is [0x5F] or [0x7F], a
    BER length field in definite form and the value. *)
Record lds_element := { el_tag : list Z; el_value : list Z }.

Definition enc_length (n : Z) : list Z :=
  if decide (n <= 0x7F) then [n]
  else if decide (n <= 0xFF) then [0x81; n]
  else if decide (n <= 0xFFFF) then [0x82; n / 256; n mod 256]
  else [0x83; n / 65536; n / 256 mod 256; n mod 256].

Definition enc_element (e : lds_element) : list Z :=
  el_tag e ++ enc_length (zlen (el_value e)) ++ el_value e.

Definition enc_elements (es : list lds_element) : list Z :=
  concat (enc_element <$> es).

Definition wf_tag (t : list Z) : Prop :=
  match t with
  | [b] => is_u8 b /\ b <> 0x5F /\ b <> 0x7F
  | [b1; b2] => (b1 = 0x5F \/ b1 = 0x7F) /\ is_u8 b2
  | _ => False
  end.

Definition wf_element (e : lds_element) : Prop :=
  wf_tag (el_tag e) /\ Forall is_u8 (el_value e) /\ zlen (el_value e) < 2 ^ 24.

Global Instance wf_tag_dec t : Decision (wf_tag t).
Proof. destruct t as [|b1 [|b2 [|]]]; cbn; apply _. Defined.

Global Instance wf_element_dec e : Decision (wf_element e).
Proof. unfold wf_element. apply _. Defined.

(** The test the scan applies to the element that starts at the
    current offset: first byte against [tag1] and, for a two-byte tag,
    second byte against [tag2]. *)
Definition tag_matches (tag1 tag2 : Z) (twobytetag : bool) (e : lds_element) : Prop :=
  enc_element e !! 0%nat = Some tag1 /\
  (twobytetag = true -> enc_element e !! 1%nat = Some tag2).

Global Instance tag_matches_dec tag1 tag2 twobytetag e :
  Decision (tag_matches tag1 tag2 twobytetag e).
Proof. unfold tag_matches. apply _. Defined.

(** The value of the [skip + 1]-th top-level element that matches. *)
Definition find_element (tag1 tag2 : Z) (twobytetag : bool) (skip : Z)
    (es : list lds_element) : option (list Z) :=
  el_value <$> filter (tag_matches tag1 tag2 twobytetag) es !! Z.to_nat skip.

(** ** The standard primitives

    Modelled from the spec: the DES/3DES and SHA-1 collaborators
    ([mbedtls_des_crypt_ecb], [mbedtls_des3_crypt_cbc] with a two-key
    schedule, [sha1hash] of [crypto/libpcrypto.h]) are not part of the
    sources; they are the standard DES (FIPS 46-3), its two-key EDE
    variant in CBC mode with the [iv] updated in place, and SHA-1
    (FIPS 180).  They make the model executable on test vectors. *)
Module Std.

(** [permute table width x]: bit [j] (1 = most significant of [width])
    of [x] for each [j] of [table], most significant first. *)
Definition permute (table : list Z) (width : Z) (x : Z) : Z :=
  fold_left (fun acc j => 2 * acc + (if Z.testbit x (width - j) then 1 else 0)) table 0.

Definition IP : list Z :=
  [58; 50; 42; 34; 26; 18; 10; 2; 60; 52; 44; 36; 28; 20; 12; 4;
   62; 54; 46; 38; 30; 22; 14; 6; 64; 56; 48; 40; 32; 24; 16; 8;
   57; 49; 41; 33; 25; 17; 9; 1; 59; 51; 43; 35; 27; 19; 11; 3;
   61; 53; 45; 37; 29; 21; 13; 5; 63; 55; 47; 39; 31; 23; 15; 7].

Definition FP : list Z :=
  [40; 8; 48; 16; 56; 24; 64; 32; 39; 7; 47; 15; 55; 23; 63; 31;
   38; 6; 46; 14; 54; 22; 62; 30; 37; 5; 45; 13; 53; 21; 61; 29;
   36; 4; 44; 12; 52; 20; 60; 28; 35; 3; 43; 11; 51; 19; 59; 27;
   34; 2; 42; 10; 50; 18; 58; 26; 33; 1; 41; 9; 49; 17; 57; 25].

Definition E : list Z :=
  [32; 1; 2; 3; 4; 5; 4; 5; 6; 7; 8; 9; 8; 9; 10; 11; 12; 13;
   12; 13; 14; 15; 16; 17; 16; 17; 18; 19; 20; 21; 20; 21; 22; 23; 24; 25;
   24; 25; 26; 27; 28; 29; 28; 29; 30; 31; 32; 1].

Definition P : list Z :=
  [16; 7; 20; 21; 29; 12; 28; 17; 1; 15; 23; 26; 5; 18; 31; 10;
   2; 8; 24; 14; 32; 27; 3; 9; 19; 13; 30; 6; 22; 11; 4; 25].

Definition PC1 : list Z :=
  [57; 49; 41; 33; 25; 17; 9; 1; 58; 50; 42; 34; 26; 18;
   10; 2; 59; 51; 43; 35; 27; 19; 11; 3; 60; 52; 44; 36;
   63; 55; 47; 39; 31; 23; 15; 7; 62; 54; 46; 38; 30; 22;
   14; 6; 61; 53; 45; 37; 29; 21; 13; 5; 28; 20; 12; 4].

Definition PC2 : list Z :=
  [14; 17; 11; 24; 1; 5; 3; 28; 15; 6; 21; 10;
   23; 19; 12; 4; 26; 8; 16; 7; 27; 20; 13; 2;
   41; 52; 31; 37; 47; 55; 30; 40; 51; 45; 33; 48;
   44; 49; 39; 56; 34; 53; 46; 42; 50; 36; 29; 32].

Definition SHIFTS : list Z := [1; 1; 2; 2; 2; 2; 2; 2; 1; 2; 2; 2; 2; 2; 2; 1].

Definition SBOX : list (list Z) :=
  [ [14; 4; 13; 1; 2; 15; 11; 8; 3; 10; 6; 12; 5; 9; 0; 7;
     0; 15; 7; 4; 14; 2; 13; 1; 10; 6; 12; 11; 9; 5; 3; 8;
     4; 1; 14; 8; 13; 6; 2; 11; 15; 12; 9; 7; 3; 10; 5; 0;
     15; 12; 8; 2; 4; 9; 1; 7; 5; 11; 3; 14; 10; 0; 6; 13];
    [15; 1; 8; 14; 6; 11; 3; 4; 9; 7; 2; 13; 12; 0; 5; 10;
     3; 13; 4; 7; 15; 2; 8; 14; 12; 0; 1; 10; 6; 9; 11; 5;
     0; 14; 7; 11; 10; 4; 13; 1; 5; 8; 12; 6; 9; 3; 2; 15;
     13; 8; 10; 1; 3; 15; 4; 2; 11; 6; 7; 12; 0; 5; 14; 9];
    [10; 0; 9; 14; 6; 3; 15; 5; 1; 13; 12; 7; 11; 4; 2; 8;
     13; 7; 0; 9; 3; 4; 6; 10; 2; 8; 5; 14; 12; 11; 15; 1;
     13; 6; 4; 9; 8; 15; 3; 0; 11; 1; 2; 12; 5; 10; 14; 7;
     1; 10; 13; 0; 6; 9; 8; 7; 4; 15; 14; 3; 11; 5; 2; 12];
    [7; 13; 14; 3; 0; 6; 9; 10; 1; 2; 8; 5; 11; 12; 4; 15;
     13; 8; 11; 5; 6; 15; 0; 3; 4; 7; 2; 12; 1; 10; 14; 9;
     10; 6; 9; 0; 12; 11; 7; 13; 15; 1; 3; 14; 5; 2; 8; 4;
     3; 15; 0; 6; 10; 1; 13; 8; 9; 4; 5; 11; 12; 7; 2; 14];
    [2; 12; 4; 1; 7; 10; 11; 6; 8; 5; 3; 15; 13; 0; 14; 9;
     14; 11; 2; 12; 4; 7; 13; 1; 5; 0; 15; 10; 3; 9; 8; 6;
     4; 2; 1; 11; 10; 13; 7; 8; 15; 9; 12; 5; 6; 3; 0; 14;
     11; 8; 12; 7; 1; 14; 2; 13; 6; 15; 0; 9; 10; 4; 5; 3];
    [12; 1; 10; 15; 9; 2; 6; 8; 0; 13; 3; 4; 14; 7; 5; 11;
     10; 15; 4; 2; 7; 12; 9; 5; 6; 1; 13; 14; 0; 11; 3; 8;
     9; 14; 15; 5; 2; 8; 12; 3; 7; 0; 4; 10; 1; 13; 11; 6;
     4; 3; 2; 12; 9; 5; 15; 10; 11; 14; 1; 7; 6; 0; 8; 13];
    [4; 11; 2; 14; 15; 0; 8; 13; 3; 12; 9; 7; 5; 10; 6; 1;
     13; 0; 11; 7; 4; 9; 1; 10; 14; 3; 5; 12; 2; 15; 8; 6;
     1; 4; 11; 13; 12; 3; 7; 14; 10; 15; 6; 8; 0; 5; 9; 2;
     6; 11; 13; 8; 1; 4; 10; 7; 9; 5; 0; 15; 14; 2; 3; 12];
    [13; 2; 8; 4; 6; 15; 11; 1; 10; 9; 3; 14; 5; 0; 12; 7;
     1; 15; 13; 8; 10; 3; 7; 4; 12; 5; 6; 11; 0; 14; 9; 2;
     7; 11; 4; 1; 9; 12; 14; 2; 0; 6; 10; 13; 15; 3; 5; 8;
     2; 1; 14; 7; 4; 10; 8; 13; 15; 12; 9; 0; 3; 5; 6; 11] ].

Definition rotl28 (x s : Z) : Z :=
  Z.lor (Z.land (Z.shiftl x s) 0xFFFFFFF) (Z.shiftr x (28 - s)).

(** The sixteen 48-bit round keys of an 8-byte key. *)
Definition key_schedule (key : Z) : list Z :=
  let cd := permute PC1 64 key in
  let c := Z.shiftr cd 28 in
  let d := Z.land cd 0xFFFFFFF in
  (fold_left
     (fun '(c, d, ks) s =>
        let c := rotl28 c s in
        let d := rotl28 d s in
        (c, d, ks ++ [permute PC2 56 (Z.lor (Z.shiftl c 28) d)]))
     SHIFTS (c, d, [])).2.

(** The six input bits [b] of S-box [i]: row from the outer bits,
    column from the inner four. *)
Definition sbox (i : nat) (b : Z) : Z :=
  let row := 2 * (b / 32) + b mod 2 in
  let col := (b / 2) mod 16 in
  (SBOX !!! i) !!! Z.to_nat (16 * row + col).

Definition feistel (r k : Z) : Z :=
  let x := Z.lxor (permute E 32 r) k in
  let y := fold_left
             (fun acc i => 16 * acc + sbox i (Z.land (Z.shiftr x (42 - 6 * Z.of_nat i)) 63))
             (seq 0 8) 0 in
  permute P 32 y.

Definition des_block (ks : list Z) (x : Z) : Z :=
  let x := permute IP 64 x in
  let l := Z.shiftr x 32 in
  let r := Z.land x 0xFFFFFFFF in
  let '(l, r) := fold_left (fun '(l, r) k => (r, Z.lxor l (feistel r k))) ks (l, r) in
  permute FP 64 (Z.lor (Z.shiftl r 32) l).

Fixpoint be_bytes (n : nat) (x : Z) : list Z :=
  match n with
  | O => []
  | S m => be_bytes m (x / 256) ++ [x mod 256]
  end.

Definition des_enc (key block : list Z) : list Z :=
  be_bytes 8 (des_block (key_schedule (be_val (take 8 key))) (be_val (take 8 block))).

Definition des_dec (key block : list Z) : list Z :=
  be_bytes 8 (des_block (rev (key_schedule (be_val (take 8 key)))) (be_val (take 8 block))).

(** Two-key triple DES: encrypt under the first key, decrypt under the
    second, encrypt under the first. *)
Definition des3_enc (key block : list Z) : list Z :=
  des_enc key (des_dec (drop 8 key) (des_enc key block)).

Definition des3_dec (key block : list Z) : list Z :=
  des_dec key (des_enc (drop 8 key) (des_dec key block)).

Fixpoint cbc_encrypt (n : nat) (iv key input : list Z) : list Z * list Z :=
  match n with
  | O => (iv, [])
  | S m =>
      let output := des3_enc key (zip_with Z.lxor (take 8 input) iv) in
      let '(iv, rest) := cbc_encrypt m output key (drop 8 input) in
      (iv, output ++ rest)
  end.

Fixpoint cbc_decrypt (n : nat) (iv key input : list Z) : list Z * list Z :=
  match n with
  | O => (iv, [])
  | S m =>
      let temp := take 8 input in
      let output := zip_with Z.lxor (des3_dec key temp) iv in
      let '(iv, rest) := cbc_decrypt m temp key (drop 8 input) in
      (iv, output ++ rest)
  end.

Definition des3_crypt_cbc (crypt : nat -> list Z -> list Z -> list Z -> list Z * list Z)
    (iv key input : list Z) (inputlen : Z) : option (list Z * list Z) :=
  if decide (0 <= inputlen /\ inputlen mod 8 = 0 /\ inputlen <= zlen input
             /\ 8 <= zlen iv /\ 16 <= zlen key)
  then Some (crypt (Z.to_nat (inputlen / 8)) (take 8 iv) key input)
  else None.

(** *** SHA-1 *)

Definition w32 (x : Z) : Z := x mod 2 ^ 32.

Definition rotl32 (s x : Z) : Z :=
  Z.lor (w32 (Z.shiftl x s)) (Z.shiftr x (32 - s)).

Definition sha1_pad (msg : list Z) : list Z :=
  let len := zlen msg in
  msg ++ [0x80] ++ replicate (Z.to_nat ((55 - len) mod 64)) 0 ++ be_bytes 8 (8 * len).

Fixpoint be_words (n : nat) (bs : list Z) : list Z :=
  match n with
  | O => []
  | S m => be_val (take 4 bs) :: be_words m (drop 4 bs)
  end.

(** The message schedule, most recent word first. *)
Fixpoint sha1_expand (n : nat) (w : list Z) : list Z :=
  match n with
  | O => w
  | S m =>
      let x := Z.lxor (Z.lxor (w !!! 2%nat) (w !!! 7%nat))
                      (Z.lxor (w !!! 13%nat) (w !!! 15%nat)) in
      sha1_expand m (rotl32 1 x :: w)
  end.

Definition sha1_f (t b c d : Z) : Z * Z :=
  if decide (t < 20) then (Z.lor (Z.land b c) (Z.land (Z.lxor b 0xFFFFFFFF) d), 0x5A827999)
  else if decide (t < 40) then (Z.lxor (Z.lxor b c) d, 0x6ED9EBA1)
  else if decide (t < 60) then
    (Z.lor (Z.lor (Z.land b c) (Z.land b d)) (Z.land c d), 0x8F1BBCDC)
  else (Z.lxor (Z.lxor b c) d, 0xCA62C1D6).

Definition sha1_block (h : list Z) (block : list Z) : list Z :=
  let w := rev (sha1_expand 64 (rev (be_words 16 block))) in
  match h with
  | [h0; h1; h2; h3; h4] =>
      let '(a, b, c, d, e, _) :=
        fold_left
          (fun '(a, b, c, d, e, t) wt =>
             let '(f, k) := sha1_f t b c d in
             (w32 (rotl32 5 a + f + e + k + wt), a, rotl32 30 b, c, d, t + 1))
          w (h0, h1, h2, h3, h4, 0) in
      [w32 (h0 + a); w32 (h1 + b); w32 (h2 + c); w32 (h3 + d); w32 (h4 + e)]
  | _ => h
  end.

Fixpoint sha1_blocks (n : nat) (h : list Z) (msg : list Z) : list Z :=
  match n with
  | O => h
  | S m => sha1_blocks m (sha1_block h (take 64 msg)) (drop 64 msg)
  end.

Definition sha1 (msg : list Z) : list Z :=
  let padded := sha1_pad msg in
  let h := sha1_blocks (length padded / 64)
             [0x67452301; 0xEFCDAB89; 0x98BADCFE; 0x10325476; 0xC3D2E1F0] padded in
  concat (be_bytes 4 <$> h).

Definition primitives : Primitives := {|
  des_encrypt_ecb := des_enc;
  des_decrypt_ecb := des_dec;
  des3_encrypt_cbc := des3_crypt_cbc cbc_encrypt;
  des3_decrypt_cbc := des3_crypt_cbc cbc_decrypt;
  sha1hash := sha1
|}.

End Std.

(** ** A scripted card

    The responses the card will give, in order; a command sent when the
    script is exhausted gets no response. *)
Definition scripted : Transceiver (list (option (list Z))) :=
  {| ExchangeAPDU14a _ _ _ script :=
       match script with
       | [] => ([], None)
       | r :: rest => (rest, r)
       end;
     exchange_14b_apdu _ _ _ _ script :=
       match script with
       | [] => ([], None)
       | r :: rest => (rest, r)
       end |}.

(** Bytes of a hexadecimal string, for test vectors. *)
Fixpoint hex_bytes (s : string) : list Z :=
  match s with
  | String a (String b rest) =>
      match hex_digit a, hex_digit b with
      | Some x, Some y => (16 * x + y) :: hex_bytes rest
      | _, _ => []
      end
  | _ => []
  end.

(** ** Test data: the worked example of ICAO Doc 9303 part 11, appendix D *)
Module Example.

Definition documentnumber : string := "L898902C<".
Definition dob : string := "690806".
Definition expiry : string := "940623".

Definition kseed : list Z := hex_bytes "239AB9CB282DAF66231DC5A4DF6BFBAE".
Definition kenc : list Z := hex_bytes "AB94FDECF2674FDFB9B391F85D7F76F2".
Definition kmac : list Z := hex_bytes "7962D9ECE03D1ACD4C76089DCE131543".
Definition e_ifd : list Z :=
  hex_bytes "72C29C2371CC9BDB65B779B8E8D37B29ECC154AA56A8799FAE2F498F76ED92F2".
Definition m_ifd : list Z := hex_bytes "5F1448EEA8AD90A7".

Definition rnd_ic : list Z := hex_bytes "4608F91988702212".

(** The chip of the appendix answers EXTERNAL AUTHENTICATE with the
    cryptogram of [RND.IC || RND.IFD || K.ICC] for the RND.IFD of the
    appendix, [781723860C06C226]. *)
Definition bac_card_appendix : list (option (list Z)) :=
  [ Some (rnd_ic ++ [0x90; 0x00]);
    Some (hex_bytes ("46B9342A41396CD7386BF5803104D7CEDC122B9132139BAF2EEDC94EE178534F"
                     +:+ "2F2D235D074D7449" +:+ "9000")) ].

(** A chip that echoes the all-zero RND.IFD this reader sends: the
    cryptogram of [RND.IC || 0000000000000000 || K.ICC] under the same
    keys. *)
Definition bac_card_zero : list (option (list Z)) :=
  [ Some (rnd_ic ++ [0x90; 0x00]);
    Some (hex_bytes ("46B9342A41396CD7FC68DCFAA923788C5AF35DA4C126CBF823C46174CB350B47"
                     +:+ "B77D870C022F1AB4" +:+ "9000")) ].

Definition ksenc : list Z := hex_bytes "979EC13B1CBFE9DCD01AB0FED307EAE5".
Definition ksmac : list Z := hex_bytes "F1CB1F1FB5ADF208806B89DC579DC1F8".

(** The session MAC key at the head of an array of which 20 bytes can
    be read, as the log line of the secure read asks. *)
Definition ksmac20 : list Z := ksmac ++ replicate 4 0x00.
Definition ssc : list Z := hex_bytes "887022120C06C226".
Definition ssc_selected : list Z := hex_bytes "887022120C06C228".

Definition read4_response : list Z :=
  hex_bytes "8709019FF0EC34F9922651990290008E08AD55CC17140B2DED9000".
Definition read18_response : list Z :=
  hex_bytes ("871901FB9235F4E4037F2327DCC8964F1F9B8C30F42C8E2FFF224A"
             +:+ "990290008E08C8B2787EAEA07D749000").

(** EF.COM of the appendix is read after it was selected. *)
Definition ef_com_card : list (option (list Z)) :=
  [Some read4_response; Some read18_response].

Definition ef_com : list Z := hex_bytes "60145F0104303130365F36063034303030305C026175".

(** EF.COM as elements: LDS version, Unicode version and tag list
    inside the template [60]. *)
Definition ef_com_elements : list lds_element :=
  [ {| el_tag := [0x5F; 0x01]; el_value := hex_bytes "30313036" |};
    {| el_tag := [0x5F; 0x36]; el_value := hex_bytes "303430303030" |};
    {| el_tag := [0x5C]; el_value := [0x61; 0x75] |} ].

Definition ef_com_template : lds_element :=
  {| el_tag := [0x60]; el_value := enc_elements ef_com_elements |}.

(** A file of 253 bytes that can be read in the clear: the template
    [61] with a value of 250 bytes, handed out in the four pieces the
    reader asks for. *)
Definition long_file : list Z := [0x61; 0x81; 0xFA] ++ replicate 250 0x20.

Definition long_file_card : list (option (list Z)) :=
  [ Some (take 4 long_file ++ [0x90; 0x00]);
    Some (take 118 (drop 4 long_file) ++ [0x90; 0x00]);
    Some (take 118 (drop 122 long_file) ++ [0x90; 0x00]);
    Some (drop 240 long_file ++ [0x90; 0x00]) ].

(** A chip that declares a value of 5 bytes and answers the request
    for the 3 bytes behind the first 4 with the status word alone. *)
Definition short_chunk_card : list (option (list Z)) :=
  [ Some [0x61; 0x05; 0x5F; 0x1F; 0x90; 0x00]; Some [0x90; 0x00] ].


End Example.

(** * Further parts of the client: file table, plain selection, dumpers,
      authentication decision, MRZ fields *)

(** ** Character arrays *)

(** [s[i]] on a character array of which [s] holds the readable
    characters. *)
Definition str_rd (s : string) (i : Z) : option ascii :=
  if decide (0 <= i) then String.get (Z.to_nat i) s else None.

(** [memcpy (dst, s + off, n)] seen from the source side: the [n]
    characters at [s + off], all of which must be readable. *)
Definition str_rd_bytes (s : string) (off n : Z) : option string :=
  if decide (0 <= off /\ 0 <= n /\ off + n <= Z.of_nat (String.length s))
  then Some (str_take (Z.to_nat n) (str_drop (Z.to_nat off) s))
  else None.

(** [memcpy (buf + pos, src, n)] seen from the destination side, [src]
    being the [n] characters copied: they must fit the array. *)
Definition str_write (buf : string) (pos : Z) (src : string) : option string :=
  if decide (0 <= pos /\ pos + Z.of_nat (String.length src) <= Z.of_nat (String.length buf))
  then Some (str_take (Z.to_nat pos) buf +:+ src
               +:+ str_drop (Z.to_nat pos + String.length src) buf)
  else None.

(** A character array initialised with [{ 0x00 }]. *)
Fixpoint str_zeroed (n : nat) : string :=
  match n with
  | O => EmptyString
  | S m => String nul (str_zeroed m)
  end.

Fixpoint str_has_nul (buf : string) : bool :=
  match buf with
  | EmptyString => false
  | String c rest => bool_decide (char_code c = 0) || str_has_nul rest
  end.

(** The string [printf ("%s", buf)] prints: the characters before the
    NUL, which has to stand inside the array. *)
Definition printed (buf : string) : option string :=
  if str_has_nul buf then Some (c_str buf) else None.

(** [strtol (s, NULL, 10)] in the C locale: blanks, an optional sign,
    then the longest run of decimal digits (none gives 0).  The strings
    the callers pass hold two characters, far from the range of
    [long]. *)

Fixpoint strtol10_digits (acc : Z) (s : string) : Z :=
  match s with
  | EmptyString => acc
  | String c rest =>
      let d := char_code c in
      if decide (48 <= d <= 57) then strtol10_digits (acc * 10 + (d - 48)) rest else acc
  end.

Definition strtol10_signed (s : string) : Z :=
  match s with
  | String c rest =>
      if decide (char_code c = 45) then - strtol10_digits 0 rest
      else if decide (char_code c = 43) then strtol10_digits 0 rest
      else strtol10_digits 0 s
  | EmptyString => 0
  end.

Fixpoint strtol10 (s : string) : Z :=
  match s with
  | String c rest => if is_space (char_code c) then strtol10 rest else strtol10_signed s
  | EmptyString => 0
  end.

(** The filler ['<'] stands at position [p], or another character. *)
Definition filler_at (mrz : string) (p : Z) : Prop :=
  exists c, str_rd mrz p = Some c /\ char_code c = 60.

Definition other_at (mrz : string) (p : Z) : Prop :=
  exists c, str_rd mrz p = Some c /\ char_code c <> 60.

(** A part of a name as the MRZ holds it: it starts and ends with a
    character other than the filler, holds no two fillers side by side
    and no NUL. *)
Definition is_filler (c : ascii) : bool := bool_decide (char_code c = 60).

Fixpoint no_double_filler (s : string) : bool :=
  match s with
  | String a rest =>
      match rest with
      | String b _ => negb (is_filler a && is_filler b)
      | EmptyString => true
      end && no_double_filler rest
  | EmptyString => true
  end.

Definition name_part (s : string) : bool :=
  match str_rd s 0, str_rd s (Z.of_nat (String.length s) - 1) with
  | Some a, Some z => negb (is_filler a) && negb (is_filler z)
  | _, _ => false
  end && no_double_filler s && negb (str_has_nul s).

(** The name with a blank for every filler. *)
Definition spaced (s : string) : string :=
  str_map (fun c => if decide (char_code c = 60) then " "%char else c) s.

(** ** Specimen data: the machine readable zone of the passport shown
    in ICAO Doc 9303 part 4, two lines of 44 characters *)
Module Specimen.

Definition pre : string := "P<UTO".
Definition surname : string := "ERIKSSON".
Definition given : string := "ANNA<MARIA".
Definition fill : string := "<<<<<<<<<<<<<<<<<<".
Definition line2 : string := "L898902C36UTO7408122F1204159ZE184226B<<<<<10".

Definition mrz : string :=
  pre +:+ surname +:+ "<<" +:+ given +:+ fill +:+ "<" +:+ line2.

End Specimen.

(** ** The table of files *)

Inductive emrtd_parser : Set :=
  | emrtd_print_ef_com_info_p
  | emrtd_print_ef_dg1_info_p
  | emrtd_print_ef_dg11_info_p
  | emrtd_print_ef_dg12_info_p.

Inductive emrtd_dumper : Set :=
  | emrtd_dump_ef_dg2_d
  | emrtd_dump_ef_dg5_d
  | emrtd_dump_ef_dg7_d
  | emrtd_dump_ef_sod_d.

(** [emrtd_dg_t]; the fields carry the prefix [dg_] here, the table
    stores its parser and dumper by name. *)
Record emrtd_dg_t := {
  dg_tag : Z;
  dg_dgnum : Z;
  dg_fileid : string;
  dg_filename : string;
  dg_desc : string;
  dg_pace : bool;
  dg_eac : bool;
  dg_required : bool;
  dg_fastdump : bool;
  dg_parser : option emrtd_parser;
  dg_dumper : option emrtd_dumper
}.

Global Instance emrtd_parser_eq_dec : EqDecision emrtd_parser.
Proof. solve_decision. Defined.

Global Instance emrtd_dumper_eq_dec : EqDecision emrtd_dumper.
Proof. solve_decision. Defined.

Global Instance emrtd_dg_t_eq_dec : EqDecision emrtd_dg_t.
Proof. solve_decision. Defined.

Inductive emrtd_dg_enum : Set :=
  | EF_COM | EF_DG1 | EF_DG2 | EF_DG3 | EF_DG4 | EF_DG5 | EF_DG6 | EF_DG7 | EF_DG8
  | EF_DG9 | EF_DG10 | EF_DG11 | EF_DG12 | EF_DG13 | EF_DG14 | EF_DG15 | EF_DG16
  | EF_SOD | EF_CardAccess | EF_CardSecurity.

Definition dg_index (e : emrtd_dg_enum) : nat :=
  match e with
  | EF_COM => 0 | EF_DG1 => 1 | EF_DG2 => 2 | EF_DG3 => 3 | EF_DG4 => 4 | EF_DG5 => 5
  | EF_DG6 => 6 | EF_DG7 => 7 | EF_DG8 => 8 | EF_DG9 => 9 | EF_DG10 => 10
  | EF_DG11 => 11 | EF_DG12 => 12 | EF_DG13 => 13 | EF_DG14 => 14 | EF_DG15 => 15
  | EF_DG16 => 16 | EF_SOD => 17 | EF_CardAccess => 18 | EF_CardSecurity => 19
  end.

(** [dg_table]: the entries before the terminating entry, whose
    [filename] is [NULL]. *)
Definition dg_table : list emrtd_dg_t :=
  [ Build_emrtd_dg_t 0x60 0 "011E" "EF_COM" "Header and Data Group Presence Information"
      false false true true (Some emrtd_print_ef_com_info_p) None;
    Build_emrtd_dg_t 0x61 1 "0101" "EF_DG1" "Details recorded in MRZ"
      false false true true (Some emrtd_print_ef_dg1_info_p) None;
    Build_emrtd_dg_t 0x75 2 "0102" "EF_DG2" "Encoded Face"
      false false true false None (Some emrtd_dump_ef_dg2_d);
    Build_emrtd_dg_t 0x63 3 "0103" "EF_DG3" "Encoded Finger(s)"
      false true false false None None;
    Build_emrtd_dg_t 0x76 4 "0104" "EF_DG4" "Encoded Eye(s)"
      false true false false None None;
    Build_emrtd_dg_t 0x65 5 "0105" "EF_DG5" "Displayed Portrait"
      false false false false None (Some emrtd_dump_ef_dg5_d);
    Build_emrtd_dg_t 0x66 6 "0106" "EF_DG6" "Reserved for Future Use"
      false false false false None None;
    Build_emrtd_dg_t 0x67 7 "0107" "EF_DG7" "Displayed Signature or Usual Mark"
      false false false false None (Some emrtd_dump_ef_dg7_d);
    Build_emrtd_dg_t 0x68 8 "0108" "EF_DG8" "Data Feature(s)"
      false false false true None None;
    Build_emrtd_dg_t 0x69 9 "0109" "EF_DG9" "Structure Feature(s)"
      false false false true None None;
    Build_emrtd_dg_t 0x6a 10 "010A" "EF_DG10" "Substance Feature(s)"
      false false false true None None;
    Build_emrtd_dg_t 0x6b 11 "010B" "EF_DG11" "Additional Personal Detail(s)"
      false false false true (Some emrtd_print_ef_dg11_info_p) None;
    Build_emrtd_dg_t 0x6c 12 "010C" "EF_DG12" "Additional Document Detail(s)"
      false false false true (Some emrtd_print_ef_dg12_info_p) None;
    Build_emrtd_dg_t 0x6d 13 "010D" "EF_DG13" "Optional Detail(s)"
      false false false true None None;
    Build_emrtd_dg_t 0x6e 14 "010E" "EF_DG14" "Security Options"
      false false false true None None;
    Build_emrtd_dg_t 0x6f 15 "010F" "EF_DG15" "Active Authentication Public Key Info"
      false false false true None None;
    Build_emrtd_dg_t 0x70 16 "0110" "EF_DG16" "Person(s) to Notify"
      false false false true None None;
    Build_emrtd_dg_t 0x77 0 "011D" "EF_SOD" "Document Security Object"
      false false false false None (Some emrtd_dump_ef_sod_d);
    Build_emrtd_dg_t 0xff 0 "011C" "EF_CardAccess" "PACE SecurityInfos"
      true false true true None None;
    Build_emrtd_dg_t 0xff 0 "011D" "EF_CardSecurity"
      "PACE SecurityInfos for Chip Authentication Mapping"
      true false false true None None ].

(** [dg_table[e]]. *)
Definition dg_entry (e : emrtd_dg_enum) : option emrtd_dg_t := dg_table !! dg_index e.

(** The loop of the two lookups: the first entry before the
    terminator that passes the test. *)
Fixpoint dg_first (test : emrtd_dg_t -> bool) (table : list emrtd_dg_t)
    : option emrtd_dg_t :=
  match table with
  | [] => None
  | dg :: rest => if test dg then Some dg else dg_first test rest
  end.

(** [emrtd_tag_to_dg]: the tag arrives as a [uint8_t]. *)
Definition emrtd_tag_to_dg (tag : Z) : option emrtd_dg_t :=
  dg_first (fun dg => bool_decide (dg_tag dg = u8 tag)) dg_table.

(** [emrtd_fileid_to_dg]: [strcmp] on the identifier strings. *)
Definition emrtd_fileid_to_dg (file_id : string) : option emrtd_dg_t :=
  dg_first (fun dg => bool_decide (dg_fileid dg = file_id)) dg_table.

(** ** MRZ fields *)

(** The loop [for (i = max_length; i >= 0; i--)] of
    [emrtd_mrz_determine_length] with [k] rounds to go, that is at
    [i = k - 1]; it falls through at [i = -1]. *)
Fixpoint mrz_determine_length_loop (mrz : string) (offset : Z) (k : nat) : option Z :=
  match k with
  | O => Some (-1)
  | S k' =>
      let i := Z.of_nat k' in
      let* c := str_rd mrz (offset + i - 1) in
      if decide (char_code c <> 60) then Some i
      else mrz_determine_length_loop mrz offset k'
  end.

Definition emrtd_mrz_determine_length (mrz : string) (offset max_length : Z) : option Z :=
  if decide (0 <= max_length)
  then mrz_determine_length_loop mrz offset (Z.to_nat (max_length + 1))
  else Some max_length.

(** The loop [for (i = max_length - 1; i > 0; i--)] of
    [emrtd_mrz_determine_separator] at [i = k]; the second character
    is read only behind a filler. *)
Fixpoint mrz_determine_separator_loop (mrz : string) (offset : Z) (k : nat) : option Z :=
  match k with
  | O => Some 0
  | S k' =>
      let i := Z.of_nat k in
      let* c := str_rd mrz (offset + i) in
      let* found :=
        (if decide (char_code c = 60) then
           let* c' := str_rd mrz (offset + i + 1) in
           Some (bool_decide (char_code c' = 60))
         else Some false) in
      if found then Some i else mrz_determine_separator_loop mrz offset k'
  end.

Definition emrtd_mrz_determine_separator (mrz : string) (offset max_length : Z) : option Z :=
  if decide (0 < max_length - 1)
  then mrz_determine_separator_loop mrz offset (Z.to_nat (max_length - 1))
  else Some (max_length - 1).

(** The loop of [emrtd_mrz_replace_pad] seen from [data + i], with [n]
    characters to go. *)
Fixpoint mrz_replace_pad_loop (data : string) (n : nat) (newchar : ascii) : option string :=
  match n with
  | O => Some data
  | S m =>
      match data with
      | EmptyString => None
      | String c rest =>
          let* rest := mrz_replace_pad_loop rest m newchar in
          Some (String (if decide (char_code c = 60) then newchar else c) rest)
      end
  end.

Definition emrtd_mrz_replace_pad (data : string) (datalen : Z) (newchar : ascii)
    : option string :=
  mrz_replace_pad_loop data (Z.to_nat datalen) newchar.

(** [emrtd_mrz_verify_check_digit]: [tempdata[90]] is zero-initialised
    and receives the field. *)
Definition emrtd_mrz_verify_check_digit (mrz : string) (offset datalen : Z) : option bool :=
  let* field := str_rd_bytes mrz offset datalen in
  let* tempdata := str_write (str_zeroed 90) 0 field in
  let* expected := str_rd mrz (offset + datalen) in
  emrtd_compare_check_digit tempdata datalen expected.

(** [emrtd_print_name]: the label and the name handed to the log;
    [final_name[100]] is zero-initialised. *)
Definition emrtd_print_name (mrz : string) (offset max_length : Z) (localized : bool)
    : option (string * string) :=
  let final_name := str_zeroed 100 in
  let* namelen := emrtd_mrz_determine_length mrz offset max_length in
  let* sep := emrtd_mrz_determine_separator mrz offset namelen in
  let* final_name :=
    (if decide (sep <> 0) then
       let firstnamelen := namelen - (sep + 2) in
       let* first := str_rd_bytes mrz (offset + sep + 2) firstnamelen in
       let* final_name := str_write final_name 0 first in
       let* final_name := str_write final_name firstnamelen " " in
       let* last := str_rd_bytes mrz offset sep in
       str_write final_name (firstnamelen + 1) last
     else
       let* whole := str_rd_bytes mrz offset namelen in
       str_write final_name 0 whole) in
  let* final_name := emrtd_mrz_replace_pad final_name namelen " " in
  let* name := printed final_name in
  Some (if localized then "Legal Name (Localized): " else "Legal Name............: ", name).

(** [emrtd_mrz_convert_date]: [final_date] is the caller's array, of
    which the first ten characters are written; [work_date[9]] and
    [temp_year[3]] are zero-initialised.  The bytes behind [mrz] are
    the codes of its characters. *)
Definition emrtd_mrz_convert_date (mrz : string) (offset : Z) (final_date : string)
    (is_expiry is_full is_ascii : bool) : option string :=
  let work_date := str_zeroed 9 in
  let len := if is_full then 8 else 6 in
  let* copied :=
    (if negb is_ascii then
       if decide (0 <= offset) then
         let* hex := sprint_hex_inrow (drop (Z.to_nat offset) (str_bytes mrz)) (len / 2) in
         str_rd_bytes hex 0 len
       else None
     else str_rd_bytes mrz offset len) in
  let* work_date := str_write work_date 0 copied in
  let offset := 0 in
  let* '(final_date, offset) :=
    (if is_full then
       let* yy := str_rd_bytes work_date 0 2 in
       let* final_date := str_write final_date 0 yy in
       Some (final_date, offset + 2)
     else
       let* yy := str_rd_bytes work_date 0 2 in
       let* temp_year := str_write (str_zeroed 3) 0 yy in
       let* final_date :=
         (if decide (strtol10 (c_str temp_year) < 20 \/ is_expiry = true)
          then str_write final_date 0 "20"
          else str_write final_date 0 "19") in
       Some (final_date, offset)) in
  let* a := str_rd_bytes work_date offset 2 in
  let* final_date := str_write final_date 2 a in
  let* final_date := str_write final_date 4 "-" in
  let* b := str_rd_bytes work_date (offset + 2) 2 in
  let* final_date := str_write final_date 5 b in
  let* final_date := str_write final_date 7 "-" in
  let* c := str_rd_bytes work_date (offset + 4) 2 in
  str_write final_date 8 c.

(** [validate_date]: [temp[4]] is zero-initialised. *)
Definition validate_date (data : string) (datalen : Z) : option bool :=
  if decide (datalen <> 6) then Some false
  else
    let* m := str_rd_bytes data 2 2 in
    let* temp := str_write (str_zeroed 4) 0 m in
    let month := strtol10 (c_str temp) in
    let* d := str_rd_bytes data 4 2 in
    let* temp := str_write temp 0 d in
    let day := strtol10 (c_str temp) in
    Some (negb (bool_decide (day <= 0) || bool_decide (day > 31)
                || bool_decide (month <= 0) || bool_decide (month > 12))).

(** ** Dumpers *)

Inductive pm3_status : Set := PM3_SUCCESS | PM3_ESOFT.

(** One call of [saveFile]: name, suffix and the bytes handed over. *)
Record saved_file := { sf_name : string; sf_suffix : string; sf_data : list Z }.

Definition jpeg_header : list Z := [0xFF; 0xD8; 0xFF; 0xE0].
Definition jpeg2k_header : list Z := [0x00; 0x00; 0x00; 0x0C; 0x6A; 0x50].

(** The search loop of [emrtd_dump_ef_dg2] at [offset], against the
    bound [file_length - 6] taken in [size_t]; [n] bounds the rounds,
    each of which reads one more byte of the file.  The result is the
    offset at which the loop breaks, if it does. *)
Fixpoint dg2_search (n : nat) (file_contents : list Z) (bound offset : Z)
    : option (option Z) :=
  if decide (offset < bound) then
    match n with
    | O => None
    | S m =>
        let* b := rd file_contents offset in
        let* jpeg :=
          (if decide (b = 0xFF) then
             let* w := rd_bytes file_contents offset 4 in
             Some (bool_decide (jpeg_header <> w))
           else Some false) in
        let* hit :=
          (if jpeg then Some true
           else if decide (b = 0x00) then
             let* w := rd_bytes file_contents offset 6 in
             Some (bool_decide (jpeg2k_header <> w))
           else Some false) in
        if hit then Some (Some offset)
        else dg2_search m file_contents bound (offset + 1)
    end
  else Some None.

Definition image_suffix (first : Z) : string :=
  if decide (first = 0xFF) then ".jpg" else ".jp2".

(** [emrtd_dump_ef_dg2]: the status and the files saved.  [size_t] has
    64 bits; [datalen] is an [int]. *)
Definition emrtd_dump_ef_dg2 (file_contents : list Z) (file_length : Z)
    : option (pm3_status * list saved_file) :=
  if decide (0 <= file_length < 2 ^ 31) then
    let bound := (file_length - 6) mod 2 ^ 64 in
    let* found := dg2_search (S (length file_contents)) file_contents bound 0 in
    let '(offset, datalen) :=
      match found with
      | Some offset => (offset, file_length - offset)
      | None => (bound, 0)
      end in
    if decide (datalen = 0) then Some (PM3_ESOFT, [])
    else
      let* dg := dg_entry EF_DG2 in
      let* first := rd file_contents offset in
      let* data := rd_bytes file_contents offset datalen in
      Some (PM3_SUCCESS, [Build_saved_file (dg_filename dg) (image_suffix first) data])
  else None.

(** [emrtd_dump_ef_dg5] and [emrtd_dump_ef_dg7] differ in the tag and
    the table entry; [data[EMRTD_MAX_FILE_SIZE]] receives the value
    found. *)
Definition dump_image_by_tag (e : emrtd_dg_enum) (tag2 : Z) (file_contents : list Z)
    (file_length : Z) : option (pm3_status * list saved_file) :=
  let* found := emrtd_lds_get_data_by_tag file_contents file_length 0x5F tag2 true true 0 in
  match found with
  | None => Some (PM3_ESOFT, [])
  | Some data =>
      let datalen := zlen data in
      if decide (datalen <= EMRTD_MAX_FILE_SIZE) then
        if decide (datalen < EMRTD_MAX_FILE_SIZE) then
          let* dg := dg_entry e in
          let* first := rd data 0 in
          Some (PM3_SUCCESS, [Build_saved_file (dg_filename dg) (image_suffix first) data])
        else Some (PM3_ESOFT, [])
      else None
  end.

Definition emrtd_dump_ef_dg5 (file_contents : list Z) (file_length : Z) :=
  dump_image_by_tag EF_DG5 0x40 file_contents file_length.

Definition emrtd_dump_ef_dg7 (file_contents : list Z) (file_length : Z) :=
  dump_image_by_tag EF_DG7 0x42 file_contents file_length.

(** [emrtd_dump_ef_sod]. *)
Definition emrtd_dump_ef_sod (file_contents : list Z) (file_length : Z)
    : option (pm3_status * list saved_file) :=
  let* fieldlen := emrtd_get_asn1_field_length file_contents file_length 1 in
  let* datalen := emrtd_get_asn1_data_length file_contents file_length 1 in
  if decide (fieldlen + 1 > EMRTD_MAX_FILE_SIZE) then Some (PM3_SUCCESS, [])
  else
    let* dg := dg_entry EF_SOD in
    let* data := rd_bytes file_contents (fieldlen + 1) datalen in
    Some (PM3_ESOFT, [Build_saved_file (dg_filename dg) ".p7b" data]).

(** The call [dg->dumper (response, resplen)]. *)
Definition run_dumper (d : emrtd_dumper) (file_contents : list Z) (file_length : Z)
    : option (pm3_status * list saved_file) :=
  match d with
  | emrtd_dump_ef_dg2_d => emrtd_dump_ef_dg2 file_contents file_length
  | emrtd_dump_ef_dg5_d => emrtd_dump_ef_dg5 file_contents file_length
  | emrtd_dump_ef_dg7_d => emrtd_dump_ef_dg7 file_contents file_length
  | emrtd_dump_ef_sod_d => emrtd_dump_ef_sod file_contents file_length
  end.

Section Client.
Context {prim : Primitives}.
Context {Card : Type} {trx : Transceiver Card}.

(** The transport call of [emrtd_exchange_commands]. *)
Definition transceive (cmd : list Z) (activate_field keep_field_on use_14b : bool)
    (card : Card) : Card * option (list Z) :=
  if use_14b then exchange_14b_apdu cmd activate_field keep_field_on 15000 card
  else ExchangeAPDU14a cmd activate_field keep_field_on card.

(** ** Plain selection *)

Definition emrtd_exchange_commands_noout (cmd : list Z)
    (activate_field keep_field_on use_14b : bool) (card : Card) : option (Card * bool) :=
  let* '(card, ok, _) := emrtd_exchange_commands cmd activate_field keep_field_on use_14b card in
  Some (card, ok).

(** [emrtd_select_file]: [cmd[50]] takes the command string, which
    [emrtd_exchange_commands] turns into bytes. *)
Definition emrtd_select_file (select_by file_id : string) (use_14b : bool) (card : Card)
    : option (Card * bool) :=
  let file_id_len := Z.of_nat (String.length file_id) / 2 in
  let cmd := "00" +:+ "A4" +:+ select_by +:+ "0C" +:+ hex2 file_id_len +:+ file_id in
  if decide (String.length cmd < 50)%nat then
    let* aCMD := param_gethex_to_eol cmd in
    emrtd_exchange_commands_noout aCMD false true use_14b card
  else None.

(** [emrtd_select_and_read]: result is the card, the counter, the
    return value and, where they were written, the bytes of the file. *)
Definition emrtd_select_and_read (file : string) (ks_enc ks_mac ssc : list Z)
    (use_secure use_14b : bool) (card : Card)
    : option (Card * list Z * bool * option (list Z)) :=
  let* '(card, ssc, ok) :=
    (if use_secure then emrtd_secure_select_file ks_enc ks_mac ssc "02" file use_14b card
     else
       let* '(card, ok) := emrtd_select_file "02" file use_14b card in
       Some (card, ssc, ok)) in
  if ok then emrtd_read_file ks_enc ks_mac ssc use_secure use_14b card
  else Some (card, ssc, false, None).

(** [emrtd_dump_file]: result is the card, the counter, the return
    value and the files saved, in order. *)
Definition emrtd_dump_file (ks_enc ks_mac ssc : list Z) (file name : string)
    (use_secure use_14b : bool) (card : Card)
    : option (Card * list Z * bool * list saved_file) :=
  let* '(card, ssc, ok, out) :=
    emrtd_select_and_read file ks_enc ks_mac ssc use_secure use_14b card in
  if ok then
    let* response := out in
    let resplen := zlen response in
    let saved := [Build_saved_file name ".BIN" response] in
    match emrtd_fileid_to_dg file with
    | Some dg =>
        match dg_dumper dg with
        | Some d =>
            let* '(_, more) := run_dumper d response resplen in
            Some (card, ssc, true, saved ++ more)
        | None => Some (card, ssc, true, saved)
        end
    | None => Some (card, ssc, true, saved)
    end
  else Some (card, ssc, false, []).

(** The loop of [dumpHF_EMRTD] over the tags of the file list: every
    tag the table knows, other than those of PACE and EAC files, has
    its file dumped; the results of the dumps are not looked at.  The
    result is the card, the counter and the files saved, in order. *)
Fixpoint dump_file_list (filelist : list Z) (ks_enc ks_mac ssc : list Z)
    (BAC use_14b : bool) (card : Card) : option (Card * list Z * list saved_file) :=
  match filelist with
  | [] => Some (card, ssc, [])
  | t :: rest =>
      match emrtd_tag_to_dg t with
      | None => dump_file_list rest ks_enc ks_mac ssc BAC use_14b card
      | Some dg =>
          if negb (dg_pace dg) && negb (dg_eac dg) then
            let* '(card, ssc, _, saved) :=
              emrtd_dump_file ks_enc ks_mac ssc (dg_fileid dg) (dg_filename dg)
                BAC use_14b card in
            let* '(card, ssc, more) :=
              dump_file_list rest ks_enc ks_mac ssc BAC use_14b card in
            Some (card, ssc, saved ++ more)
          else dump_file_list rest ks_enc ks_mac ssc BAC use_14b card
      end
  end.

(** ** The authentication decision *)

(** [emrtd_do_auth]: result is the card, the return value, the value
    stored to [BAC], if any, and the counter and session keys
    [emrtd_do_bac] wrote, if any.  The plain read hands [NULL] for keys
    and counter. *)
Definition emrtd_do_auth (documentnumber dob expiry : string) (BAC_available use_14b : bool)
    (card : Card)
    : option (Card * bool * option bool * option (list Z * list Z * list Z)) :=
  let* '(card, ok) := emrtd_select_file "04" "A0000002471001" use_14b card in
  if ok then
    let* ef_com := dg_entry EF_COM in
    let* '(card, ok) := emrtd_select_file "02" (dg_fileid ef_com) use_14b card in
    let* '(card, BAC) :=
      (if ok then
         let* ef_dg1 := dg_entry EF_DG1 in
         let* '(card, _) := emrtd_select_file "02" (dg_fileid ef_dg1) use_14b card in
         let* '(card, _, ok, _) := emrtd_read_file [] [] [] false use_14b card in
         Some (card, negb ok)
       else Some (card, true)) in
    if BAC then
      if BAC_available then
        let* '(card, ok, session) := emrtd_do_bac documentnumber dob expiry use_14b card in
        Some (card, ok, Some BAC, session)
      else Some (card, false, Some BAC, None)
    else Some (card, true, Some BAC, None)
  else Some (card, false, None, None).

End Client.

(** * Properties *)

(** ** Buffers *)

Lemma rd_bytes_Some (p : list Z) (off n : Z) :
  0 <= off -> 0 <= n -> off + n <= zlen p ->
  rd_bytes p off n = Some (take (Z.to_nat n) (drop (Z.to_nat off) p)).
Proof. intros. unfold rd_bytes, zlen in *. by rewrite decide_True. Qed.

Lemma rd_bytes_0 (p : list Z) (n : Z) :
  0 <= n <= zlen p -> rd_bytes p 0 n = Some (take (Z.to_nat n) p).
Proof. intros. rewrite rd_bytes_Some by lia. done. Qed.

Lemma rd_bytes_length (p q : list Z) (off n : Z) :
  rd_bytes p off n = Some q -> zlen q = n.
Proof.
  unfold rd_bytes, zlen. case_decide; [|done]. intros [= <-].
  rewrite length_take, length_drop. lia.
Qed.

Lemma rd_bytes_all (p : list Z) : rd_bytes p 0 (zlen p) = Some p.
Proof.
  unfold zlen. rewrite rd_bytes_0 by (unfold zlen; lia).
  by rewrite Nat2Z.id, firstn_all.
Qed.

(** Running a program of the option monad under the hypothesis that it
    is defined: each step names the value an operation yields. *)
Ltac head_of t :=
  lazymatch t with
  | ?f _ => head_of f
  | _ => t
  end.

Ltac ostep :=
  first
    [ progress (cbn [obind default from_option]; unfold id)
    | match goal with
      | |- context [obind ?m _] =>
          let h := head_of m in
          first [is_const h | is_var h];
          lazymatch m with
          | obind _ _ => fail
          | _ => idtac
          end;
          let E := fresh "E" in
          destruct m eqn:E; [|cbn [obind]; done];
          repeat match goal with y : (_ * _)%type |- _ => destruct y end
      | |- context [if decide ?P then _ else _] => destruct (decide P)
      | |- context [if ?b then _ else _] => is_var b; destruct b
      | |- context [match ?o with Some _ => _ | None => _ end] => is_var o; destruct o
      end ].

Ltac osteps := repeat ostep; try done.

(** A list of known length, element by element. *)
Ltac explode_list key Hlen :=
  repeat (destruct key as [|? key]; [cbn in Hlen; lia|]);
  destruct key; [|cbn in Hlen; lia].

(** Reads at constant positions. *)
Ltac rd_simpl :=
  repeat match goal with
  | |- context [rd ?l ?i] =>
      let n := eval vm_compute in (Z.to_nat i) in
      change (rd l i) with (l !! n)
  end;
  cbn [lookup list_lookup obind].


(** ** The SSC increment *)



(** C3.  On the all-ones counter the loop [for (i = 7; i > 0; i--)]
    clears bytes 7..1 and stops before byte 0, which keeps [0xFF]: the
    result is [FF 00 00 00 00 00 00 00], not the full wrap-around to
    zero of a big-endian increment.  On the zero counter the result is
    [00 00 00 00 00 00 00 01]. *)
Theorem emrtd_bump_ssc_all_ones :
  emrtd_bump_ssc [0xFF; 0xFF; 0xFF; 0xFF; 0xFF; 0xFF; 0xFF; 0xFF]
    = Some [0xFF; 0; 0; 0; 0; 0; 0; 0] /\
  emrtd_bump_ssc [0xFF; 0xFF; 0xFF; 0xFF; 0xFF; 0xFF; 0xFF; 0xFF]
    <> Some [0; 0; 0; 0; 0; 0; 0; 0] /\
  emrtd_bump_ssc [0; 0xFF; 0xFF; 0xFF; 0xFF; 0xFF; 0xFF; 0xFF]
    = Some [0; 0; 0; 0; 0; 0; 0; 0] /\
  emrtd_bump_ssc [0; 0; 0; 0; 0; 0; 0; 0] = Some [0; 0; 0; 0; 0; 0; 0; 1].
Proof. repeat split; vm_compute; congruence. Qed.

(** ** The MRZ check digit *)

Lemma char_code_range c : 0 <= char_code c < 256.
Proof.
  unfold char_code. pose proof (N_ascii_bounded c). lia.
Qed.

Lemma char_code_upcase c :
  97 <= char_code c <= 122 -> char_code (upcase c) = char_code c - 32.
Proof.
  intros H. unfold upcase. rewrite decide_True by done.
  unfold char_code at 1. rewrite N_ascii_embedding by lia. lia.
Qed.

Lemma mrz_weight_range (i : nat) : 1 <= mrz_weight !!! (i mod 3)%nat <= 7.
Proof.
  pose proof (Nat.mod_upper_bound i 3 ltac:(lia)) as H.
  destruct (i mod 3)%nat as [|[|[|k]]]; cbn; lia.
Qed.

Lemma schar_range c : -128 <= schar c < 128.
Proof. unfold schar. pose proof (char_code_range c). cbv zeta. case_decide; lia. Qed.

Lemma schar_mrz c : mrz_char c -> schar c = char_code c.
Proof. unfold mrz_char, schar. cbv zeta. intros H. rewrite decide_True by lia. done. Qed.

Lemma mrz_value_upcase c : mrz_value (char_code (upcase c)) = mrz_value (char_code c).
Proof.
  destruct (decide (97 <= char_code c <= 122)) as [H|H].
  - rewrite char_code_upcase by done. unfold mrz_value.
    repeat case_decide; lia.
  - unfold upcase. by rewrite decide_False.
Qed.

Lemma schar_upcase c : mrz_value (schar (upcase c)) = mrz_value (schar c).
Proof.
  destruct (decide (97 <= char_code c <= 122)) as [H|H].
  - unfold schar. cbv zeta. rewrite char_code_upcase by done.
    rewrite !decide_True by lia. rewrite <- (char_code_upcase c) by done.
    apply mrz_value_upcase.
  - unfold upcase. by rewrite decide_False.
Qed.

(** On the MRZ alphabet the value the code assigns is the value of the
    specification. *)
Lemma mrz_value_spec c : mrz_char c -> mrz_value (schar c) = mrz_char_value c.
Proof.
  intros H. rewrite schar_mrz by done. revert H.
  unfold mrz_char, mrz_value, mrz_char_value. cbv zeta. intros H.
  repeat case_decide; lia.
Qed.

Lemma mrz_weight_spec (i : nat) : mrz_weight !!! (i mod 3)%nat = mrz_position_weight i.
Proof.
  unfold mrz_position_weight.
  pose proof (Nat.mod_upper_bound i 3 ltac:(lia)) as H.
  destruct (i mod 3)%nat as [|[|[|k]]]; cbn; first [done | lia].
Qed.

Lemma mrz_char_value_range c : 0 <= mrz_char_value c <= 35.
Proof. unfold mrz_char_value. cbv zeta. repeat case_decide; lia. Qed.

Lemma mrz_weighted_sum_nonneg s : forall i, 0 <= mrz_weighted_sum i s.
Proof.
  induction s as [|c rest IH]; intros i; cbn [mrz_weighted_sum]; [done|].
  pose proof (mrz_char_value_range c). pose proof (mrz_weight_range i) as Hw.
  rewrite mrz_weight_spec in Hw. specialize (IH (S i)).
  assert (0 <= mrz_char_value c * mrz_position_weight i) by (apply Z.mul_nonneg_nonneg; lia).
  lia.
Qed.

(** The loop adds up the weighted sum of the specification. *)
Lemma check_digit_loop_spec data : forall i cd,
  str_forall mrz_char data ->
  check_digit_loop data i cd = cd + mrz_weighted_sum i data.
Proof.
  induction data as [|c rest IH]; intros i cd Hall; cbn [check_digit_loop mrz_weighted_sum]; [lia|].
  destruct Hall as [Hc Hrest]. rewrite IH by done.
  rewrite mrz_value_spec, mrz_weight_spec by done. lia.
Qed.

(** The sum stays inside the [int] range, whatever the characters are,
    on every string of fewer than a million characters. *)
Lemma check_digit_loop_int data : forall i cd,
  cd - 1232 * Z.of_nat (String.length data)
    <= check_digit_loop data i cd
    <= cd + 553 * Z.of_nat (String.length data).
Proof.
  induction data as [|c rest IH]; intros i cd; cbn [check_digit_loop String.length]; [lia|].
  specialize (IH (S i) (cd + mrz_value (schar c) * mrz_weight !!! (i mod 3)%nat)).
  pose proof (schar_range c) as Hc. pose proof (mrz_weight_range i) as Hw.
  assert (Hv : -176 <= mrz_value (schar c) <= 79).
  { unfold mrz_value. repeat case_decide; lia. }
  revert IH Hv Hw. generalize (mrz_value (schar c)) (mrz_weight !!! (i mod 3)%nat).
  intros v w IH Hv Hw. rewrite Nat2Z.inj_succ. nia.
Qed.

Lemma check_digit_loop_upcase data : forall i cd,
  check_digit_loop (str_map upcase data) i cd = check_digit_loop data i cd.
Proof.
  induction data as [|c rest IH]; intros i cd; cbn [check_digit_loop str_map]; [done|].
  by rewrite schar_upcase, IH.
Qed.

Lemma c_str_mrz data : str_forall mrz_char data -> c_str data = data.
Proof.
  induction data as [|c rest IH]; cbn; [done|]. intros [Hc Hrest].
  rewrite decide_False by (unfold mrz_char in Hc; cbn in Hc; lia).
  by rewrite IH.
Qed.

Lemma str_take_length data : str_take (String.length data) data = data.
Proof. induction data as [|c rest IH]; cbn; [done|]. by rewrite IH. Qed.

Lemma emrtd_calculate_check_digit_spec (data : string) :
  str_forall mrz_char data ->
  emrtd_calculate_check_digit data = mrz_check_digit data /\
  0 <= emrtd_calculate_check_digit data <= 9.
Proof.
  intros Hall. unfold emrtd_calculate_check_digit, mrz_check_digit.
  rewrite check_digit_loop_spec by done.
  pose proof (mrz_weighted_sum_nonneg data 0%nat).
  rewrite Z.rem_mod_nonneg by lia. split; [done|]. cbn [Z.add]. lia.
Qed.

(** The comparison with a [char] is one of character codes as long as
    the number compared is below 128. *)
Lemma schar_compare (a : Z) (c : ascii) :
  0 <= a < 128 -> bool_decide (a = schar c) = bool_decide (a = char_code c).
Proof.
  intros Ha. apply bool_decide_ext. unfold schar. cbv zeta.
  pose proof (char_code_range c). case_decide; lia.
Qed.

(** C10.  On a string over the MRZ alphabet the function yields the
    check digit of ICAO 9303 as a number: the sum of the character
    values (a digit its value, a letter 10 to 35 whatever its case, the
    filler 0) under the weights 7, 3, 1, modulo 10.  The result is
    0..9, hence never the code of an ASCII digit; the comparison
    routine adds [0x30] before it compares with an MRZ character; a
    lower-case letter has the value 10..35 of its upper-case letter, so
    the digit of a string is that of its upper-case form.  The sum the
    loop keeps in an [int] stays in range up to a million
    characters. *)
Theorem emrtd_calculate_check_digit_numeric (data : string) :
  str_forall mrz_char data ->
  emrtd_calculate_check_digit data = mrz_check_digit data /\
  0 <= emrtd_calculate_check_digit data <= 9 /\
  (forall c : ascii, 48 <= char_code c <= 57 ->
     emrtd_calculate_check_digit data <> char_code c) /\
  (forall expected : ascii, Z.of_nat (String.length data) < 90 ->
     emrtd_compare_check_digit data (Z.of_nat (String.length data)) expected
       = Some (bool_decide (emrtd_calculate_check_digit data + 0x30 = char_code expected))) /\
  (forall c : ascii, 97 <= char_code c <= 122 ->
     mrz_value (schar c) = mrz_value (schar (upcase c)) /\
     mrz_value (schar c) = 10 + (char_code c - 97) /\
     10 <= mrz_value (schar c) <= 35 /\
     emrtd_calculate_check_digit (String c EmptyString) = (7 * (10 + (char_code c - 97))) mod 10 /\
     emrtd_calculate_check_digit (String (upcase c) EmptyString)
       = emrtd_calculate_check_digit (String c EmptyString)) /\
  emrtd_calculate_check_digit (str_map upcase data) = emrtd_calculate_check_digit data /\
  (Z.of_nat (String.length data) < 1000000 ->
     0 <= check_digit_loop data 0 0 < 2 ^ 31).
Proof.
  intros Hall.
  destruct (emrtd_calculate_check_digit_spec data Hall) as [Hspec Hr].
  split; [done|]. split; [done|]. split; [intros c Hc; lia|]. split; [|split; [|split]].
  - intros expected Hlen. unfold emrtd_compare_check_digit.
    rewrite decide_True by lia. rewrite Nat2Z.id, str_take_length, c_str_mrz by done.
    f_equal. unfold u8. rewrite Z.mod_small by lia. apply schar_compare. lia.
  - intros c Hc.
    assert (Hm : mrz_char c) by (unfold mrz_char; cbv zeta; lia).
    assert (Hv : mrz_value (schar c) = 10 + (char_code c - 97)).
    { rewrite schar_mrz by done. unfold mrz_value. repeat case_decide; lia. }
    split; [by rewrite schar_upcase|]. split; [done|]. split; [lia|]. split.
    + unfold emrtd_calculate_check_digit. cbn [check_digit_loop]. rewrite Hv.
      change (mrz_weight !!! (0 mod 3)%nat) with 7.
      rewrite Z.rem_mod_nonneg by lia. f_equal. lia.
    + change (String (upcase c) EmptyString) with (str_map upcase (String c EmptyString)).
      unfold emrtd_calculate_check_digit. by rewrite check_digit_loop_upcase.
  - unfold emrtd_calculate_check_digit. by rewrite check_digit_loop_upcase.
  - intros Hlen. pose proof (check_digit_loop_int data 0%nat 0) as Hint.
    rewrite check_digit_loop_spec in * by done.
    pose proof (mrz_weighted_sum_nonneg data 0%nat). lia.
Qed.

(** ** The ASN.1 length decoder *)

Lemma lor_shiftl_u8 (a b : Z) :
  0 <= a -> is_u8 b -> Z.lor (Z.shiftl a 8) b = a * 256 + b.
Proof.
  intros Ha [Hb0 Hb1].
  rewrite Z.shiftl_mul_pow2 by lia. change (2 ^ 8) with 256.
  rewrite <- Z.lxor_lor, <- Z.add_nocarry_lxor; [done| |].
  all: apply Z.bits_inj'; intros n Hn; rewrite Z.land_spec, Z.bits_0.
  all: destruct (decide (n < 8)) as [Hlt|Hge].
  all: try (change 256 with (2 ^ 8); rewrite Z.mul_pow2_bits_low by lia; done).
  all: rewrite (Z.bits_above_log2 b n), andb_false_r; [done|lia|].
  all: destruct (decide (b = 0)) as [->|Hb]; [cbn; lia|].
  all: apply Z.log2_lt_pow2; [lia|].
  all: apply Z.lt_le_trans with (2 ^ 8); [cbn; lia|].
  all: apply Z.pow_le_mono_r; lia.
Qed.

Lemma rd_is_u8 (p : list Z) (i b : Z) : Forall is_u8 p -> rd p i = Some b -> is_u8 b.
Proof.
  unfold rd. intros Hall H. case_decide; [|done].
  rewrite Forall_lookup in Hall. eauto.
Qed.

Lemma sprint_hex_inrow_Some (data : list Z) (len : Z) :
  0 <= len <= zlen data -> exists s, sprint_hex_inrow data len = Some s.
Proof.
  intros H. unfold sprint_hex_inrow. rewrite rd_bytes_0 by done. cbn [obind]. eauto.
Qed.

Lemma sprint_hex_inrow_None (data : list Z) (len : Z) :
  ~ (0 <= len <= zlen data) -> sprint_hex_inrow data len = None.
Proof.
  intros H. unfold sprint_hex_inrow, rd_bytes, zlen in *. rewrite decide_False by lia. done.
Qed.

Lemma sprint_hex_inrow_inv (data : list Z) (len : Z) (s : string) :
  sprint_hex_inrow data len = Some s -> 0 <= len <= zlen data.
Proof.
  intros H. destruct (decide (0 <= len <= zlen data)); [done|].
  rewrite sprint_hex_inrow_None in H by done. done.
Qed.

(** With the bytes for the log readable, the decoders are their [if]
    chains. *)
Lemma emrtd_get_asn1_data_length_eq (datain : list Z) (datainlen offset : Z) :
  0 <= datainlen <= zlen datain ->
  emrtd_get_asn1_data_length datain datainlen offset
    = asn1_data_length_of datain datainlen offset.
Proof.
  intros H. unfold emrtd_get_asn1_data_length.
  destruct (sprint_hex_inrow_Some datain datainlen H) as [s ->]. done.
Qed.

Lemma emrtd_get_asn1_field_length_eq (datain : list Z) (datainlen offset : Z) :
  0 <= datainlen <= zlen datain ->
  emrtd_get_asn1_field_length datain datainlen offset = asn1_field_length_of datain offset.
Proof.
  intros H. unfold emrtd_get_asn1_field_length.
  destruct (sprint_hex_inrow_Some datain datainlen H) as [s ->]. done.
Qed.

Lemma emrtd_get_asn1_field_length_inv (datain : list Z) (datainlen offset r : Z) :
  emrtd_get_asn1_field_length datain datainlen offset = Some r ->
  0 <= datainlen <= zlen datain /\ asn1_field_length_of datain offset = Some r.
Proof.
  unfold emrtd_get_asn1_field_length.
  destruct (sprint_hex_inrow datain datainlen) as [s|] eqn:Hs; cbn [obind]; [|done].
  intros H. split; [by eapply sprint_hex_inrow_inv|done].
Qed.

(** C6.  On a buffer of which [datainlen] bytes can be read, the
    decoder returns the length byte itself up to [0x7F], the next one,
    two or three bytes read big-endian for [0x81], [0x82] and [0x83],
    and the sentinel [false] (0) from [0x84] on.  For the length byte
    [0x80] it returns [datainlen], the size of the whole buffer it was
    handed: that is never what remains of the buffer behind the length
    byte, which it exceeds by [offset + 1]. *)
Theorem emrtd_get_asn1_data_length_decodes (datain : list Z) (datainlen offset lenfield : Z) :
  Forall is_u8 datain ->
  0 <= datainlen <= zlen datain ->
  rd datain offset = Some lenfield ->
  (lenfield <= 0x7F ->
     emrtd_get_asn1_data_length datain datainlen offset = Some lenfield) /\
  (lenfield = 0x80 ->
     emrtd_get_asn1_data_length datain datainlen offset = Some datainlen /\
     datainlen = remaining_size datainlen offset + (offset + 1) /\
     emrtd_get_asn1_data_length datain datainlen offset
       <> Some (remaining_size datainlen offset)) /\
  (lenfield = 0x81 -> forall b1,
     rd datain (offset + 1) = Some b1 ->
     emrtd_get_asn1_data_length datain datainlen offset = Some (be_val [b1])) /\
  (lenfield = 0x82 -> forall b1 b2,
     rd datain (offset + 1) = Some b1 -> rd datain (offset + 2) = Some b2 ->
     emrtd_get_asn1_data_length datain datainlen offset = Some (be_val [b1; b2])) /\
  (lenfield = 0x83 -> forall b1 b2 b3,
     rd datain (offset + 1) = Some b1 -> rd datain (offset + 2) = Some b2 ->
     rd datain (offset + 3) = Some b3 ->
     emrtd_get_asn1_data_length datain datainlen offset = Some (be_val [b1; b2; b3])) /\
  (0x84 <= lenfield ->
     emrtd_get_asn1_data_length datain datainlen offset = Some 0) /\
  emrtd_get_asn1_data_length [0x7F] 1 0 = Some 127 /\
  emrtd_get_asn1_data_length [0x81; 0x90] 2 0 = Some 144 /\
  emrtd_get_asn1_data_length [0x82; 0x01; 0x00] 3 0 = Some 256 /\
  emrtd_get_asn1_data_length [0x30; 0x80; 0xAA; 0xBB] 4 1 = Some 4 /\
  remaining_size 4 1 = 2.
Proof.
  intros Hall Hlen Hrd.
  assert (Hoff : 0 <= offset).
  { unfold rd in Hrd. by case_decide. }
  rewrite emrtd_get_asn1_data_length_eq by done.
  unfold asn1_data_length_of. rewrite Hrd. cbn [obind].
  split; [intros H; by rewrite decide_True|].
  split.
  { intros ->. cbn. unfold remaining_size. split; [done|]. split; [lia|]. intros [= H]. lia. }
  split.
  { intros -> b1 H1. cbn. rewrite H1. unfold be_val; cbn. done. }
  split.
  { intros -> b1 b2 H1 H2. cbn. rewrite H1, H2. cbn. f_equal.
    pose proof (rd_is_u8 _ _ _ Hall H1) as [? ?].
    rewrite lor_shiftl_u8 by eauto using rd_is_u8. unfold be_val; cbn. lia. }
  split.
  { intros -> b1 b2 b3 H1 H2 H3. cbn. rewrite H1, H2, H3. cbn. f_equal.
    pose proof (rd_is_u8 _ _ _ Hall H1) as [? ?].
    pose proof (rd_is_u8 _ _ _ Hall H2) as [? ?].
    change 16 with (8 + 8). rewrite <- Z.shiftl_shiftl, <- Z.shiftl_lor by lia.
    rewrite (lor_shiftl_u8 b1 b2) by (unfold is_u8; lia).
    rewrite lor_shiftl_u8 by (eauto using rd_is_u8; lia). unfold be_val; cbn. lia. }
  split.
  { intros H. repeat (rewrite decide_False by lia). done. }
  repeat split; reflexivity.
Qed.

Lemma emrtd_get_asn1_data_length_decodes_witness :
  emrtd_get_asn1_data_length [0x30; 0x83; 0x01; 0x02; 0x03] 5 1 = Some 0x010203 /\
  emrtd_get_asn1_data_length [0x30; 0x80; 0xAA; 0xBB] 4 1 = Some 4 /\
  emrtd_get_asn1_data_length [0x30; 0x80; 0xAA; 0xBB] 4 1 <> Some (remaining_size 4 1).
Proof.
  assert (Hall : Forall is_u8 [0x30; 0x83; 0x01; 0x02; 0x03]).
  { repeat (apply Forall_cons; split; [unfold is_u8; lia|]). apply Forall_nil; done. }
  assert (Hall' : Forall is_u8 [0x30; 0x80; 0xAA; 0xBB]).
  { repeat (apply Forall_cons; split; [unfold is_u8; lia|]). apply Forall_nil; done. }
  pose proof (emrtd_get_asn1_data_length_decodes
                [0x30; 0x83; 0x01; 0x02; 0x03] 5 1 0x83 Hall
                ltac:(vm_compute; split; congruence) eq_refl) as H.
  pose proof (emrtd_get_asn1_data_length_decodes
                [0x30; 0x80; 0xAA; 0xBB] 4 1 0x80 Hall'
                ltac:(vm_compute; split; congruence) eq_refl) as H'.
  destruct H as (_ & _ & _ & _ & H & _).
  destruct H' as (_ & H' & _).
  destruct (H' eq_refl) as (H1 & _ & H2).
  split; [exact (H eq_refl 1 2 3 eq_refl eq_refl eq_refl)|].
  split; [exact H1|exact H2].
Defined.

Section Properties.
Context {prim : Primitives}.
Context {Card : Type} {trx : Transceiver Card}.

(** ** Retail MAC *)

Lemma pad_block_iso9797 (input : list Z) (inputlen : Z) :
  0 <= inputlen <= zlen input ->
  pad_block input inputlen = Some (iso9797_pad2 (take (Z.to_nat inputlen) input)).
Proof.
  intros Hlen. unfold pad_block. rewrite rd_bytes_0 by done. cbn [obind].
  unfold iso9797_pad2. do 2 f_equal.
  rewrite length_take, Nat.min_l by (unfold zlen in Hlen; lia).
  rewrite Z.rem_mod_nonneg by lia.
  assert (Hm : (Z.to_nat inputlen mod 8)%nat = Z.to_nat (inputlen mod 8)).
  { change 8%nat with (Z.to_nat 8). rewrite <- Z2Nat.inj_mod by lia. done. }
  rewrite Hm.
  assert (Hr : 0 <= inputlen mod 8 < 8) by lia.
  revert Hr. generalize (inputlen mod 8). intros r Hr.
  assert (Hc : r = 0 \/ r = 1 \/ r = 2 \/ r = 3 \/ r = 4 \/ r = 5 \/ r = 6 \/ r = 7) by lia.
  destruct Hc as [->|[->|[->|[->|[->|[->|[->| ->]]]]]]]; reflexivity.
Qed.

Lemma iso9797_pad2_length (msg : list Z) :
  length (iso9797_pad2 msg) = (8 * (length msg / 8 + 1))%nat.
Proof.
  unfold iso9797_pad2. rewrite !length_app, length_replicate. cbn [length].
  pose proof (Nat.div_mod_eq (length msg) 8).
  pose proof (Nat.mod_upper_bound (length msg) 8). lia.
Qed.

Lemma retail_mac_chain_blocks (k0 message : list Z) (n : nat) : forall (i : nat) c,
  retail_mac_chain k0 message n (Z.of_nat i) c
    = fold_left (fun c b => des_encrypt_ecb k0 (xor_bytes c b))
        (blocks8 n (drop (8 * i) message)) c.
Proof.
  induction n as [|n IH]; intros i c; cbn [retail_mac_chain blocks8 fold_left]; [done|].
  replace (Z.of_nat i + 1) with (Z.of_nat (S i)) by lia.
  rewrite IH. replace (Z.to_nat (Z.of_nat i * 8)) with (8 * i)%nat by lia.
  rewrite drop_drop. do 2 f_equal. f_equal. lia.
Qed.

(** C4.  [retail_mac] is ISO 9797-1 MAC algorithm 3 on every message
    that fits its 256-byte [message] array: padding method 2, always
    added (a block-aligned message grows by a full block), CBC chaining
    with single DES under [K0] from the zero block, then DES decryption
    under [K1] and DES encryption under [K0]; the result is the 8-byte
    block the last encryption yields. *)
Theorem retail_mac_is_iso9797_alg3 (key input : list Z) (inputlen : Z) :
  16 <= zlen key ->
  0 <= inputlen <= zlen input ->
  inputlen < 256 ->
  (forall k x, length (des_encrypt_ecb k x) = 8%nat) ->
  let msg := take (Z.to_nat inputlen) input in
  retail_mac key input inputlen = Some (retail_mac_iso9797 key msg) /\
  length (retail_mac_iso9797 key msg) = 8%nat /\
  length (iso9797_pad2 msg) = (8 * (length msg / 8 + 1))%nat /\
  (length msg < length (iso9797_pad2 msg))%nat.
Proof.
  intros Hkey Hlen Hmax Hblock msg.
  assert (Hmsg : length msg = Z.to_nat inputlen).
  { unfold msg. rewrite length_take. unfold zlen in Hlen. lia. }
  split; [|split; [|split]].
  - unfold retail_mac.
    rewrite !rd_bytes_Some by lia. cbn [obind].
    rewrite pad_block_iso9797 by done. cbn [obind]. fold msg.
    assert (Hfit : zlen (iso9797_pad2 msg) <= 256).
    { unfold zlen. pose proof (iso9797_pad2_length msg) as Hp. rewrite Hmsg in Hp.
      pose proof (Nat.div_mod_eq (Z.to_nat inputlen) 8).
      pose proof (Nat.mod_upper_bound (Z.to_nat inputlen) 8). lia. }
    rewrite decide_True by done.
    f_equal. unfold retail_mac_iso9797, des_cbc_chain.
    change (Z.to_nat 0) with 0%nat. rewrite drop_0.
    change 0 with (Z.of_nat 0). rewrite retail_mac_chain_blocks.
    rewrite Nat.mul_0_r, drop_0.
    replace (Z.to_nat (zlen (iso9797_pad2 msg) / 8)) with (length (iso9797_pad2 msg) / 8)%nat.
    2:{ unfold zlen. rewrite <- (Nat2Z.id (length (iso9797_pad2 msg) / 8)).
        f_equal. rewrite Nat2Z.inj_div. done. }
    done.
  - apply Hblock.
  - apply iso9797_pad2_length.
  - rewrite iso9797_pad2_length.
    pose proof (Nat.div_mod_eq (length msg) 8).
    pose proof (Nat.mod_upper_bound (length msg) 8). lia.
Qed.

(** ** Key derivation *)


Lemma odd_parity_spec (b : Z) :
  is_u8 b ->
  is_u8 (odd_parity b) /\ Z.odd (popcount8 (odd_parity b)) = true /\
  odd_parity b / 2 = b / 2.
Proof.
  intros Hb.
  assert (Hall : Forall (fun b => odd_parity_ok b = true) (seqZ 0 256)).
  { apply (bool_decide_unpack _). vm_compute. exact I. }
  rewrite Forall_forall in Hall.
  specialize (Hall b). unfold is_u8 in *.
  assert (Hin : b ∈ seqZ 0 256) by (apply elem_of_seqZ; lia).
  apply Hall in Hin. unfold odd_parity_ok in Hin.
  apply andb_prop in Hin as [Hin H3]. apply andb_prop in Hin as [H1 H2].
  apply bool_decide_eq_true in H1, H3. done.
Qed.


Lemma deskey_parity_digest (key : list Z) :
  length key = 20%nat ->
  (let* _ := sprint_hex_inrow key 20 in
   let* k := deskey_parity 2 0 key in
   let* _ := sprint_hex_inrow k 20 in
   rd_bytes k 0 16)
    = Some (odd_parity <$> take 16 key).
Proof.
  intros Hlen. explode_list key Hlen. reflexivity.
Qed.

Lemma emrtd_deskey_16 (seed type : list Z) :
  16 <= zlen seed -> length type = 4%nat ->
  (forall x, length (sha1hash x) = 20%nat) ->
  emrtd_deskey seed type 16
    = Some (odd_parity <$> take 16 (sha1hash (take 16 seed ++ type))).
Proof.
  intros Hseed Htype Hsha. unfold emrtd_deskey.
  destruct (sprint_hex_inrow_Some seed 16 ltac:(lia)) as [s ->]. cbn [obind].
  rewrite rd_bytes_0 by lia. cbn [obind].
  replace 4 with (zlen type) by (unfold zlen; lia). rewrite rd_bytes_all. cbn [obind].
  rewrite decide_True by (unfold zlen; lia).
  replace (16 + zlen type) with 20 by (unfold zlen; lia).
  change (Z.to_nat (20 / 8)) with 2%nat.
  apply deskey_parity_digest, Hsha.
Qed.

(** C5.  For a 16-byte seed the encryption key is the first 16 bytes
    of SHA-1 (seed || 00000001), each byte forced to odd parity, the
    MAC key the same with 00000002; the keys are a function of the 16
    seed bytes alone, so deriving again from the same MRZ fields gives
    the same 16-byte keys. *)
Theorem emrtd_deskey_derivation (seed : list Z) :
  16 <= zlen seed ->
  (forall x, length (sha1hash x) = 20%nat) ->
  emrtd_deskey seed KENC_type 16
    = Some (odd_parity <$> take 16 (sha1hash (take 16 seed ++ [0x00; 0x00; 0x00; 0x01]))) /\
  emrtd_deskey seed KMAC_type 16
    = Some (odd_parity <$> take 16 (sha1hash (take 16 seed ++ [0x00; 0x00; 0x00; 0x02]))) /\
  (forall type key, length type = 4%nat ->
     emrtd_deskey seed type 16 = Some key -> length key = 16%nat) /\
  (forall b, is_u8 b ->
     is_u8 (odd_parity b) /\ Z.odd (popcount8 (odd_parity b)) = true /\
     odd_parity b / 2 = b / 2) /\
  (forall seed' type, 16 <= zlen seed' -> length type = 4%nat ->
     take 16 seed' = take 16 seed ->
     emrtd_deskey seed' type 16 = emrtd_deskey seed type 16) /\
  (forall documentnumber dob expiry keys keys',
     bac_static_keys documentnumber dob expiry = Some keys ->
     bac_static_keys documentnumber dob expiry = Some keys' ->
     keys = keys').
Proof.
  intros Hseed Hsha. repeat split.
  - by apply emrtd_deskey_16.
  - by apply emrtd_deskey_16.
  - intros type key Htype. rewrite emrtd_deskey_16 by done. intros [= <-].
    rewrite length_fmap, length_take, Hsha. done.
  - by apply odd_parity_spec.
  - by apply odd_parity_spec.
  - by apply odd_parity_spec.
  - by apply odd_parity_spec.
  - intros seed' type Hseed' Htype Heq. rewrite !emrtd_deskey_16 by done. by rewrite Heq.
  - intros documentnumber dob expiry keys keys' H1 H2. congruence.
Qed.

(** ** Secure messaging *)

Lemma bump_ssc_loop_length (n : nat) : forall ssc ssc',
  bump_ssc_loop n ssc = Some ssc' -> length ssc' = length ssc.
Proof.
  induction n as [|n IH]; intros ssc ssc'; cbn [bump_ssc_loop].
  - by intros [= <-].
  - destruct (ssc !! S n) as [b|]; cbn; [|done].
    case_decide.
    + intros Hb. apply IH in Hb. by rewrite length_insert in Hb.
    + intros [= <-]. by rewrite length_insert.
Qed.

Lemma emrtd_bump_ssc_length (ssc ssc' : list Z) :
  emrtd_bump_ssc ssc = Some ssc' -> length ssc' = length ssc.
Proof. apply bump_ssc_loop_length. Qed.


Lemma rd_bytes_whole (p : list Z) (n : Z) :
  zlen p = n -> rd_bytes p 0 n = Some p.
Proof. intros <-. apply rd_bytes_all. Qed.

Lemma zlen_app (p q : list Z) : zlen (p ++ q) = zlen p + zlen q.
Proof. unfold zlen. rewrite length_app. lia. Qed.

(** The checksum test, stated on [responseData]. *)
Lemma emrtd_check_cc_spec (ssc ssc' key rapdu : list Z) (rapdulength : Z) :
  length ssc = 8%nat ->
  emrtd_bump_ssc ssc = Some ssc' ->
  emrtd_check_cc ssc key rapdu rapdulength =
    (let* cc := response_cc ssc' key rapdu in
     let* tail := rd_bytes rapdu (rapdulength - 8) 8 in
     Some (ssc', bool_decide (cc = tail))).
Proof.
  intros Hlen Hb. unfold emrtd_check_cc. rewrite Hb. cbn [obind].
  assert (Hlen' : zlen ssc' = 8).
  { apply emrtd_bump_ssc_length in Hb. unfold zlen. lia. }
  rewrite (rd_bytes_whole ssc' 8) by done. cbn [obind].
  unfold response_cc, response_data, front_field.
  destruct (rd rapdu 0) as [r0|] eqn:Hr0; cbn [obind]; [|done].
  destruct (decide (r0 = 135)) as [->|Hne]; cbn [obind].
  - change (0 + 1) with 1.
    destruct (rd rapdu 1) as [r1|]; cbn [obind]; [|done].
    destruct (rd_bytes rapdu 0 (2 + r1)) as [f|] eqn:Hf; cbn [obind]; [|done].
    rewrite (rd_bytes_length _ _ _ _ Hf).
    destruct (rd rapdu (2 + r1)) as [r|]; cbn [obind]; [|done].
    destruct (decide (r = 153)) as [->|Hr]; cbn [obind].
    + destruct (rd rapdu (2 + r1 + 1)) as [r2|]; cbn [obind]; [|done].
      destruct (rd_bytes rapdu (2 + r1) (2 + r2)) as [g|] eqn:Hg; cbn [obind]; [|done].
      rewrite zlen_app, (rd_bytes_length _ _ _ _ Hf), (rd_bytes_length _ _ _ _ Hg).
      rewrite <- app_assoc.
      destruct (decide (2 + r1 + (2 + r2) + 8 <= 500)); [|done].
      by destruct (retail_mac _ _ _).
    + rewrite app_nil_r, (rd_bytes_length _ _ _ _ Hf).
      replace (2 + r1 + 0 + 8) with (2 + r1 + 8) by lia.
      destruct (decide (2 + r1 + 8 <= 500)); [|done].
      by destruct (retail_mac _ _ _).
  - change (zlen []) with 0. rewrite Hr0. cbn [obind].
    destruct (decide (r0 = 153)) as [->|Hr]; cbn [obind].
    + change (0 + 1) with 1.
      destruct (rd rapdu 1) as [r2|]; cbn [obind]; [|done].
      destruct (rd_bytes rapdu 0 (2 + r2)) as [g|] eqn:Hg; cbn [obind]; [|done].
      cbn [app]. rewrite (rd_bytes_length _ _ _ _ Hg).
      replace (0 + (2 + r2) + 8) with (2 + r2 + 8) by lia.
      destruct (decide (2 + r2 + 8 <= 500)); [|done].
      by destruct (retail_mac _ _ _).
    + cbn [app]. rewrite app_nil_r. change (zlen []) with 0.
      change (0 + 0 + 8) with (0 + 8).
      destruct (decide (0 + 8 <= 500)); [|done].
      by destruct (retail_mac _ _ _).
Qed.

Lemma offset_bytes (offset : Z) :
  0 <= offset < 0x10000 ->
  u8 (Z.shiftr offset 8) = offset / 256 /\ u8 (Z.shiftr offset 0) = offset mod 256.
Proof.
  intros Hoff. unfold u8. rewrite Z.shiftr_div_pow2 by lia.
  rewrite Z.shiftr_0_r. change (2 ^ 8) with 256. split; [|done].
  apply Z.mod_small. lia.
Qed.

(** [_emrtd_secure_read_binary] in terms of the command it sends. *)
Lemma secure_read_binary_spec (kmac ssc ssc1 : list Z) (offset n : Z) (use_14b : bool)
    (card : Card) :
  20 <= zlen kmac ->
  length ssc = 8%nat ->
  emrtd_bump_ssc ssc = Some ssc1 ->
  0 <= offset < 0x10000 ->
  _emrtd_secure_read_binary kmac ssc offset n use_14b card =
    (let* cmd := secure_read_apdu kmac ssc1 offset n in
     let* '(card', ok0, out) := emrtd_exchange_commands cmd false true use_14b card in
     if ok0 then
       match out with
       | Some response =>
           let* '(ssc2, ok) := emrtd_check_cc ssc1 kmac response (zlen response) in
           Some (card', ssc2, ok, out)
       | None => None
       end
     else Some (card', ssc1, false, out)).
Proof.
  intros Hkmac Hlen Hb Hoff. unfold _emrtd_secure_read_binary, secure_read_apdu.
  destruct (sprint_hex_inrow_Some kmac 20 ltac:(lia)) as [logged ->]. cbn [obind].
  rewrite decide_True by done.
  destruct (offset_bytes offset Hoff) as [-> ->].
  unfold pad_block. rewrite rd_bytes_0 by (unfold zlen; cbn; lia). cbn [obind].
  change (Z.to_nat (8 - Z.rem 4 8)) with 4%nat. change (Z.to_nat 4) with 4%nat.
  cbn [take app].
  rewrite rd_bytes_whole by done. cbn [obind].
  rewrite Hb. cbn [obind].
  assert (Hlen1 : zlen ssc1 = 8).
  { apply emrtd_bump_ssc_length in Hb. unfold zlen. lia. }
  rewrite (rd_bytes_whole ssc1 8) by done. cbn [obind].
  change (iso9797_pad2 [12; 176; offset / 256; offset mod 256])
    with [12; 176; offset / 256; offset mod 256; 128; 0; 0; 0].
  cbn [app].
  destruct (retail_mac kmac _ 19) as [cc|]; cbn [obind]; [|done].
  destruct (rd_bytes cc 0 8) as [cc8|]; cbn [obind]; [|done].
  done.
Qed.









End Properties.

Section FileRead.
Context {prim : Primitives}.
Context {Card : Type} {trx : Transceiver Card}.

(** ** Reading a file *)

Lemma exchange_recorded (cmd : list Z) (a k u : bool) (card card' : Card)
    (log log' : list (list Z)) ok out :
  emrtd_exchange_commands (trx := recording trx) cmd a k u (card, log)
    = Some ((card', log'), ok, out) ->
  log' = log ++ [cmd].
Proof.
  unfold emrtd_exchange_commands. cbn [recording ExchangeAPDU14a exchange_14b_apdu fst snd].
  destruct u.
  - destruct (exchange_14b_apdu cmd a k 15000 card) as [c [response|]].
    + case_decide; [by intros [= <- <- _ _]|].
      destruct (get_sw response (zlen response)); cbn [obind]; [|done].
      case_decide; by intros [= <- <- _ _].
    + by intros [= <- <- _ _].
  - destruct (ExchangeAPDU14a cmd a k card) as [c [response|]].
    + case_decide; [by intros [= <- <- _ _]|].
      destruct (get_sw response (zlen response)); cbn [obind]; [|done].
      case_decide; by intros [= <- <- _ _].
    + by intros [= <- <- _ _].
Qed.

Lemma offset_split (offset : Z) : offset / 256 * 256 + offset mod 256 = offset.
Proof. lia. Qed.

Lemma emrtd_check_cc_length (ssc ssc' key rapdu : list Z) (rapdulength : Z) (ok : bool) :
  emrtd_check_cc ssc key rapdu rapdulength = Some (ssc', ok) -> length ssc' = length ssc.
Proof.
  unfold emrtd_check_cc. osteps; intros [= <- _]; by eapply emrtd_bump_ssc_length.
Qed.

(** One chunk is one READ BINARY exchange, asking for [toread] bytes at
    [offset]. *)
Lemma read_file_chunk_recorded (kenc kmac ssc ssc' data : list Z) (use_secure use_14b : bool)
    (offset toread capacity : Z) (card card' : Card) (log log' : list (list Z)) ok :
  length ssc = 8%nat \/ use_secure = false ->
  0 <= toread < 256 ->
  read_file_chunk (trx := recording trx) kenc kmac ssc use_secure use_14b
    offset toread capacity (card, log) = Some ((card', log'), ssc', ok, data) ->
  exists cmd, log' = log ++ [cmd] /\ read_request cmd = Some (offset, toread) /\
    (length ssc' = 8%nat \/ use_secure = false) /\
    (use_secure = true -> ok = true -> zlen data = toread).
Proof.
  intros Hssc Hn. unfold read_file_chunk. destruct use_secure.
  - destruct Hssc as [Hssc|]; [|done].
    unfold _emrtd_secure_read_binary_decrypt, _emrtd_secure_read_binary.
    osteps.
    all: intros ?; simplify_eq.
    all: match goal with E : emrtd_exchange_commands ?c _ _ _ _ = _ |- _ =>
           apply exchange_recorded in E; exists c end.
    all: repeat match goal with E : emrtd_bump_ssc _ = Some _ |- _ =>
           apply emrtd_bump_ssc_length in E end.
    all: repeat match goal with E : emrtd_check_cc _ _ _ _ = Some _ |- _ =>
           apply emrtd_check_cc_length in E end.
    all: split; [done|].
    all: split; [unfold read_request; cbn [app]; rd_simpl;
                 rewrite !decide_True by done; rewrite decide_False by done;
                 rewrite decide_True by done; cbn [obind]; unfold u8;
                 rewrite offset_split, Z.mod_small by lia; done|].
    all: split; [left; congruence|].
    all: try done.
    intros _ _. match goal with E : rd_bytes _ 0 toread = Some _ |- _ =>
      by apply rd_bytes_length in E end.
  - unfold _emrtd_read_binary.
    osteps.
    all: intros ?; simplify_eq.
    all: match goal with E : emrtd_exchange_commands ?c _ _ _ _ = _ |- _ =>
           apply exchange_recorded in E; exists c end.
    all: split; [done|].
    all: split; [unfold read_request; rd_simpl;
                 rewrite !decide_True by done; cbn [obind]; by rewrite offset_split|].
    all: split; [by right|done].
Qed.


(** *** The plan of the requests *)

Lemma chunk_plan_nonpos (offset readlen : Z) : readlen <= 0 -> chunk_plan offset readlen = [].
Proof.
  intros H. unfold chunk_plan.
  replace (Z.to_nat ((readlen + 117) / 118)) with 0%nat by lia. done.
Qed.

Lemma chunk_plan_pos (offset readlen : Z) :
  readlen > 0 ->
  let toread := if decide (readlen > 118) then 118 else readlen in
  chunk_plan offset readlen
    = (offset, toread) :: chunk_plan (offset + toread) (readlen - toread).
Proof.
  intros H toread. unfold chunk_plan.
  destruct (decide (readlen > 118)) as [Hbig|Hsmall]; subst toread.
  - replace (Z.to_nat ((readlen + 117) / 118))
      with (S (Z.to_nat ((readlen - 118 + 117) / 118))) by lia.
    cbn [plan_from]. by rewrite Z.min_l by lia.
  - replace (Z.to_nat ((readlen + 117) / 118)) with 1%nat by lia.
    replace (Z.to_nat ((readlen - readlen + 117) / 118)) with 0%nat by lia.
    cbn [plan_from]. by rewrite Z.min_r by lia.
Qed.

Lemma chunk_plan_ind (P : Z -> Z -> list (Z * Z) -> Prop) :
  (forall offset readlen, readlen <= 0 -> P offset readlen []) ->
  (forall offset readlen,
     readlen > 0 ->
     let toread := if decide (readlen > 118) then 118 else readlen in
     P (offset + toread) (readlen - toread) (chunk_plan (offset + toread) (readlen - toread)) ->
     P offset readlen ((offset, toread) :: chunk_plan (offset + toread) (readlen - toread))) ->
  forall offset readlen, P offset readlen (chunk_plan offset readlen).
Proof.
  intros Hnil Hcons offset readlen.
  assert (Hn : exists n : nat, readlen <= Z.of_nat n) by (exists (Z.to_nat readlen); lia).
  destruct Hn as [n Hn]. revert offset readlen Hn.
  induction n as [|n IH]; intros offset readlen Hn.
  - rewrite chunk_plan_nonpos by lia. apply Hnil. lia.
  - destruct (decide (readlen > 0)) as [Hpos|Hneg].
    + rewrite chunk_plan_pos by done. apply Hcons; [done|].
      apply IH. case_decide; lia.
    + rewrite chunk_plan_nonpos by lia. apply Hnil. lia.
Qed.

(** The requests of a plan advance from its offset, ask for 1 to 118
    bytes each and together for [readlen] bytes. *)
Lemma chunk_plan_advancing (offset readlen : Z) :
  advancing offset (chunk_plan offset readlen) /\
  sum_list (snd <$> chunk_plan offset readlen) = Z.max 0 readlen.
Proof.
  revert offset readlen.
  apply (chunk_plan_ind (fun offset readlen plan =>
           advancing offset plan /\ sum_list (snd <$> plan) = Z.max 0 readlen)).
  - intros offset readlen H. split; [done|]. change (sum_list (snd <$> [])) with 0. lia.
  - intros offset readlen Hpos toread [Hadv Hsum].
    assert (Htoread : 1 <= toread <= 118 /\ toread <= readlen).
    { unfold toread. case_decide; lia. }
    split; [cbn [advancing]; repeat split; try done; lia|].
    change (sum_list (snd <$> (offset, toread) :: chunk_plan (offset + toread) (readlen - toread)))
      with (toread + sum_list (snd <$> chunk_plan (offset + toread) (readlen - toread))).
    rewrite Hsum. lia.
Qed.

(** The loop runs the plan: with the bound [Z.to_nat readlen] on its
    rounds, or any larger one, it never stops for want of rounds. *)
Lemma read_file_loop_plan (kenc kmac : list Z) (use_secure use_14b : bool) (n : nat) :
  forall (ssc response : list Z) (offset readlen : Z) (card : Card),
  (Z.to_nat readlen <= n)%nat ->
  read_file_loop n kenc kmac ssc use_secure use_14b response offset readlen card
    = read_chunks kenc kmac ssc use_secure use_14b response (chunk_plan offset readlen) card.
Proof.
  induction n as [|n IH]; intros ssc response offset readlen card Hn.
  - cbn [read_file_loop]. rewrite decide_False by lia.
    by rewrite chunk_plan_nonpos by lia.
  - cbn [read_file_loop]. case_decide as Hpos.
    + rewrite chunk_plan_pos by done. cbn [read_chunks].
      destruct (read_file_chunk _ _ _ _ _ _ _ _ _) as [[[[c1 s1] [|]] temp]|];
        cbn [obind]; try done.
      case_decide; [|done]. apply IH. case_decide; lia.
    + by rewrite chunk_plan_nonpos by lia.
Qed.

Lemma read_file_loop_recorded (kenc kmac : list Z) (use_secure use_14b : bool) (n : nat) :
  forall (ssc response : list Z) (offset readlen : Z) (card : Card) (log : list (list Z))
         (card' : Card) (log' : list (list Z)) (ssc' : list Z) (ok : bool) (out : option (list Z)),
  length ssc = 8%nat \/ use_secure = false ->
  read_file_loop (trx := recording trx) n kenc kmac ssc use_secure use_14b
    response offset readlen (card, log) = Some ((card', log'), ssc', ok, out) ->
  exists cmds reqs,
    log' = log ++ cmds /\ Forall2 requested cmds reqs /\ advancing offset reqs /\
    (ok = true ->
       reqs = chunk_plan offset readlen /\
       sum_list (snd <$> reqs) = Z.max 0 readlen /\
       exists rest, out = Some (response ++ rest) /\
         (use_secure = true -> zlen rest = Z.max 0 readlen)) /\
    (ok = false -> out = None /\ exists more, chunk_plan offset readlen = reqs ++ more).
Proof.
  induction n as [|n IH]; intros ssc response offset readlen card log card' log' ssc' ok out Hssc.
  - cbn [read_file_loop]. case_decide as Hpos; [done|]. intros ?; simplify_eq.
    exists [], []. rewrite app_nil_r. repeat split; try done.
    + by rewrite chunk_plan_nonpos by lia.
    + change (sum_list (snd <$> [])) with 0. lia.
    + exists []. rewrite app_nil_r. split; [done|]. intros _. change (zlen []) with 0. lia.
  - cbn [read_file_loop]. case_decide as Hpos.
    2:{ intros ?; simplify_eq.
        exists [], []. rewrite app_nil_r. repeat split; try done.
        + by rewrite chunk_plan_nonpos by lia.
        + change (sum_list (snd <$> [])) with 0. lia.
        + exists []. rewrite app_nil_r. split; [done|]. intros _. change (zlen []) with 0. lia. }
    set (toread := if decide (readlen > 118) then 118 else readlen).
    assert (Htoread : 1 <= toread <= 118 /\ toread <= readlen).
    { unfold toread. case_decide; lia. }
    destruct (read_file_chunk (trx := recording trx) kenc kmac ssc use_secure use_14b
                offset toread 500 (card, log)) as [[[[[c1 l1] s1] ok1] temp]|] eqn:Hchunk;
      cbn [obind]; [|done].
    apply read_file_chunk_recorded in Hchunk as (cmd & -> & Hreq & Hs1 & Hsize); [|done|lia].
    destruct ok1.
    + case_decide as Hcap; [|done]. intros Hloop.
      apply IH in Hloop as (cmds & reqs & -> & Hreqs & Hadv & Hok & Hfail); [|done].
      exists (cmd :: cmds), ((offset, toread) :: reqs).
      split; [by rewrite <- app_assoc|]. split; [by constructor|].
      split; [cbn [advancing]; repeat split; try done; lia|].
      split.
      * intros ->. destruct (Hok eq_refl) as (Hplan & Hsum & rest & -> & Hrest).
        split; [by rewrite chunk_plan_pos, Hplan by done|].
        split.
        { change (sum_list (snd <$> (offset, toread) :: reqs))
            with (toread + sum_list (snd <$> reqs)). lia. }
        exists (temp ++ rest). split; [by rewrite <- app_assoc|].
        intros Hsec. rewrite zlen_app, Hsize, Hrest by done. lia.
      * intros ->. destruct (Hfail eq_refl) as (-> & more & Hmore).
        split; [done|]. exists more. rewrite chunk_plan_pos by done.
        fold toread. by rewrite Hmore.
    + intros ?; simplify_eq.
      exists [cmd], [(offset, toread)].
      split; [done|]. split; [by repeat constructor|].
      split; [cbn [advancing]; repeat split; try done; lia|].
      split; [done|]. intros _. split; [done|].
      exists (chunk_plan (offset + toread) (readlen - toread)).
      by rewrite chunk_plan_pos by done.
Qed.

(** C8.  [emrtd_read_file] sends a first READ BINARY for exactly 4
    bytes at offset 0, takes the declared length from the bytes it
    gets and then runs the plan of the chunks: requests that start at
    offset 4, each where the one before ended, each for 1 to 118
    bytes, together for the length the first 4 bytes declare (tag,
    length field and value, less the 4 bytes read).  The loop never
    stops for want of rounds.  What a chunk returns is appended as it
    comes: under secure messaging every chunk has the length asked
    for, so the file has the declared length.  A request that fails
    ends the read with [false] at once, without a partial file. *)
Theorem emrtd_read_file_two_phases (kenc kmac ssc : list Z) (use_secure use_14b : bool)
    (card : Card) :
  emrtd_read_file kenc kmac ssc use_secure use_14b card =
    (let* '(card1, ssc1, ok, probe) :=
       read_file_chunk kenc kmac ssc use_secure use_14b 0 4 EMRTD_MAX_FILE_SIZE card in
     if ok then
       let* datalen := emrtd_get_asn1_data_length probe (zlen probe) 1 in
       let* fieldlen := emrtd_get_asn1_field_length probe (zlen probe) 1 in
       read_chunks kenc kmac ssc1 use_secure use_14b probe
         (chunk_plan 4 (datalen - (3 - fieldlen))) card1
     else Some (card1, ssc1, false, None)) /\
  (forall n ssc0 response offset readlen card0,
     (Z.to_nat readlen <= n)%nat ->
     read_file_loop n kenc kmac ssc0 use_secure use_14b response offset readlen card0
       = read_chunks kenc kmac ssc0 use_secure use_14b response
           (chunk_plan offset readlen) card0) /\
  (forall offset readlen,
     advancing offset (chunk_plan offset readlen) /\
     sum_list (snd <$> chunk_plan offset readlen) = Z.max 0 readlen) /\
  (forall (card0 card' : Card) (log : list (list Z)) (ssc' : list Z) (ok : bool)
          (out : option (list Z)),
     length ssc = 8%nat \/ use_secure = false ->
     emrtd_read_file (trx := recording trx) kenc kmac ssc use_secure use_14b (card0, [])
       = Some ((card', log), ssc', ok, out) ->
     exists reqs,
       Forall2 requested log ((0, 4) :: reqs) /\ advancing 4 reqs /\
       (ok = true ->
          exists probe rest datalen fieldlen,
            out = Some (probe ++ rest) /\
            emrtd_get_asn1_data_length probe (zlen probe) 1 = Some datalen /\
            emrtd_get_asn1_field_length probe (zlen probe) 1 = Some fieldlen /\
            reqs = chunk_plan 4 (datalen - (3 - fieldlen)) /\
            sum_list (snd <$> reqs) = Z.max 0 (datalen - (3 - fieldlen)) /\
            (use_secure = true ->
               zlen probe = 4 /\ zlen rest = Z.max 0 (datalen - (3 - fieldlen)))) /\
       (ok = false -> out = None)) /\
  (forall card0 card1 ssc0 ssc1 data,
     read_file_chunk kenc kmac ssc0 use_secure use_14b 0 4 EMRTD_MAX_FILE_SIZE card0
       = Some (card1, ssc1, false, data) ->
     emrtd_read_file kenc kmac ssc0 use_secure use_14b card0 = Some (card1, ssc1, false, None)) /\
  (forall m card0 card1 ssc0 ssc1 response offset readlen data,
     readlen > 0 ->
     read_file_chunk kenc kmac ssc0 use_secure use_14b offset
       (if decide (readlen > 118) then 118 else readlen) 500 card0
       = Some (card1, ssc1, false, data) ->
     read_file_loop (S m) kenc kmac ssc0 use_secure use_14b response offset readlen card0
       = Some (card1, ssc1, false, None)).
Proof.
  split; [|split; [|split; [|split; [|split]]]].
  - unfold emrtd_read_file.
    destruct (read_file_chunk kenc kmac ssc use_secure use_14b 0 4 EMRTD_MAX_FILE_SIZE card)
      as [[[[c1 s1] [|]] probe]|]; cbn [obind]; try done.
    destruct (emrtd_get_asn1_data_length probe (zlen probe) 1) as [datalen|];
      cbn [obind]; [|done].
    destruct (emrtd_get_asn1_field_length probe (zlen probe) 1) as [fieldlen|];
      cbn [obind]; [|done].
    by apply read_file_loop_plan.
  - intros n ssc0 response offset readlen card0 Hn. by apply read_file_loop_plan.
  - apply chunk_plan_advancing.
  - intros card0 card' log ssc' ok out Hssc. unfold emrtd_read_file.
    destruct (read_file_chunk (trx := recording trx) kenc kmac ssc use_secure use_14b
                0 4 EMRTD_MAX_FILE_SIZE (card0, [])) as [[[[[c1 l1] s1] ok1] probe]|] eqn:Hchunk;
      cbn [obind]; [|done].
    apply read_file_chunk_recorded in Hchunk as (cmd & -> & Hreq & Hs1 & Hsize); [|done|lia].
    destruct ok1.
    + destruct (emrtd_get_asn1_data_length probe (zlen probe) 1) as [datalen|] eqn:Hd;
        cbn [obind]; [|done].
      destruct (emrtd_get_asn1_field_length probe (zlen probe) 1) as [fieldlen|] eqn:Hf;
        cbn [obind]; [|done].
      intros Hloop.
      apply read_file_loop_recorded in Hloop
        as (cmds & reqs & -> & Hreqs & Hadv & Hok & Hfail); [|done].
      exists reqs. split; [by constructor|]. split; [done|]. split.
      * intros ->. destruct (Hok eq_refl) as (Hplan & Hsum & rest & -> & Hrest).
        exists probe, rest, datalen, fieldlen. repeat split; try done; auto.
      * intros ->. by destruct (Hfail eq_refl).
    + intros ?; simplify_eq. exists []. split; [by repeat constructor|]. done.
  - intros card0 card1 ssc0 ssc1 data Hc. unfold emrtd_read_file. by rewrite Hc.
  - intros m card0 card1 ssc0 ssc1 response offset readlen data Hpos Hc.
    cbn [read_file_loop]. rewrite decide_True by done. by rewrite Hc.
Qed.

(** ** Basic Access Control *)

Lemma store_zeroed_length (capacity : Z) (out : option (list Z)) (buf : list Z) :
  0 <= capacity -> store_zeroed capacity out = Some buf -> zlen buf = capacity.
Proof.
  unfold store_zeroed. intros Hc. case_decide; [|done]. intros [= <-].
  rewrite zlen_app. unfold zlen at 2. rewrite length_replicate. lia.
Qed.

(** C2, as the code has it.  After the EXTERNAL AUTHENTICATE response
    body is decrypted, the bytes 8..15 of the plaintext (the second
    8-byte block, where the chip echoes RND.IFD after its own RND.IC)
    are compared with the RND.IFD sent: when they differ the handshake
    returns [false] and writes neither session keys nor counter; when
    they agree, bytes 16..31 are K.ICC, the key seed is
    [K.IFD xor K.ICC], and the session keys and the counter
    [RND.IC[4..8] || RND.IFD[4..8]] are written.  The first 8 bytes of
    the plaintext are not looked at. *)
Theorem emrtd_do_bac_checks_echo (documentnumber dob expiry : string) (use_14b : bool)
    (card card1 card2 : Card) (out1 out2 : option (list Z))
    (kseed kenc kmac rnd_ic iv1 e_ifd m_ifd e m response iv2 dec_output : list Z) :
  bac_static_keys documentnumber dob expiry = Some (kseed, kenc, kmac) ->
  emrtd_get_challenge 8 use_14b card = Some (card1, true, out1) ->
  store_zeroed 8 out1 = Some rnd_ic ->
  des3_encrypt_cbc (replicate 8 0x00) kenc (rng 8 ++ rnd_ic ++ rng 16) 32 = Some (iv1, e_ifd) ->
  retail_mac kmac e_ifd 32 = Some m_ifd ->
  rd_bytes e_ifd 0 32 = Some e ->
  rd_bytes m_ifd 0 8 = Some m ->
  emrtd_external_authenticate (e ++ m) 40 use_14b card1 = Some (card2, true, out2) ->
  store_zeroed EMRTD_MAX_FILE_SIZE out2 = Some response ->
  des3_decrypt_cbc iv1 kenc (take 32 response) 32 = Some (iv2, dec_output) ->
  32 <= zlen dec_output ->
  let rnd_ifd := rng 8 in
  let k_ifd := rng 16 in
  let echoed := take 8 (drop 8 dec_output) in
  let k_icc := take 16 (drop 16 dec_output) in
  (echoed <> rnd_ifd ->
     emrtd_do_bac documentnumber dob expiry use_14b card = Some (card2, false, None)) /\
  (echoed = rnd_ifd ->
     emrtd_do_bac documentnumber dob expiry use_14b card =
       (let kseed := xor_bytes k_ifd k_icc ++ drop 16 kseed in
        let* ks_enc := emrtd_deskey kseed KENC_type 16 in
        let* ks_mac := emrtd_deskey kseed KMAC_type 16 in
        Some (card2, true, Some (take 4 (drop 4 rnd_ic) ++ drop 4 rnd_ifd, ks_enc, ks_mac)))).
Proof.
  intros Hkeys Hch Hic Henc Hmac He Hm Hauth Hresp Hdec Hlen rnd_ifd k_ifd echoed k_icc.
  pose proof (store_zeroed_length 8 _ _ ltac:(lia) Hic) as Hiclen.
  pose proof (store_zeroed_length EMRTD_MAX_FILE_SIZE _ _ ltac:(done) Hresp) as Hresplen.
  unfold EMRTD_MAX_FILE_SIZE in Hresplen.
  assert (Hecho : rd_bytes dec_output 8 8 = Some echoed) by (by rewrite rd_bytes_Some by lia).
  unfold emrtd_do_bac. rewrite Hkeys. cbn [obind].
  rewrite Hch. cbn [obind]. rewrite Hic. cbn [obind].
  subst rnd_ifd k_ifd. rewrite Henc. cbn [obind]. rewrite Hmac. cbn [obind].
  rewrite He, Hm. cbn [obind]. rewrite Hauth. cbn [obind]. rewrite Hresp. cbn [obind].
  rewrite rd_bytes_0 by lia. cbn [obind]. change (Z.to_nat 32) with 32%nat.
  rewrite Hdec. cbn [obind]. rewrite Hecho. cbn [obind].
  split; intros Hcmp.
  - by rewrite decide_True by done.
  - rewrite decide_False by (intros Hne; by apply Hne).
    rewrite (rd_bytes_Some dec_output 16 16) by lia. cbn [obind].
    fold k_icc. rewrite (rd_bytes_Some rnd_ic 4 4) by lia. cbn [obind]. done.
Qed.

End FileRead.

(** ** The tag reader *)

Lemma rd_app_r (pre l : list Z) (i : Z) :
  0 <= i -> rd (pre ++ l) (zlen pre + i) = rd l i.
Proof.
  intros Hi. unfold rd, zlen. rewrite !decide_True by lia.
  rewrite lookup_app_r by lia. f_equal. lia.
Qed.

Lemma rd_nat (l : list Z) (n : nat) : rd l (Z.of_nat n) = l !! n.
Proof. unfold rd. rewrite decide_True by lia. by rewrite Nat2Z.id. Qed.

Lemma drop_zlen_app (pre l : list Z) : drop (Z.to_nat (zlen pre)) (pre ++ l) = l.
Proof. unfold zlen. rewrite Nat2Z.id. by rewrite drop_app_length. Qed.

Lemma enc_length_decodes (tag rest : list Z) (n datainlen : Z) :
  0 <= n < 2 ^ 24 ->
  0 <= datainlen <= zlen (tag ++ enc_length n ++ rest) ->
  emrtd_get_asn1_data_length (tag ++ enc_length n ++ rest) datainlen (zlen tag) = Some n /\
  emrtd_get_asn1_field_length (tag ++ enc_length n ++ rest) datainlen (zlen tag)
    = Some (zlen (enc_length n)) /\
  1 <= zlen (enc_length n) <= 4.
Proof.
  intros Hn Hlen. change (2 ^ 24) with 16777216 in Hn.
  rewrite emrtd_get_asn1_data_length_eq, emrtd_get_asn1_field_length_eq by done.
  unfold asn1_data_length_of, asn1_field_length_of.
  assert (Hrd : forall i : nat, rd (tag ++ enc_length n ++ rest) (zlen tag + Z.of_nat i)
                                = (enc_length n ++ rest) !! i).
  { intros i. rewrite rd_app_r by lia. apply rd_nat. }
  pose proof (Hrd 0%nat) as Hrd0. rewrite Z.add_0_r in Hrd0.
  pose proof (Hrd 1%nat) as Hrd1. pose proof (Hrd 2%nat) as Hrd2.
  pose proof (Hrd 3%nat) as Hrd3. clear Hrd.
  change (Z.of_nat 1) with 1 in Hrd1. change (Z.of_nat 2) with 2 in Hrd2.
  change (Z.of_nat 3) with 3 in Hrd3.
  rewrite Hrd0, Hrd1, Hrd2, Hrd3. clear Hrd0 Hrd1 Hrd2 Hrd3.
  unfold enc_length. repeat case_decide; cbn [app lookup list_lookup obind].
  - rewrite !decide_True by lia. change (zlen [n]) with 1. split; [done|]. split; [done|]. lia.
  - rewrite !decide_False by lia. rewrite !decide_True by lia.
    change (zlen [129; n]) with 2. split; [done|]. split; [done|]. lia.
  - rewrite !decide_False by lia. rewrite !decide_True by lia.
    rewrite lor_shiftl_u8 by (unfold is_u8; lia).
    change (zlen [130; n / 256; n mod 256]) with 3.
    split; [f_equal; lia|]. split; [done|]. lia.
  - rewrite !decide_False by lia. rewrite !decide_True by lia.
    change 16 with (8 + 8). rewrite <- Z.shiftl_shiftl, <- Z.shiftl_lor by lia.
    rewrite (lor_shiftl_u8 (n / 65536)) by (unfold is_u8; lia).
    rewrite lor_shiftl_u8 by (unfold is_u8; lia).
    change (zlen [131; n / 65536; n / 256 mod 256; n mod 256]) with 4.
    split; [f_equal; lia|]. split; [done|]. lia.
Qed.

Lemma enc_elements_cons (e : lds_element) (es : list lds_element) :
  enc_elements (e :: es) = enc_element e ++ enc_elements es.
Proof. done. Qed.

Lemma zlen_nonneg (l : list Z) : 0 <= zlen l.
Proof. unfold zlen. lia. Qed.

Lemma wf_tag_length (e : lds_element) (t : Z) :
  wf_tag (el_tag e) -> el_tag e !! 0%nat = Some t ->
  emrtd_lds_determine_tag_length t = zlen (el_tag e).
Proof.
  unfold wf_tag, emrtd_lds_determine_tag_length.
  destruct (el_tag e) as [|b1 [|b2 [|]]]; try done; cbn [lookup list_lookup].
  - intros (_ & H1 & H2) [= <-]. rewrite decide_False; [done|]. by intros [?|?].
  - intros [H1 _] [= <-]. by rewrite decide_True.
Qed.

Lemma wf_tag_head (e : lds_element) :
  wf_tag (el_tag e) -> exists t, el_tag e !! 0%nat = Some t /\ 1 <= zlen (el_tag e) <= 2.
Proof.
  unfold wf_tag. destruct (el_tag e) as [|b1 [|b2 [|]]]; try done; intros _.
  - exists b1. split; [done|]. unfold zlen. cbn. lia.
  - exists b1. split; [done|]. unfold zlen. cbn. lia.
Qed.

(** The scan over a run of well-formed elements that starts at the
    current offset finds the element [find_element] names. *)
Lemma lds_scan_elements (tag1 tag2 : Z) (twobytetag : bool) (skip : Z)
    (es : list lds_element) :
  forall (pre post : list Z) (n : nat) (sc : Z),
  Forall wf_element es ->
  (Z.to_nat (zlen (enc_elements es)) <= n)%nat ->
  lds_scan n (pre ++ enc_elements es ++ post) (zlen pre + zlen (enc_elements es))
    tag1 tag2 twobytetag skip (zlen pre) sc
  = Some (find_element tag1 tag2 twobytetag (skip - sc) es).
Proof.
  induction es as [|e es IH]; intros pre post n sc Hwf Hn.
  - change (enc_elements []) with (@nil Z). change (zlen []) with 0.
    destruct n; cbn [lds_scan]; by rewrite decide_False by lia.
  - apply Forall_cons in Hwf as [(Htag & Hval & Hsize) Hwf].
    rewrite enc_elements_cons in *. rewrite zlen_app in *.
    destruct (wf_tag_head e Htag) as (t & Ht & Htlen).
    pose proof (zlen_nonneg (el_value e)) as Hvlen.
    pose proof (zlen_nonneg (enc_elements es)) as Hrest.
    pose proof (zlen_nonneg pre) as Hpre.
    set (L := zlen (el_value e)) in *.
    assert (Helem : enc_element e = el_tag e ++ enc_length L ++ el_value e) by done.
    set (tail := el_value e ++ enc_elements es ++ post).
    assert (Hsize_e : zlen (enc_element e) = zlen (el_tag e) + zlen (enc_length L) + L).
    { rewrite Helem, !zlen_app. lia. }
    destruct (enc_length_decodes (el_tag e) tail L
                (zlen pre + (zlen (enc_element e) + zlen (enc_elements es)) - zlen pre)
                ltac:(lia)) as (Hdata & Hfield & Hflen).
    { unfold tail. rewrite !zlen_app. pose proof (zlen_nonneg post).
      pose proof (zlen_nonneg (enc_length L)). fold L. lia. }
    assert (Hdatain : pre ++ (enc_element e ++ enc_elements es) ++ post
                      = pre ++ el_tag e ++ enc_length L ++ tail).
    { unfold tail. rewrite Helem. by rewrite <- !app_assoc. }
    destruct n as [|n]; [lia|]. cbn [lds_scan].
    rewrite decide_True by lia.
    rewrite Hdatain.
    assert (Hrd0 : rd (pre ++ el_tag e ++ enc_length L ++ tail) (zlen pre) = Some t).
    { rewrite <- (Z.add_0_r (zlen pre)), rd_app_r by lia.
      change 0 with (Z.of_nat 0). rewrite rd_nat. by apply lookup_app_l_Some. }
    rewrite Hrd0. cbn [obind].
    rewrite (wf_tag_length e t Htag Ht).
    rewrite drop_zlen_app, Hdata, Hfield. cbn [obind].
    assert (Hnext : pre ++ el_tag e ++ enc_length L ++ tail
                    = (pre ++ enc_element e) ++ enc_elements es ++ post).
    { rewrite <- Hdatain. by rewrite <- !app_assoc. }
    assert (Hoff : zlen pre + (zlen (el_tag e) + L + zlen (enc_length L))
                   = zlen (pre ++ enc_element e)).
    { rewrite zlen_app. lia. }
    assert (Hlen : zlen pre + (zlen (enc_element e) + zlen (enc_elements es))
                   = zlen (pre ++ enc_element e) + zlen (enc_elements es)).
    { rewrite zlen_app. lia. }
    assert (Hrd1 : rd (pre ++ el_tag e ++ enc_length L ++ tail) (zlen pre + 1)
                   = enc_element e !! 1%nat).
    { rewrite rd_app_r by lia. change 1 with (Z.of_nat 1). rewrite rd_nat.
      unfold tail. rewrite !app_assoc, <- (app_assoc (el_tag e)), <- Helem, <- app_assoc.
      apply lookup_app_l. unfold zlen in *. lia. }
    assert (Hhead : enc_element e !! 0%nat = Some t).
    { rewrite Helem. by apply lookup_app_l_Some. }
    rewrite Hrd1.
    destruct (decide (tag_matches tag1 tag2 twobytetag e)) as [Hm|Hm].
    + assert (Hfound :
        (if decide (t = tag1) then
           if twobytetag then let* t2 := enc_element e !! 1%nat in Some (bool_decide (t2 = tag2))
           else Some true
         else Some false) = Some true).
      { destruct Hm as [Hm1 Hm2]. rewrite Hhead in Hm1. injection Hm1 as ->.
        rewrite decide_True by done. destruct twobytetag; [|done].
        rewrite (Hm2 eq_refl). cbn [obind]. by rewrite bool_decide_eq_true_2. }
      rewrite Hfound. cbn [obind].
      unfold find_element. rewrite filter_cons_True by done.
      destruct (decide (sc < skip)) as [Hsc|Hsc].
      * rewrite Hoff, Hlen, Hnext.
        rewrite IH by (try done; lia). unfold find_element.
        replace (Z.to_nat (skip - sc)) with (S (Z.to_nat (skip - (sc + 1)))) by lia.
        done.
      * rewrite decide_True by lia.
        replace (Z.to_nat (skip - sc)) with 0%nat by lia. cbn [lookup list_lookup fmap option_fmap option_map].
        rewrite rd_bytes_Some.
        2,3: lia.
        2:{ rewrite !zlen_app. unfold tail. rewrite !zlen_app.
            pose proof (zlen_nonneg post). fold L. lia. }
        cbn [obind]. do 2 f_equal.
        replace (zlen pre + zlen (el_tag e) + zlen (enc_length L))
          with (zlen (pre ++ el_tag e ++ enc_length L)) by (rewrite !zlen_app; lia).
        replace (pre ++ el_tag e ++ enc_length L ++ tail)
          with ((pre ++ el_tag e ++ enc_length L) ++ tail) by (by rewrite <- !app_assoc).
        rewrite drop_zlen_app. unfold tail, L, zlen. rewrite Nat2Z.id.
        by rewrite take_app_length.
    + assert (Hfound :
        (if decide (t = tag1) then
           if twobytetag then let* t2 := enc_element e !! 1%nat in Some (bool_decide (t2 = tag2))
           else Some true
         else Some false) = Some false).
      { unfold tag_matches in Hm. rewrite Hhead in Hm.
        destruct (decide (t = tag1)) as [->|Hne]; [|done].
        destruct twobytetag; [|exfalso; apply Hm; by split].
        destruct (enc_element e !! 1%nat) as [t2|] eqn:H2.
        - cbn [obind]. rewrite bool_decide_eq_false_2; [done|].
          intros ->. apply Hm. by split.
        - exfalso. apply lookup_ge_None in H2. unfold zlen in *. lia. }
      rewrite Hfound. cbn [obind].
      unfold find_element. rewrite filter_cons_False by done.
      rewrite Hoff, Hlen, Hnext.
      rewrite IH by (try done; lia). done.
Qed.

Lemma lds_lookup_flat (tag1 tag2 : Z) (twobytetag : bool) (skip : Z)
    (es : list lds_element) :
  Forall wf_element es ->
  emrtd_lds_get_data_by_tag (enc_elements es) (zlen (enc_elements es))
    tag1 tag2 twobytetag false skip
  = Some (find_element tag1 tag2 twobytetag skip es).
Proof.
  intros Hwf. unfold emrtd_lds_get_data_by_tag. cbn [obind].
  pose proof (lds_scan_elements tag1 tag2 twobytetag skip es [] []
                (Z.to_nat (zlen (enc_elements es))) 0 Hwf ltac:(lia)) as Hscan.
  rewrite app_nil_r in Hscan. cbn [app] in Hscan. change (zlen []) with 0 in Hscan.
  rewrite Z.add_0_l, Z.sub_0_r in Hscan. exact Hscan.
Qed.

Lemma lds_lookup_nested (tag1 tag2 : Z) (twobytetag : bool) (skip : Z)
    (outer : lds_element) (es : list lds_element) :
  el_value outer = enc_elements es ->
  wf_element outer ->
  Forall wf_element es ->
  emrtd_lds_get_data_by_tag (enc_element outer) (zlen (enc_element outer))
    tag1 tag2 twobytetag true skip
  = Some (find_element tag1 tag2 twobytetag skip es).
Proof.
  intros Hval (Htag & _ & Hsize) Hwf. unfold emrtd_lds_get_data_by_tag.
  destruct (wf_tag_head outer Htag) as (t & Ht & Htlen).
  set (N := zlen (enc_elements es)).
  assert (HN : 0 <= N < 2 ^ 24).
  { unfold N. rewrite <- Hval. split; [apply zlen_nonneg|done]. }
  assert (Hbuf : enc_element outer = el_tag outer ++ enc_length N ++ enc_elements es).
  { unfold enc_element. by rewrite Hval. }
  assert (Hsz : zlen (enc_element outer)
                = zlen (el_tag outer ++ enc_length N) + zlen (enc_elements es)).
  { rewrite Hbuf, !zlen_app. lia. }
  set (len := zlen (enc_element outer)) in *. rewrite Hbuf.
  change 0 with (Z.of_nat 0) at 1. rewrite rd_nat.
  rewrite (lookup_app_l_Some _ _ _ _ Ht). cbn [obind].
  rewrite (wf_tag_length outer t Htag Ht).
  destruct (enc_length_decodes (el_tag outer) (enc_elements es) N len HN)
    as (_ & Hfield & Hflen).
  { rewrite <- Hbuf. fold len. pose proof (zlen_nonneg (enc_element outer)). fold len in H. lia. }
  rewrite Hfield. cbn [obind].
  pose proof (lds_scan_elements tag1 tag2 twobytetag skip es
                (el_tag outer ++ enc_length N) [] (Z.to_nat len) 0 Hwf) as Hscan.
  rewrite app_nil_r, <- app_assoc, <- Hsz, Z.sub_0_r, zlen_app in Hscan.
  apply Hscan. rewrite Hsz. pose proof (zlen_nonneg (el_tag outer ++ enc_length N)). lia.
Qed.

(** C7.  On a buffer of well-formed elements the lookup scans the
    top-level elements in order and returns the value of the
    [skip + 1]-th one that matches the tag, or fails when fewer match;
    with [entertoptag] it first steps over the tag and length field of
    one outer element and scans the elements of its value; values are
    not descended into.  So of two consecutive elements tagged [0x30]
    the lookup with skip count 1 returns the value of the second, and a
    tag that matches no element is not found. *)
Theorem emrtd_lds_get_data_by_tag_finds (tag1 tag2 : Z) (twobytetag : bool) (skip : Z)
    (outer : lds_element) (es : list lds_element) :
  Forall wf_element es ->
  wf_element outer ->
  el_value outer = enc_elements es ->
  emrtd_lds_get_data_by_tag (enc_elements es) (zlen (enc_elements es))
    tag1 tag2 twobytetag false skip
  = Some (find_element tag1 tag2 twobytetag skip es) /\
  emrtd_lds_get_data_by_tag (enc_element outer) (zlen (enc_element outer))
    tag1 tag2 twobytetag true skip
  = Some (find_element tag1 tag2 twobytetag skip es) /\
  (forall v1 v2 : list Z,
     wf_element {| el_tag := [0x30]; el_value := v1 |} ->
     wf_element {| el_tag := [0x30]; el_value := v2 |} ->
     let buf := enc_elements [ {| el_tag := [0x30]; el_value := v1 |};
                               {| el_tag := [0x30]; el_value := v2 |} ] in
     emrtd_lds_get_data_by_tag buf (zlen buf) 0x30 0x00 false false 1 = Some (Some v2) /\
     emrtd_lds_get_data_by_tag buf (zlen buf) 0x30 0x00 false false 0 = Some (Some v1)) /\
  (Forall (fun e => ~ tag_matches tag1 tag2 twobytetag e) es ->
   emrtd_lds_get_data_by_tag (enc_elements es) (zlen (enc_elements es))
     tag1 tag2 twobytetag false skip = Some None).
Proof.
  intros Hwf Houter Hval. split; [by apply lds_lookup_flat|].
  split; [by apply lds_lookup_nested|]. split.
  - intros v1 v2 H1 H2 buf. unfold buf.
    rewrite !lds_lookup_flat by (apply Forall_cons; split; [done|]; by apply Forall_singleton).
    unfold find_element.
    rewrite !filter_cons_True by (split; [done|intros [=]]).
    done.
  - intros Hnone. rewrite lds_lookup_flat by done. f_equal. unfold find_element.
    replace (filter (tag_matches tag1 tag2 twobytetag) es) with (@nil lds_element); [done|].
    symmetry. clear Hwf Houter Hval.
    induction Hnone as [|e es' He Hes IH]; [done|].
    by rewrite filter_cons_False by done.
Qed.

(** ** The standard primitives and the worked example *)

Lemma be_bytes_length (n : nat) : forall x, length (Std.be_bytes n x) = n.
Proof.
  induction n as [|n IH]; intros x; cbn [Std.be_bytes]; [done|].
  rewrite length_app, IH. cbn. lia.
Qed.

Lemma std_des_enc_length (k x : list Z) :
  length (des_encrypt_ecb (Primitives := Std.primitives) k x) = 8%nat.
Proof. apply be_bytes_length. Qed.

Lemma std_sha1_block_length (h block : list Z) :
  length h = 5%nat -> length (Std.sha1_block h block) = 5%nat.
Proof.
  intros Hlen. explode_list h Hlen. unfold Std.sha1_block.
  destruct (fold_left _ _ _) as [[[[[a b] c] d] e] t]. done.
Qed.

Lemma std_sha1_blocks_length (n : nat) : forall h msg,
  length h = 5%nat -> length (Std.sha1_blocks n h msg) = 5%nat.
Proof.
  induction n as [|n IH]; intros h msg Hlen; cbn [Std.sha1_blocks]; [done|].
  apply IH. by apply std_sha1_block_length.
Qed.

Lemma std_sha1_length (x : list Z) :
  length (sha1hash (Primitives := Std.primitives) x) = 20%nat.
Proof.
  cbn [sha1hash Std.primitives]. unfold Std.sha1.
  pose proof (std_sha1_blocks_length (length (Std.sha1_pad x) / 64)
                [0x67452301; 0xEFCDAB89; 0x98BADCFE; 0x10325476; 0xC3D2E1F0]
                (Std.sha1_pad x) eq_refl) as Hlen.
  destruct (Std.sha1_blocks _ _ _) as [|h0 [|h1 [|h2 [|h3 [|h4 [|]]]]]]; done.
Qed.

Lemma retail_mac_is_iso9797_alg3_witness :
  retail_mac (prim := Std.primitives) Example.kmac Example.e_ifd 32 = Some Example.m_ifd.
Proof.
  destruct (retail_mac_is_iso9797_alg3 (prim := Std.primitives)
              Example.kmac Example.e_ifd 32
              ltac:(vm_compute; congruence)
              ltac:(vm_compute; split; congruence)
              ltac:(lia)
              std_des_enc_length) as [Hmac _].
  rewrite Hmac. vm_compute. reflexivity.
Defined.

Lemma emrtd_deskey_derivation_witness :
  emrtd_deskey (prim := Std.primitives) Example.kseed KENC_type 16 = Some Example.kenc /\
  emrtd_deskey (prim := Std.primitives) Example.kseed KMAC_type 16 = Some Example.kmac.
Proof.
  destruct (emrtd_deskey_derivation (prim := Std.primitives) Example.kseed
              ltac:(vm_compute; congruence) std_sha1_length) as (Henc & Hmac & _).
  rewrite Henc, Hmac. vm_compute. split; reflexivity.
Defined.

Ltac by_computation :=
  lazymatch goal with
  | |- @eq _ _ _ => vm_compute; first [reflexivity | congruence]
  | |- Is_true _ => vm_compute; exact I
  | |- _ =>
      first [ lia
            | apply (bool_decide_unpack _); vm_compute; exact I
            | vm_compute; first [reflexivity | congruence | discriminate] ]
  end.

Lemma emrtd_lds_get_data_by_tag_finds_witness :
  emrtd_lds_get_data_by_tag Example.ef_com (zlen Example.ef_com) 0x5c 0x00 false true 0
    = Some (Some [0x61; 0x75]).
Proof.
  destruct (emrtd_lds_get_data_by_tag_finds 0x5c 0x00 false 0
              Example.ef_com_template Example.ef_com_elements
              ltac:(by_computation) ltac:(by_computation) eq_refl) as (_ & H & _).
  exact H.
Defined.




Lemma emrtd_read_file_two_phases_witness :
  (exists log,
     emrtd_read_file (prim := Std.primitives) (trx := recording scripted)
       [] [] [] false false (Example.long_file_card, [])
     = Some (([], log), [], true, Some Example.long_file) /\
     Forall2 requested log [(0, 4); (4, 118); (122, 118); (240, 13)]) /\
  chunk_plan 4 249 = [(4, 118); (122, 118); (240, 13)] /\
  zlen Example.long_file = 4 + 249 /\
  emrtd_read_file (prim := Std.primitives) (trx := scripted)
    Example.ksenc Example.ksmac20 Example.ssc_selected true false Example.ef_com_card
  = Some ([], hex_bytes "887022120C06C22C", true, Some Example.ef_com).
Proof.
  split; [|split; [|split]].
  - destruct (emrtd_read_file_two_phases (prim := Std.primitives)
                (trx := recording scripted) [] [] [] false false
                (Example.long_file_card, [])) as (Hrun & _).
    eexists. split; [rewrite Hrun; vm_compute; reflexivity|].
    repeat constructor; vm_compute; reflexivity.
  - vm_compute. reflexivity.
  - vm_compute. reflexivity.
  - destruct (emrtd_read_file_two_phases (prim := Std.primitives) (trx := scripted)
                Example.ksenc Example.ksmac20 Example.ssc_selected true false
                Example.ef_com_card) as (Hrun & _).
    rewrite Hrun. vm_compute. reflexivity.
Defined.

(** C8 as the claim is worded fails in the clear: the chip that
    declares 7 bytes and answers the second request with no bytes gets
    its 4 bytes reported as the file, with [true]. *)
Lemma emrtd_read_file_short_chunk_counterexample :
  emrtd_read_file (prim := Std.primitives) (trx := scripted)
    [] [] [] false false Example.short_chunk_card
  = Some ([], [], true, Some [0x61; 0x05; 0x5F; 0x1F]) /\
  emrtd_get_asn1_data_length [0x61; 0x05; 0x5F; 0x1F] 4 1 = Some 5 /\
  emrtd_get_asn1_field_length [0x61; 0x05; 0x5F; 0x1F] 4 1 = Some 1 /\
  zlen [0x61; 0x05; 0x5F; 0x1F] < 1 + 1 + 5.
Proof. repeat split; vm_compute; reflexivity. Qed.

(** C4 as the claim is worded fails from 256 bytes on: the padded
    message does not fit [message[256]], and the function has no
    result to compare with the MAC of the standard. *)
Lemma retail_mac_long_message_counterexample :
  retail_mac (prim := Std.primitives) Example.kmac (replicate 256 0x00) 256 = None /\
  retail_mac (prim := Std.primitives) Example.kmac (replicate 256 0x00) 256
    <> Some (retail_mac_iso9797 (prim := Std.primitives) Example.kmac (replicate 256 0x00)).
Proof.
  assert (H : retail_mac (prim := Std.primitives) Example.kmac (replicate 256 0x00) 256 = None)
    by (vm_compute; reflexivity).
  split; [exact H|]. rewrite H. discriminate.
Qed.

Lemma emrtd_calculate_check_digit_numeric_witness :
  str_forall mrz_char "L898902c3" /\
  emrtd_calculate_check_digit "L898902c3" = 6 /\
  emrtd_calculate_check_digit "L898902C3" = 6 /\
  emrtd_calculate_check_digit "L898902C<" = 3 /\
  emrtd_compare_check_digit "L898902C3" 9 "6" = Some true.
Proof.
  assert (H1 : str_forall mrz_char "L898902c3") by by_computation.
  assert (H2 : str_forall mrz_char "L898902C3") by by_computation.
  assert (H3 : str_forall mrz_char "L898902C<") by by_computation.
  destruct (emrtd_calculate_check_digit_numeric "L898902c3" H1) as (E1 & _).
  destruct (emrtd_calculate_check_digit_numeric "L898902C3" H2) as (E2 & _ & _ & C2 & _).
  destruct (emrtd_calculate_check_digit_numeric "L898902C<" H3) as (E3 & _).
  split; [exact H1|].
  split; [rewrite E1; vm_compute; reflexivity|].
  split; [rewrite E2; vm_compute; reflexivity|].
  split; [rewrite E3; vm_compute; reflexivity|].
  pose proof (C2 "6"%char ltac:(vm_compute; reflexivity)) as Hc.
  change (Z.of_nat (String.length "L898902C3")) with 9 in Hc.
  rewrite Hc, E2. vm_compute. reflexivity.
Defined.

Lemma emrtd_do_bac_checks_echo_witness :
  emrtd_do_bac (prim := Std.primitives) (trx := scripted)
    Example.documentnumber Example.dob Example.expiry false Example.bac_card_appendix
  = Some ([], false, None).
Proof.
  pose (body := hex_bytes ("46B9342A41396CD7386BF5803104D7CEDC122B9132139BAF2EEDC94EE178534F"
                           +:+ "2F2D235D074D7449")).
  refine (proj1 (emrtd_do_bac_checks_echo (prim := Std.primitives) (trx := scripted)
                   Example.documentnumber Example.dob Example.expiry false
                   Example.bac_card_appendix _ [] _ (Some body)
                   _ _ _ _ _ _ _ _ _
                   (body ++ replicate (Z.to_nat (EMRTD_MAX_FILE_SIZE - zlen body)) 0x00)
                   _ _ _ _ _ _ _ _ _ _ _ _ _) _).
  1-8: by_computation.
  - reflexivity.
  - by_computation.
  - by_computation.
  - by_computation.
Defined.

(** C2 as the claim is worded fails: against the chip that echoes the
    RND.IFD sent in the second block of its cryptogram, the first 8
    bytes of the decrypted block are not RND.IFD (they hold RND.IC,
    masked by the chaining value left over from the encryption), and
    the handshake succeeds and writes counter and session keys. *)
Lemma emrtd_do_bac_first_block_counterexample :
  exists iv1 e_ifd iv2 dec_output session,
    des3_encrypt_cbc (Primitives := Std.primitives) (replicate 8 0x00)
      (Example.kenc ++ replicate 34 0x00) (rng 8 ++ Example.rnd_ic ++ rng 16) 32
      = Some (iv1, e_ifd) /\
    des3_decrypt_cbc (Primitives := Std.primitives) iv1
      (Example.kenc ++ replicate 34 0x00)
      (hex_bytes "46B9342A41396CD7FC68DCFAA923788C5AF35DA4C126CBF823C46174CB350B47") 32
      = Some (iv2, dec_output) /\
    take 8 dec_output <> rng 8 /\
    take 8 (drop 8 dec_output) = rng 8 /\
    emrtd_do_bac (prim := Std.primitives) (trx := scripted)
      Example.documentnumber Example.dob Example.expiry false Example.bac_card_zero
      = Some ([], true, Some session).
Proof.
  do 5 eexists.
  split; [vm_compute; reflexivity|].
  split; [vm_compute; reflexivity|].
  split; [vm_compute; congruence|].
  split; vm_compute; reflexivity.
Qed.

(** * Further properties *)

(** ** Status words *)

Section Exchange.
Context {Card : Type} {trx : Transceiver Card}.

Lemma exchange_commands_transceive (cmd : list Z) (a k u : bool) (card card' : Card)
    (response : list Z) :
  transceive cmd a k u card = (card', Some response) ->
  2 <= zlen response ->
  emrtd_exchange_commands cmd a k u card =
    (let* sw := get_sw response (zlen response) in
     Some (card', bool_decide (sw = 0x9000),
           Some (take (Z.to_nat (zlen response - 2)) response))).
Proof.
  unfold transceive, emrtd_exchange_commands. intros Ht Hlen.
  destruct u; rewrite Ht; rewrite decide_False by lia;
    (destruct (get_sw response (zlen response)) as [sw|]; cbn [obind]; [|done]);
    case_decide; case_bool_decide; done.
Qed.

Lemma get_sw_tail (body : list Z) (sw1 sw2 : Z) :
  zlen body + 2 < 256 ->
  get_sw (body ++ [sw1; sw2]) (zlen (body ++ [sw1; sw2])) = Some (sw1 * 0x0100 + sw2).
Proof.
  intros Hlen. pose proof (zlen_nonneg body) as Hnn.
  rewrite zlen_app. change (zlen [sw1; sw2]) with 2.
  unfold get_sw, u8. rewrite Z.mod_small by lia. rewrite decide_False by lia.
  replace (zlen body + 2 - 2) with (zlen body + 0) by lia.
  rewrite rd_app_r by lia.
  replace (zlen body + 0 + 1) with (zlen body + 1) by lia.
  rewrite rd_app_r by lia. done.
Qed.

(** X1.  A response of 2 to 255 bytes is split into body and status
    word: the body is stored to the caller, whatever the status, and
    the exchange reports success exactly for the status word 90 00. *)
Theorem exchange_commands_status_word (cmd : list Z) (a k u : bool) (card card' : Card)
    (body : list Z) (sw1 sw2 : Z) :
  transceive cmd a k u card = (card', Some (body ++ [sw1; sw2])) ->
  zlen body + 2 < 256 ->
  is_u8 sw1 -> is_u8 sw2 ->
  emrtd_exchange_commands cmd a k u card
    = Some (card', bool_decide (sw1 = 0x90 /\ sw2 = 0x00), Some body).
Proof.
  intros Ht Hlen H1 H2. pose proof (zlen_nonneg body) as Hnn.
  rewrite (exchange_commands_transceive _ _ _ _ _ _ _ Ht)
    by (rewrite zlen_app; change (zlen [sw1; sw2]) with 2; lia).
  rewrite get_sw_tail by done. cbn [obind].
  rewrite zlen_app. change (zlen [sw1; sw2]) with 2.
  replace (zlen body + 2 - 2) with (zlen body) by lia.
  unfold zlen. rewrite Nat2Z.id, take_app_length.
  unfold is_u8 in *. repeat f_equal.
  apply bool_decide_ext. lia.
Qed.

(** X2.  The length of the response reaches [get_sw] as a [uint8_t].
    On a response of 256 or 257 bytes it sees a length below 2 and
    yields 0: the exchange is reported as failed whatever status the
    card sent.  From 258 bytes on the two bytes taken for the status
    word stand 256 bytes before the end. *)
Theorem exchange_commands_length_wraps (cmd : list Z) (a k u : bool) (card card' : Card)
    (response : list Z) :
  transceive cmd a k u card = (card', Some response) ->
  256 <= zlen response < 512 ->
  let body := take (Z.to_nat (zlen response - 2)) response in
  (zlen response < 258 ->
     emrtd_exchange_commands cmd a k u card = Some (card', false, Some body)) /\
  (258 <= zlen response ->
     forall b1 b2,
       rd response (zlen response - 258) = Some b1 ->
       rd response (zlen response - 257) = Some b2 ->
       emrtd_exchange_commands cmd a k u card
         = Some (card', bool_decide (b1 * 0x0100 + b2 = 0x9000), Some body)).
Proof.
  intros Ht Hlen body.
  rewrite (exchange_commands_transceive _ _ _ _ _ _ _ Ht) by lia.
  unfold get_sw, u8. split.
  - intros Hlt. rewrite decide_True by lia. cbn [obind].
    by rewrite bool_decide_false by done.
  - intros Hge b1 b2 Hb1 Hb2. rewrite decide_False by lia.
    replace (zlen response mod 256 - 2) with (zlen response - 258) by lia.
    replace (zlen response - 258 + 1) with (zlen response - 257) by lia.
    rewrite Hb1, Hb2. done.
Qed.

End Exchange.

(** ** Length fields *)

(** X3.  A length field in definite form written in front of [rest] is
    read back by the two decoders: the one yields the length, the other
    the number of bytes the field takes, and what follows the field is
    [rest].  The length [datainlen] they are given for the buffer plays
    no part in the result, but that many bytes go to the log: a length
    the buffer does not have leaves both without defined behaviour. *)
Theorem asn1_length_round_trip (pre rest : list Z) (n datainlen : Z) :
  0 <= n < 2 ^ 24 ->
  let buf := pre ++ enc_length n ++ rest in
  emrtd_get_asn1_data_length buf datainlen (zlen pre)
    = (if decide (0 <= datainlen <= zlen buf) then Some n else None) /\
  emrtd_get_asn1_field_length buf datainlen (zlen pre)
    = (if decide (0 <= datainlen <= zlen buf) then Some (zlen (enc_length n)) else None) /\
  drop (Z.to_nat (zlen pre + zlen (enc_length n))) buf = rest.
Proof.
  intros Hn buf. split; [|split].
  - case_decide as Hlen.
    + by destruct (enc_length_decodes pre rest n datainlen Hn Hlen) as (Hd & _).
    + unfold emrtd_get_asn1_data_length. by rewrite sprint_hex_inrow_None.
  - case_decide as Hlen.
    + by destruct (enc_length_decodes pre rest n datainlen Hn Hlen) as (_ & Hf & _).
    + unfold emrtd_get_asn1_field_length. by rewrite sprint_hex_inrow_None.
  - unfold buf. rewrite app_assoc, <- zlen_app. apply drop_zlen_app.
Qed.

(** ** Files with other length forms *)

Section ReadEdges.
Context {prim : Primitives}.
Context {Card : Type} {trx : Transceiver Card}.

(** X4.  When the second byte of a file is [0x84] or more, both
    length decoders yield their sentinel 0, the number of bytes left to
    read comes out as -3 and the file read stops after its first
    request: it reports success with the four bytes of the probe. *)
Theorem emrtd_read_file_unsupported_length (kenc kmac ssc ssc1 probe : list Z)
    (use_secure use_14b : bool) (card card1 : Card) (l : Z) :
  read_file_chunk kenc kmac ssc use_secure use_14b 0 4 EMRTD_MAX_FILE_SIZE card
    = Some (card1, ssc1, true, probe) ->
  rd probe 1 = Some l ->
  0x84 <= l ->
  emrtd_read_file kenc kmac ssc use_secure use_14b card = Some (card1, ssc1, true, Some probe).
Proof.
  intros Hchunk Hl Hbig. unfold emrtd_read_file. rewrite Hchunk. cbn [obind].
  pose proof (zlen_nonneg probe).
  rewrite emrtd_get_asn1_data_length_eq, emrtd_get_asn1_field_length_eq by lia.
  unfold asn1_data_length_of, asn1_field_length_of. rewrite Hl. cbn [obind].
  rewrite !decide_False by lia. cbn [obind].
  change (Z.to_nat (0 - (3 - 0))) with 0%nat. cbn [read_file_loop].
  by rewrite decide_False by lia.
Qed.

Lemma read_file_chunk_secure_length (kenc kmac ssc ssc' data : list Z) (use_14b : bool)
    (offset toread capacity : Z) (card card' : Card) :
  read_file_chunk kenc kmac ssc true use_14b offset toread capacity card
    = Some (card', ssc', true, data) ->
  zlen data = toread.
Proof.
  unfold read_file_chunk, _emrtd_secure_read_binary_decrypt. osteps.
  all: intros ?; simplify_eq.
  match goal with E : rd_bytes _ 0 toread = Some _ |- _ => by apply rd_bytes_length in E end.
Qed.

(** X5.  For the length byte [0x80] (indefinite form) the decoder
    yields the size of the buffer it is handed, which here is the
    probe: with its four bytes the file read asks for exactly two more
    bytes at offset 4 and returns, so under secure messaging the file
    comes back as its first six bytes. *)
Theorem emrtd_read_file_indefinite_length (kenc kmac ssc ssc1 probe : list Z)
    (use_secure use_14b : bool) (card card1 : Card) :
  read_file_chunk kenc kmac ssc use_secure use_14b 0 4 EMRTD_MAX_FILE_SIZE card
    = Some (card1, ssc1, true, probe) ->
  rd probe 1 = Some 0x80 ->
  zlen probe = 4 ->
  emrtd_read_file kenc kmac ssc use_secure use_14b card =
    (let* '(card2, ssc2, ok, more) :=
       read_file_chunk kenc kmac ssc1 use_secure use_14b 4 2 500 card1 in
     if ok then Some (card2, ssc2, true, Some (probe ++ more))
     else Some (card2, ssc2, false, None)) /\
  (forall card2 ssc2 file,
     use_secure = true ->
     emrtd_read_file kenc kmac ssc use_secure use_14b card = Some (card2, ssc2, true, Some file) ->
     zlen file = 6).
Proof.
  intros Hchunk Hl Hlen.
  assert (Hrun : emrtd_read_file kenc kmac ssc use_secure use_14b card =
    (let* '(card2, ssc2, ok, more) :=
       read_file_chunk kenc kmac ssc1 use_secure use_14b 4 2 500 card1 in
     if ok then Some (card2, ssc2, true, Some (probe ++ more))
     else Some (card2, ssc2, false, None))).
  { unfold emrtd_read_file. rewrite Hchunk. cbn [obind].
    rewrite emrtd_get_asn1_data_length_eq, emrtd_get_asn1_field_length_eq by lia.
    unfold asn1_data_length_of, asn1_field_length_of. rewrite Hl. cbn [obind].
    rewrite decide_False by lia. rewrite decide_True by done.
    rewrite decide_True by lia. cbn [obind]. rewrite Hlen.
    change (Z.to_nat (4 - (3 - 1))) with 2%nat. cbn [read_file_loop].
    rewrite decide_True by lia. rewrite (decide_False (P := 4 - (3 - 1) > 118)) by lia.
    change (4 - (3 - 1)) with 2.
    destruct (read_file_chunk kenc kmac ssc1 use_secure use_14b 4 2 500 card1)
      as [[[[card2 ssc2] ok] more]|] eqn:Hmore; cbn [obind]; [|done].
    destruct ok; [|done].
    assert (zlen more <= 500) as Hcap.
    { revert Hmore. unfold read_file_chunk. destruct use_secure; osteps; by intros [= _ _ _ <-]. }
    rewrite decide_True by (unfold EMRTD_MAX_FILE_SIZE; lia).
    by rewrite decide_False by lia. }
  split; [done|].
  intros card2 ssc2 file -> Hfile. rewrite Hrun in Hfile.
  destruct (read_file_chunk kenc kmac ssc1 true use_14b 4 2 500 card1)
    as [[[[c2 s2] ok] more]|] eqn:Hmore; cbn [obind] in Hfile; [|done].
  destruct ok; [|done]. injection Hfile as <- <- <-.
  apply read_file_chunk_secure_length in Hmore. rewrite zlen_app. lia.
Qed.

End ReadEdges.

(** ** The properties above on concrete exchanges *)

Lemma exchange_commands_status_word_witness :
  emrtd_exchange_commands (trx := scripted) [0x00; 0x84; 0x00; 0x00; 0x08] false true false
    [Some (Example.rnd_ic ++ [0x90; 0x00])]
  = Some ([], true, Some Example.rnd_ic) /\
  emrtd_exchange_commands (trx := scripted) [0x00; 0x84; 0x00; 0x00; 0x08] false true false
    [Some (Example.rnd_ic ++ [0x69; 0x82])]
  = Some ([], false, Some Example.rnd_ic).
Proof.
  split.
  - rewrite (exchange_commands_status_word (trx := scripted)
               [0x00; 0x84; 0x00; 0x00; 0x08] false true false
               [Some (Example.rnd_ic ++ [0x90; 0x00])] [] Example.rnd_ic 0x90 0x00
               eq_refl ltac:(by_computation) ltac:(by_computation) ltac:(by_computation)).
    reflexivity.
  - rewrite (exchange_commands_status_word (trx := scripted)
               [0x00; 0x84; 0x00; 0x00; 0x08] false true false
               [Some (Example.rnd_ic ++ [0x69; 0x82])] [] Example.rnd_ic 0x69 0x82
               eq_refl ltac:(by_computation) ltac:(by_computation) ltac:(by_computation)).
    reflexivity.
Defined.

Lemma exchange_commands_length_wraps_witness :
  emrtd_exchange_commands (trx := scripted) [0x00; 0xB0; 0x00; 0x00; 0xFE] false true false
    [Some (replicate 254 0x00 ++ [0x90; 0x00])]
  = Some ([], false, Some (replicate 254 0x00)).
Proof.
  destruct (exchange_commands_length_wraps (trx := scripted)
              [0x00; 0xB0; 0x00; 0x00; 0xFE] false true false
              [Some (replicate 254 0x00 ++ [0x90; 0x00])] []
              (replicate 254 0x00 ++ [0x90; 0x00])
              eq_refl ltac:(by_computation)) as [H _].
  rewrite H by by_computation. vm_compute. reflexivity.
Defined.

Lemma asn1_length_round_trip_witness :
  emrtd_get_asn1_data_length ([0x30] ++ enc_length 300 ++ [1; 2; 3]) 7 1 = Some 300 /\
  emrtd_get_asn1_field_length ([0x30] ++ enc_length 300 ++ [1; 2; 3]) 7 1 = Some 3 /\
  emrtd_get_asn1_data_length ([0x30] ++ enc_length 300 ++ [1; 2; 3]) 8 1 = None.
Proof.
  destruct (asn1_length_round_trip [0x30] [1; 2; 3] 300 7 ltac:(lia)) as (Hd & Hf & _).
  destruct (asn1_length_round_trip [0x30] [1; 2; 3] 300 8 ltac:(lia)) as (Hd' & _).
  split; [exact Hd|]. split; [exact Hf|exact Hd'].
Defined.

Lemma emrtd_read_file_unsupported_length_witness :
  emrtd_read_file (prim := Std.primitives) (trx := scripted) [] [] [] false false
    [Some [0x60; 0x84; 0x01; 0x02; 0x90; 0x00]; Some [0x03; 0x04; 0x90; 0x00]]
  = Some ([Some [0x03; 0x04; 0x90; 0x00]], [], true, Some [0x60; 0x84; 0x01; 0x02]).
Proof.
  apply (emrtd_read_file_unsupported_length (prim := Std.primitives) (trx := scripted)
           [] [] [] [] [0x60; 0x84; 0x01; 0x02] false false
           [Some [0x60; 0x84; 0x01; 0x02; 0x90; 0x00]; Some [0x03; 0x04; 0x90; 0x00]]
           [Some [0x03; 0x04; 0x90; 0x00]] 0x84); by_computation.
Defined.

Lemma emrtd_read_file_indefinite_length_witness :
  emrtd_read_file (prim := Std.primitives) (trx := scripted) [] [] [] false false
    [Some [0x77; 0x80; 0x30; 0x80; 0x90; 0x00]; Some [0x06; 0x09; 0x90; 0x00]]
  = Some ([], [], true, Some [0x77; 0x80; 0x30; 0x80; 0x06; 0x09]).
Proof.
  destruct (emrtd_read_file_indefinite_length (prim := Std.primitives) (trx := scripted)
              [] [] [] [] [0x77; 0x80; 0x30; 0x80] false false
              [Some [0x77; 0x80; 0x30; 0x80; 0x90; 0x00]; Some [0x06; 0x09; 0x90; 0x00]]
              [Some [0x06; 0x09; 0x90; 0x00]]
              ltac:(by_computation) ltac:(by_computation) ltac:(by_computation)) as [H _].
  rewrite H. vm_compute. reflexivity.
Defined.

(** ** The table of files *)

(** X6.  Both lookups return the first entry of the table that
    carries the tag or the file identifier asked for.  The entry of
    EF_CardSecurity is behind EF_CardAccess, with which it shares the
    tag [0xff], and behind EF_SOD, with which it shares the identifier
    [011D]: neither lookup ever returns it, and the identifier [011D]
    leads to the entry, and the dumper, of EF_SOD. *)
Theorem dg_lookups_first_match :
  (forall tag dg,
     emrtd_tag_to_dg tag = Some dg ->
     dg_tag dg = u8 tag /\ dg_filename dg <> "EF_CardSecurity") /\
  (forall file_id dg,
     emrtd_fileid_to_dg file_id = Some dg ->
     dg_fileid dg = file_id /\ dg_filename dg <> "EF_CardSecurity") /\
  emrtd_fileid_to_dg "011D" = dg_entry EF_SOD /\
  emrtd_tag_to_dg 0xff = dg_entry EF_CardAccess /\
  (dg_dumper <$> emrtd_fileid_to_dg "011D") = Some (Some emrtd_dump_ef_sod_d).
Proof.
  split; [|split; [|split; [|split]]]; try reflexivity.
  - intros tag dg. unfold emrtd_tag_to_dg, dg_table. cbn [dg_first dg_tag].
    repeat (case_bool_decide; [intros [= <-]; by split|]). done.
  - intros file_id dg. unfold emrtd_fileid_to_dg, dg_table. cbn [dg_first dg_fileid].
    repeat (case_bool_decide; [intros [= <-]; by split|]). done.
Qed.

(** X7.  Every entry of the table is found again by its own file
    identifier, except the entry of EF_CardSecurity, and by its own tag,
    except the two PACE files. *)
Theorem dg_table_round_trip (e : emrtd_dg_enum) :
  exists dg,
    dg_entry e = Some dg /\
    (e <> EF_CardSecurity -> emrtd_fileid_to_dg (dg_fileid dg) = Some dg) /\
    (dg_pace dg = false -> emrtd_tag_to_dg (dg_tag dg) = Some dg) /\
    (dg_pace dg = true <-> e = EF_CardAccess \/ e = EF_CardSecurity).
Proof.
  destruct e; (eexists; split; [reflexivity|]);
    (split; [intros ?; first [reflexivity | done]|]);
    (split; [intros ?; first [reflexivity | done]|]);
    (split; [intros H; first [discriminate H | by eauto]
            | intros [?|?]; first [discriminate | reflexivity]]).
Qed.

(** ** MRZ fields *)

Lemma str_rd_cons (c : ascii) (rest : string) (i : Z) :
  0 <= i ->
  str_rd (String c rest) i = if decide (i = 0) then Some c else str_rd rest (i - 1).
Proof.
  intros Hi. unfold str_rd. rewrite decide_True by done.
  case_decide as H0.
  - subst. done.
  - rewrite decide_True by lia.
    replace (Z.to_nat i) with (S (Z.to_nat (i - 1))) by lia. done.
Qed.

Lemma str_rd_Some (s : string) (i : Z) :
  0 <= i < Z.of_nat (String.length s) -> exists c, str_rd s i = Some c.
Proof.
  revert i. induction s as [|c s IH]; intros i Hi; cbn [String.length] in Hi; [lia|].
  rewrite str_rd_cons by lia. case_decide; [by eexists|]. apply IH. lia.
Qed.

Lemma filler_or_other (mrz : string) (p : Z) :
  0 <= p < Z.of_nat (String.length mrz) -> filler_at mrz p \/ other_at mrz p.
Proof.
  intros Hp. destruct (str_rd_Some mrz p Hp) as [c Hc].
  destruct (decide (char_code c = 60)); [left|right]; by exists c.
Qed.

Lemma filler_not_other (mrz : string) (p : Z) : filler_at mrz p -> other_at mrz p -> False.
Proof. intros (c & Hc & H60) (c' & Hc' & Hn). congruence. Qed.

Lemma mrz_determine_length_loop_trims (mrz : string) (offset : Z) (k : nat) :
  0 <= offset ->
  offset + Z.of_nat k - 1 <= Z.of_nat (String.length mrz) ->
  (exists j, 0 <= j < Z.of_nat k - 1 /\ other_at mrz (offset + j)) ->
  exists r,
    mrz_determine_length_loop mrz offset k = Some r /\
    1 <= r <= Z.of_nat k - 1 /\
    other_at mrz (offset + r - 1) /\
    (forall j, r <= j < Z.of_nat k - 1 -> filler_at mrz (offset + j)).
Proof.
  intros Hoff. induction k as [|k IH]; intros Hlen (j & Hj & Hother); [lia|].
  cbn [mrz_determine_length_loop].
  destruct (filler_or_other mrz (offset + Z.of_nat k - 1) ltac:(lia)) as [Hf|Ho].
  - destruct Hf as (c & Hc & H60). rewrite Hc. cbn [obind]. rewrite decide_False by lia.
    destruct IH as (r & Hr & Hrange & Hro & Hfill).
    { lia. }
    { exists j. split; [|done].
      destruct (decide (j = Z.of_nat k - 1)) as [->|]; [|lia].
      exfalso. eapply filler_not_other; [|exact Hother].
      exists c. split; [|done]. rewrite <- Hc. f_equal. lia. }
    exists r. split; [done|]. split; [lia|]. split; [done|].
    intros j' Hj'. destruct (decide (j' = Z.of_nat k - 1)) as [->|].
    + exists c. split; [|done]. rewrite <- Hc. f_equal. lia.
    + apply Hfill. lia.
  - destruct Ho as (c & Hc & H60). rewrite Hc. cbn [obind]. rewrite decide_True by done.
    exists (Z.of_nat k). split; [done|]. split; [lia|]. split.
    + exists c. done.
    + intros j' Hj'. lia.
Qed.

(** X8.  On a field that holds a character other than the filler the
    length found is the field without its trailing fillers: it ends
    behind the last such character. *)
Theorem emrtd_mrz_determine_length_trims (mrz : string) (offset max_length : Z) :
  0 <= offset ->
  offset + max_length <= Z.of_nat (String.length mrz) ->
  (exists j, 0 <= j < max_length /\ other_at mrz (offset + j)) ->
  exists r,
    emrtd_mrz_determine_length mrz offset max_length = Some r /\
    1 <= r <= max_length /\
    other_at mrz (offset + r - 1) /\
    (forall j, r <= j < max_length -> filler_at mrz (offset + j)).
Proof.
  intros Hoff Hlen (j & Hj & Hother).
  unfold emrtd_mrz_determine_length. rewrite decide_True by lia.
  destruct (mrz_determine_length_loop_trims mrz offset (Z.to_nat (max_length + 1)))
    as (r & Hr & Hrange & Hro & Hfill); [done|lia|exists j; split; [lia|done]|].
  exists r. split; [done|]. split; [lia|]. split; [done|].
  intros j' Hj'. apply Hfill. lia.
Qed.

Lemma mrz_determine_length_loop_blank (mrz : string) (offset : Z) (k : nat) :
  (forall j, 0 <= j < Z.of_nat k -> filler_at mrz (offset + j)) ->
  mrz_determine_length_loop mrz offset (S k) =
    (let* c := str_rd mrz (offset - 1) in
     Some (if decide (char_code c <> 60) then 0 else -1)).
Proof.
  induction k as [|k IH]; intros Hfill.
  - cbn [mrz_determine_length_loop]. change (Z.of_nat 0) with 0.
    replace (offset + 0 - 1) with (offset - 1) by lia.
    destruct (str_rd mrz (offset - 1)) as [c|]; cbn [obind]; [|done].
    by case_decide.
  - cbn [mrz_determine_length_loop] in *.
    destruct (Hfill (Z.of_nat k) ltac:(lia)) as (c & Hc & H60).
    replace (offset + Z.of_nat (S k) - 1) with (offset + Z.of_nat k) by lia.
    rewrite Hc. cbn [obind]. rewrite decide_False by lia.
    apply IH. intros j Hj. apply Hfill. lia.
Qed.

Lemma str_rd_take (s : string) : forall (n : nat) (j : Z),
  0 <= j < Z.of_nat n -> str_rd (str_take n s) j = str_rd s j.
Proof.
  induction s as [|c s IH]; intros [|n] j Hj; cbn [str_take]; try done; try lia.
  rewrite !str_rd_cons by lia. case_decide; [done|]. apply IH. lia.
Qed.

Lemma str_rd_None (s : string) (i : Z) :
  Z.of_nat (String.length s) <= i -> str_rd s i = None.
Proof.
  revert i. induction s as [|c s IH]; intros i Hi; cbn [String.length] in Hi.
  - unfold str_rd. case_decide; [|done]. by destruct (Z.to_nat i).
  - rewrite str_rd_cons by lia. rewrite decide_False by lia. apply IH. lia.
Qed.

Lemma str_rd_drop (s : string) : forall (k : nat) (j : Z),
  0 <= j -> str_rd (str_drop k s) j = str_rd s (Z.of_nat k + j).
Proof.
  induction s as [|c s IH]; intros k j Hj.
  - destruct k; cbn [str_drop]; rewrite !str_rd_None by (cbn [String.length]; lia); done.
  - destruct k as [|k]; cbn [str_drop].
    + done.
    + rewrite IH by done. rewrite (str_rd_cons c s (Z.of_nat (S k) + j)) by lia.
      rewrite decide_False by lia. f_equal. lia.
Qed.

Lemma str_forall_rd (P : ascii -> Prop) (s : string) : forall (j : Z) (c : ascii),
  str_forall P s -> str_rd s j = Some c -> P c.
Proof.
  induction s as [|x s IH]; intros j c Hs Hc.
  - unfold str_rd in Hc. case_decide; [|done]. by destruct (Z.to_nat j).
  - assert (0 <= j) as Hj by (unfold str_rd in Hc; by case_decide).
    destruct Hs as [Hx Hs]. rewrite str_rd_cons in Hc by done.
    case_decide; [by injection Hc as <-|]. by eapply IH.
Qed.

(** The characters of a field copied out of an array. *)
Lemma str_rd_bytes_forall (P : ascii -> Prop) (mrz field : string) (offset n : Z) :
  str_rd_bytes mrz offset n = Some field ->
  str_forall P field ->
  forall j, 0 <= j < n -> exists c, str_rd mrz (offset + j) = Some c /\ P c.
Proof.
  unfold str_rd_bytes. case_decide as Hb; [|done]. intros [= <-] Hfield j Hj.
  destruct (str_rd_Some mrz (offset + j) ltac:(lia)) as [c Hc].
  exists c. split; [done|]. apply (str_forall_rd P _ j c Hfield).
  rewrite str_rd_take by lia. rewrite str_rd_drop by lia. rewrite <- Hc. f_equal. lia.
Qed.

Lemma emrtd_mrz_determine_length_blank_run (mrz : string) (offset max_length : Z) :
  0 <= max_length ->
  (forall j, 0 <= j < max_length -> filler_at mrz (offset + j)) ->
  emrtd_mrz_determine_length mrz offset max_length =
    (let* c := str_rd mrz (offset - 1) in
     Some (if decide (char_code c <> 60) then 0 else -1)).
Proof.
  intros Hmax Hfill.
  unfold emrtd_mrz_determine_length. rewrite decide_True by done.
  replace (Z.to_nat (max_length + 1)) with (S (Z.to_nat max_length)) by lia.
  apply mrz_determine_length_loop_blank. intros j Hj. apply Hfill. lia.
Qed.

(** X9.  On a field of fillers only the loop goes on to the character
    in front of the field: the result is 0 when that is no filler, -1
    when it is one too, and there is none to read when the field
    starts the array. *)
Theorem emrtd_mrz_determine_length_blank (mrz field : string) (offset max_length : Z) :
  str_rd_bytes mrz offset max_length = Some field ->
  str_forall (fun c => char_code c = 60) field ->
  emrtd_mrz_determine_length mrz offset max_length =
    (let* c := str_rd mrz (offset - 1) in
     Some (if decide (char_code c <> 60) then 0 else -1)) /\
  (offset = 0 -> emrtd_mrz_determine_length mrz offset max_length = None).
Proof.
  intros Hfield Hfill.
  assert (0 <= max_length) as Hmax.
  { unfold str_rd_bytes in Hfield. case_decide; [lia|done]. }
  pose proof (emrtd_mrz_determine_length_blank_run mrz offset max_length Hmax
                (str_rd_bytes_forall _ _ _ _ _ Hfield Hfill)) as Hrun.
  split; [done|]. intros ->. rewrite Hrun. done.
Qed.

Lemma mrz_determine_separator_loop_last (mrz : string) (offset : Z) (k : nat) :
  0 <= offset ->
  offset + Z.of_nat k + 1 < Z.of_nat (String.length mrz) ->
  exists s,
    mrz_determine_separator_loop mrz offset k = Some s /\
    0 <= s <= Z.of_nat k /\
    (0 < s -> filler_at mrz (offset + s) /\ filler_at mrz (offset + s + 1)) /\
    (forall j, s < j <= Z.of_nat k ->
       ~ (filler_at mrz (offset + j) /\ filler_at mrz (offset + j + 1))).
Proof.
  intros Hoff. induction k as [|k IH]; intros Hlen.
  - exists 0. cbn [mrz_determine_separator_loop]. repeat split; try lia.
  - cbn [mrz_determine_separator_loop].
    destruct (str_rd_Some mrz (offset + Z.of_nat (S k)) ltac:(lia)) as [c Hc].
    destruct (str_rd_Some mrz (offset + Z.of_nat (S k) + 1) ltac:(lia)) as [c' Hc'].
    rewrite Hc. cbn [obind].
    assert (Hnext : forall s,
      mrz_determine_separator_loop mrz offset k = Some s ->
      ~ (filler_at mrz (offset + Z.of_nat (S k)) /\ filler_at mrz (offset + Z.of_nat (S k) + 1)) ->
      0 <= s <= Z.of_nat k ->
      (0 < s -> filler_at mrz (offset + s) /\ filler_at mrz (offset + s + 1)) ->
      (forall j, s < j <= Z.of_nat k ->
         ~ (filler_at mrz (offset + j) /\ filler_at mrz (offset + j + 1))) ->
      exists s',
        mrz_determine_separator_loop mrz offset k = Some s' /\
        0 <= s' <= Z.of_nat (S k) /\
        (0 < s' -> filler_at mrz (offset + s') /\ filler_at mrz (offset + s' + 1)) /\
        (forall j, s' < j <= Z.of_nat (S k) ->
           ~ (filler_at mrz (offset + j) /\ filler_at mrz (offset + j + 1)))).
    { intros s Hs Hno Hrange Hfound Hlater. exists s. split; [done|]. split; [lia|].
      split; [done|]. intros j Hj.
      destruct (decide (j = Z.of_nat (S k))) as [->|]; [done|]. apply Hlater. lia. }
    destruct IH as (s & Hs & Hrange & Hfound & Hlater); [lia|].
    case_decide as H60.
    + rewrite Hc'. cbn [obind]. case_bool_decide as H60'.
      * exists (Z.of_nat (S k)). split; [done|]. split; [lia|]. split.
        -- intros _. split; [by exists c|by exists c'].
        -- intros j Hj. lia.
      * apply (Hnext s); try done.
        intros [_ (c2 & Hc2 & H2)]. congruence.
    + cbn [obind]. apply (Hnext s); try done.
      intros [(c2 & Hc2 & H2) _]. congruence.
Qed.

(** X10.  The separator found is the last position after the first
    of the field at which two fillers stand side by side, 0 when there
    is none: the first character pair of the field is never looked at. *)
Theorem emrtd_mrz_determine_separator_last (mrz : string) (offset max_length : Z) :
  0 <= offset ->
  1 < max_length ->
  offset + max_length < Z.of_nat (String.length mrz) ->
  exists s,
    emrtd_mrz_determine_separator mrz offset max_length = Some s /\
    0 <= s < max_length /\
    (0 < s -> filler_at mrz (offset + s) /\ filler_at mrz (offset + s + 1)) /\
    (forall j, s < j < max_length ->
       ~ (filler_at mrz (offset + j) /\ filler_at mrz (offset + j + 1))).
Proof.
  intros Hoff Hmax Hlen. unfold emrtd_mrz_determine_separator.
  rewrite decide_True by lia.
  destruct (mrz_determine_separator_loop_last mrz offset (Z.to_nat (max_length - 1)))
    as (s & Hs & Hrange & Hfound & Hlater); [done|lia|].
  exists s. split; [done|]. split; [lia|]. split; [done|].
  intros j Hj. apply Hlater. lia.
Qed.

Lemma mrz_replace_pad_loop_spec (newchar : ascii) (data : string) : forall (n : nat),
  (n <= String.length data)%nat ->
  exists out,
    mrz_replace_pad_loop data n newchar = Some out /\
    String.length out = String.length data /\
    (forall i c, str_rd data i = Some c ->
       str_rd out i =
         Some (if decide (i < Z.of_nat n /\ char_code c = 60) then newchar else c)).
Proof.
  induction data as [|d data IH]; intros n Hn.
  - cbn [String.length] in Hn. replace n with 0%nat by lia. exists EmptyString.
    split; [done|]. split; [done|]. intros i c. unfold str_rd. case_decide; [|done].
    by destruct (Z.to_nat i).
  - destruct n as [|n].
    + exists (String d data). split; [done|]. split; [done|].
      intros i c Hc. rewrite Hc.
      assert (0 <= i) by (unfold str_rd in Hc; by case_decide).
      by rewrite decide_False by lia.
    + cbn [mrz_replace_pad_loop]. cbn [String.length] in Hn.
      destruct (IH n ltac:(lia)) as (out & -> & Hlen & Hchars). cbn [obind].
      eexists. split; [done|]. split; [cbn [String.length]; by rewrite Hlen|].
      intros i c Hc.
      assert (0 <= i) as Hi.
      { unfold str_rd in Hc. by case_decide. }
      rewrite str_rd_cons in Hc |- * by done.
      case_decide as H0.
      * injection Hc as <-. subst i. f_equal.
        case_decide; case_decide; try done; lia.
      * rewrite (Hchars _ _ Hc). f_equal.
        case_decide; case_decide; try done; lia.
Qed.

(** X11.  Replacing the filler rewrites exactly the fillers among the
    first [datalen] characters and leaves every other character, and
    the length, as they were. *)
Theorem emrtd_mrz_replace_pad_spec (data : string) (datalen : Z) (newchar : ascii) :
  0 <= datalen <= Z.of_nat (String.length data) ->
  exists out,
    emrtd_mrz_replace_pad data datalen newchar = Some out /\
    String.length out = String.length data /\
    (forall i c, str_rd data i = Some c ->
       str_rd out i =
         Some (if decide (i < datalen /\ char_code c = 60) then newchar else c)) /\
    (char_code newchar <> 60 -> forall i, 0 <= i < datalen -> ~ filler_at out i).
Proof.
  intros Hlen. unfold emrtd_mrz_replace_pad.
  destruct (mrz_replace_pad_loop_spec newchar data (Z.to_nat datalen) ltac:(lia))
    as (out & Hout & Hl & Hchars).
  exists out. split; [done|]. split; [done|].
  assert (Hchars' : forall i c, str_rd data i = Some c ->
    str_rd out i = Some (if decide (i < datalen /\ char_code c = 60) then newchar else c)).
  { intros i c Hc. rewrite (Hchars _ _ Hc). f_equal.
    case_decide; case_decide; try done; lia. }
  split; [done|].
  intros Hnew i Hi (c & Hc & H60).
  destruct (str_rd_Some data i ltac:(lia)) as [c0 Hc0].
  rewrite (Hchars' _ _ Hc0) in Hc. injection Hc as <-.
  case_decide as Hcase; [done|]. apply Hcase. split; [lia|done].
Qed.

(** X12.  On a name field of fillers only the length found is 0 or
    -1, the separator found for it is -1 or -2, which the routine takes
    for a separator, and the length of the first name comes out as -1:
    the copy that follows has no defined behaviour. *)
Theorem emrtd_print_name_blank_field (mrz field : string) (offset max_length : Z)
    (localized : bool) :
  str_rd_bytes mrz offset max_length = Some field ->
  str_forall (fun c => char_code c = 60) field ->
  emrtd_print_name mrz offset max_length localized = None /\
  (forall namelen,
     emrtd_mrz_determine_length mrz offset max_length = Some namelen ->
     exists sep,
       emrtd_mrz_determine_separator mrz offset namelen = Some sep /\
       sep <> 0 /\ namelen - (sep + 2) = -1).
Proof.
  intros Hfield Hfill.
  assert (0 <= max_length) as Hmax.
  { unfold str_rd_bytes in Hfield. case_decide; [lia|done]. }
  pose proof (emrtd_mrz_determine_length_blank_run mrz offset max_length Hmax
                (str_rd_bytes_forall _ _ _ _ _ Hfield Hfill)) as Hrun.
  assert (Hsep : forall namelen,
    emrtd_mrz_determine_length mrz offset max_length = Some namelen ->
    emrtd_mrz_determine_separator mrz offset namelen = Some (namelen - 1) /\
    (namelen = 0 \/ namelen = -1)).
  { intros namelen. rewrite Hrun.
    destruct (str_rd mrz (offset - 1)) as [c|]; cbn [obind]; [|done].
    unfold emrtd_mrz_determine_separator.
    case_decide; intros [= <-]; (split; [by rewrite decide_False by lia|lia]). }
  split.
  - unfold emrtd_print_name.
    destruct (emrtd_mrz_determine_length mrz offset max_length) as [namelen|] eqn:Hlen;
      cbn [obind]; [|done].
    destruct (Hsep namelen eq_refl) as [-> Hcases]. cbn [obind].
    rewrite decide_True by lia.
    unfold str_rd_bytes at 1. by rewrite decide_False by lia.
  - intros namelen Hlen. destruct (Hsep namelen Hlen) as [Hs Hcases].
    exists (namelen - 1). split; [done|]. lia.
Qed.

(** *** Check digits of fields *)

Lemma str_take_length_le (s : string) : forall n,
  (n <= String.length s)%nat -> String.length (str_take n s) = n.
Proof.
  induction s as [|c s IH]; intros [|n] Hn; cbn in *; try done; [lia|].
  rewrite IH; [done|lia].
Qed.

Lemma str_drop_length (s : string) : forall n,
  String.length (str_drop n s) = (String.length s - n)%nat.
Proof. induction s as [|c s IH]; intros [|n]; cbn; try done. Qed.

Lemma str_app_cons (c : ascii) (a b : string) : String c a +:+ b = String c (a +:+ b).
Proof. reflexivity. Qed.

Lemma str_app_nil (b : string) : EmptyString +:+ b = b.
Proof. reflexivity. Qed.

Lemma str_app_length (a b : string) :
  String.length (a +:+ b) = (String.length a + String.length b)%nat.
Proof.
  induction a as [|c a IH]; rewrite ?str_app_cons, ?str_app_nil; cbn [String.length]; [done|].
  by rewrite IH.
Qed.

Lemma str_take_app (a b : string) : str_take (String.length a) (a +:+ b) = a.
Proof.
  induction a as [|c a IH]; rewrite ?str_app_cons, ?str_app_nil; cbn [String.length str_take];
    [by destruct b|].
  by rewrite IH.
Qed.

Lemma str_drop_app (a b : string) : str_drop (String.length a) (a +:+ b) = b.
Proof.
  induction a as [|c a IH]; rewrite ?str_app_cons, ?str_app_nil; cbn [String.length str_drop];
    [by destruct b|].
  done.
Qed.

Lemma str_zeroed_length (n : nat) : String.length (str_zeroed n) = n.
Proof. induction n as [|n IH]; cbn; [done|]. by rewrite IH. Qed.

Lemma str_drop_zeroed (m : nat) : forall n, str_drop n (str_zeroed m) = str_zeroed (m - n).
Proof. induction m as [|m IH]; intros [|n]; cbn; try done. Qed.

Lemma str_rd_bytes_length (s f : string) (off n : Z) :
  str_rd_bytes s off n = Some f -> String.length f = Z.to_nat n.
Proof.
  unfold str_rd_bytes. case_decide as H; [|done]. intros [= <-].
  apply str_take_length_le. rewrite str_drop_length. lia.
Qed.

(** A write into a zero-initialised array behind what it holds. *)
Lemma str_write_zeroed (a b : string) (n : nat) :
  (String.length b <= n)%nat ->
  str_write (a +:+ str_zeroed n) (Z.of_nat (String.length a)) b
    = Some (a +:+ b +:+ str_zeroed (n - String.length b)).
Proof.
  intros Hb. unfold str_write.
  rewrite decide_True by (rewrite str_app_length, str_zeroed_length; lia).
  rewrite Nat2Z.id, str_take_app.
  replace (String.length a + String.length b)%nat
    with (String.length b + String.length a)%nat by lia.
  f_equal. f_equal. f_equal.
  revert b Hb. induction a as [|c a IH]; intros b Hb;
    rewrite ?str_app_cons, ?str_app_nil; cbn [String.length].
  - rewrite Nat.add_0_r. apply str_drop_zeroed.
  - rewrite Nat.add_succ_r. cbn [str_drop]. by apply IH.
Qed.

Lemma c_str_app_zeroed (a : string) (n : nat) :
  str_forall (fun c => char_code c <> 0) a -> c_str (a +:+ str_zeroed n) = a.
Proof.
  induction a as [|c a IH]; rewrite ?str_app_cons, ?str_app_nil; cbn [str_forall c_str].
  - intros _. destruct n; cbn [str_zeroed c_str]; [done|]. by rewrite decide_True by done.
  - intros [Hc Ha]. rewrite decide_False by done. by rewrite IH.
Qed.

Lemma check_digit_range (data : string) :
  str_forall mrz_char data -> 0 <= emrtd_calculate_check_digit data <= 9.
Proof.
  intros Hdata. by destruct (emrtd_calculate_check_digit_spec data Hdata).
Qed.

(** X13.  The check of a field over the MRZ alphabet passes exactly
    when the character behind the field is the decimal digit of the
    field's check digit; a filler in that place never passes. *)
Theorem emrtd_mrz_verify_check_digit_spec (mrz field : string) (offset datalen : Z)
    (expected : ascii) :
  0 <= datalen < 90 ->
  str_rd_bytes mrz offset datalen = Some field ->
  str_forall mrz_char field ->
  str_rd mrz (offset + datalen) = Some expected ->
  emrtd_mrz_verify_check_digit mrz offset datalen
    = Some (bool_decide (char_code expected = 48 + emrtd_calculate_check_digit field)) /\
  0 <= emrtd_calculate_check_digit field <= 9 /\
  (char_code expected = 60 -> emrtd_mrz_verify_check_digit mrz offset datalen = Some false).
Proof.
  intros Hlen Hfield Hmrz Hexp.
  pose proof (check_digit_range field Hmrz) as Hcd.
  pose proof (str_rd_bytes_length _ _ _ _ Hfield) as Hflen.
  assert (Hrun : emrtd_mrz_verify_check_digit mrz offset datalen
    = Some (bool_decide (char_code expected = 48 + emrtd_calculate_check_digit field))).
  { unfold emrtd_mrz_verify_check_digit. rewrite Hfield. cbn [obind].
    pose proof (str_write_zeroed EmptyString field 90 ltac:(lia)) as Hw.
    rewrite !str_app_nil in Hw. cbn [String.length] in Hw. change (Z.of_nat 0) with 0 in Hw.
    rewrite Hw. cbn [obind]. rewrite Hexp. cbn [obind].
    unfold emrtd_compare_check_digit.
    rewrite decide_True
      by (rewrite str_app_length, str_zeroed_length; lia).
    replace (Z.to_nat datalen) with (String.length field) by lia.
    rewrite str_take_app.
    rewrite c_str_mrz by done.
    unfold u8. rewrite Z.mod_small by lia.
    rewrite schar_compare by lia.
    f_equal. apply bool_decide_ext. lia. }
  split; [done|]. split; [done|].
  intros H60. rewrite Hrun. f_equal. apply bool_decide_eq_false. lia.
Qed.

(** *** Dates *)

Lemma strtol10_two_digits (a b : ascii) (rest : string) :
  48 <= char_code a <= 57 -> 48 <= char_code b <= 57 ->
  strtol10 (c_str (String a (String b (String "000" rest))))
    = 10 * (char_code a - 48) + (char_code b - 48).
Proof.
  intros Ha Hb. cbn [c_str].
  rewrite !decide_False by lia. rewrite decide_True by done.
  cbn [strtol10]. unfold is_space. rewrite bool_decide_false by lia.
  unfold strtol10_signed. rewrite !decide_False by lia.
  cbn [strtol10_digits]. rewrite !decide_True by lia. lia.
Qed.

(** Calls on arrays of known shape are run. *)
Ltac run_buffers :=
  repeat first
    [ progress cbn [obind]
    | match goal with
      | |- context [str_write ?a ?b ?c] =>
          let v := eval vm_compute in (str_write a b c) in
          change (str_write a b c) with v
      | |- context [str_rd_bytes ?a ?b ?c] =>
          let v := eval vm_compute in (str_rd_bytes a b c) in
          change (str_rd_bytes a b c) with v
      end ].

(** X14.  A six-character date is printed with a century the code
    makes up: an expiry date always falls into 20xx, any other date
    into 20xx when its two-digit year is below 20 and into 19xx
    otherwise; month and day are copied as they stand. *)
Theorem emrtd_mrz_convert_date_century (mrz : string) (offset : Z) (is_expiry : bool)
    (y1 y2 m1 m2 d1 d2 : ascii) :
  str_rd_bytes mrz offset 6
    = Some (String y1 (String y2 (String m1 (String m2 (String d1 (String d2 EmptyString)))))) ->
  48 <= char_code y1 <= 57 ->
  48 <= char_code y2 <= 57 ->
  let year := 10 * (char_code y1 - 48) + (char_code y2 - 48) in
  emrtd_mrz_convert_date mrz offset (str_zeroed 12) is_expiry false true
    = Some ((if decide (year < 20 \/ is_expiry = true) then "20" else "19")
              +:+ String y1 (String y2 (String "-" (String m1 (String m2
                    (String "-" (String d1 (String d2 (str_zeroed 2))))))))).
Proof.
  intros Hdate Hy1 Hy2 year. unfold emrtd_mrz_convert_date.
  cbn [negb]. rewrite Hdate. run_buffers.
  rewrite (strtol10_two_digits y1 y2 EmptyString) by done. fold year.
  case_decide; run_buffers; reflexivity.
Qed.

(** X15.  A date of six characters is accepted exactly when the
    digits of its month give 1 to 12 and those of its day 1 to 31: the
    day is not held against the month, and the two characters of the
    year are not looked at.  Any other length is refused. *)
Theorem validate_date_spec (y1 y2 m1 m2 d1 d2 : ascii) (rest : string) (datalen : Z) :
  48 <= char_code m1 <= 57 -> 48 <= char_code m2 <= 57 ->
  48 <= char_code d1 <= 57 -> 48 <= char_code d2 <= 57 ->
  let data := String y1 (String y2 (String m1 (String m2 (String d1 (String d2 rest))))) in
  let month := 10 * (char_code m1 - 48) + (char_code m2 - 48) in
  let day := 10 * (char_code d1 - 48) + (char_code d2 - 48) in
  validate_date data 6 = Some (bool_decide (1 <= month <= 12 /\ 1 <= day <= 31)) /\
  (datalen <> 6 -> validate_date data datalen = Some false).
Proof.
  intros Hm1 Hm2 Hd1 Hd2 data month day. split.
  - unfold validate_date. rewrite decide_False by (intros H; by apply H).
    assert (str_rd_bytes data 2 2 = Some (String m1 (String m2 EmptyString))) as ->.
    { unfold str_rd_bytes, data. cbn [String.length]. by rewrite decide_True by lia. }
    assert (str_rd_bytes data 4 2 = Some (String d1 (String d2 EmptyString))) as ->.
    { unfold str_rd_bytes, data. cbn [String.length]. by rewrite decide_True by lia. }
    run_buffers.
    rewrite !(strtol10_two_digits _ _ (String "000" EmptyString)) by done. fold month day.
    f_equal. repeat case_bool_decide; cbn [negb orb]; try done; lia.
  - intros Hn. unfold validate_date. by rewrite decide_True by done.
Qed.

(** *** Names *)

Lemma str_app_assoc (a b c : string) : (a +:+ b) +:+ c = a +:+ (b +:+ c).
Proof.
  induction a as [|x a IH]; rewrite ?str_app_cons, ?str_app_nil; [done|]. by rewrite IH.
Qed.

Lemma str_rd_app (a b : string) (i : Z) :
  0 <= i ->
  str_rd (a +:+ b) i =
    if decide (i < Z.of_nat (String.length a)) then str_rd a i
    else str_rd b (i - Z.of_nat (String.length a)).
Proof.
  revert i. induction a as [|x a IH]; intros i Hi; rewrite ?str_app_cons, ?str_app_nil.
  - cbn [String.length]. rewrite decide_False by lia. f_equal. lia.
  - cbn [String.length]. rewrite !str_rd_cons by done.
    destruct (decide (i = 0)) as [->|Hne].
    + by rewrite decide_True by lia.
    + rewrite IH by lia. repeat case_decide; try lia; try done. f_equal. lia.
Qed.

Lemma str_rd_bytes_app (a b c : string) :
  str_rd_bytes (a +:+ b +:+ c) (Z.of_nat (String.length a)) (Z.of_nat (String.length b))
    = Some b.
Proof.
  unfold str_rd_bytes. rewrite decide_True by (rewrite !str_app_length; lia).
  by rewrite !Nat2Z.id, str_drop_app, str_take_app.
Qed.

Lemma no_double_filler_at (s : string) (i : Z) :
  no_double_filler s = true -> ~ (filler_at s i /\ filler_at s (i + 1)).
Proof.
  revert i. induction s as [|a s IH]; intros i Hs [(c & Hc & H60) (c' & Hc' & H60')].
  - unfold str_rd in Hc. case_decide; [|done]. by destruct (Z.to_nat i).
  - assert (0 <= i) as Hi by (unfold str_rd in Hc; by case_decide).
    cbn [no_double_filler] in Hs. apply andb_true_iff in Hs as [Hhead Hrest].
    rewrite str_rd_cons in Hc by done. rewrite str_rd_cons in Hc' by lia.
    rewrite decide_False in Hc' by lia. replace (i + 1 - 1) with i in Hc' by lia.
    destruct (decide (i = 0)) as [->|Hne].
    + injection Hc as <-. destruct s as [|b s]; [done|].
      rewrite str_rd_cons, decide_True in Hc' by done. injection Hc' as <-.
      unfold is_filler in Hhead. by rewrite !bool_decide_true in Hhead by done.
    + apply (IH (i - 1) Hrest). split; [by exists c|].
      exists c'. split; [|done]. rewrite <- Hc'. f_equal. lia.
Qed.

Lemma name_part_ends (s : string) :
  name_part s = true ->
  (1 <= String.length s)%nat /\ other_at s 0 /\
  other_at s (Z.of_nat (String.length s) - 1) /\
  no_double_filler s = true /\ str_forall (fun c => char_code c <> 0) s.
Proof.
  unfold name_part. intros H.
  apply andb_true_iff in H as [H Hnul]. apply andb_true_iff in H as [Hends Hdouble].
  destruct (str_rd s 0) as [a|] eqn:Ha; [|done].
  destruct (str_rd s (Z.of_nat (String.length s) - 1)) as [z|] eqn:Hz; [|done].
  apply andb_true_iff in Hends as [Hfirst Hlast].
  unfold is_filler in *. apply negb_true_iff, bool_decide_eq_false in Hfirst, Hlast.
  split; [destruct s; [done|cbn [String.length]; lia]|].
  split; [by exists a|]. split; [by exists z|]. split; [done|].
  apply negb_true_iff in Hnul. clear -Hnul.
  induction s as [|c s IH]; cbn [str_forall str_has_nul] in *; [done|].
  apply orb_false_iff in Hnul as [Hc Hs]. apply bool_decide_eq_false in Hc. auto.
Qed.

Lemma mrz_replace_pad_loop_app (newchar : ascii) (x y : string) (m : nat) :
  mrz_replace_pad_loop (x +:+ y) (String.length x + m) newchar =
    (let* y' := mrz_replace_pad_loop y m newchar in
     Some (str_map (fun c => if decide (char_code c = 60) then newchar else c) x +:+ y')).
Proof.
  induction x as [|c x IH]; rewrite ?str_app_cons, ?str_app_nil;
    cbn [String.length Nat.add str_map].
  - by destruct (mrz_replace_pad_loop y m newchar).
  - cbn [mrz_replace_pad_loop]. rewrite IH.
    by destruct (mrz_replace_pad_loop y m newchar).
Qed.

Lemma mrz_replace_pad_loop_zeroed (newchar : ascii) (n : nat) : forall m,
  (m <= n)%nat -> mrz_replace_pad_loop (str_zeroed n) m newchar = Some (str_zeroed n).
Proof.
  induction n as [|n IH]; intros [|m] Hm; cbn [str_zeroed mrz_replace_pad_loop]; try done; [lia|].
  rewrite IH by lia. cbn [obind]. by rewrite decide_False by done.
Qed.

Lemma str_map_app (f : ascii -> ascii) (a b : string) :
  str_map f (a +:+ b) = str_map f a +:+ str_map f b.
Proof.
  induction a as [|c a IH]; rewrite ?str_app_cons, ?str_app_nil; cbn [str_map]; [done|].
  by rewrite IH, str_app_cons.
Qed.

Lemma spaced_no_nul (s : string) :
  str_forall (fun c => char_code c <> 0) s ->
  str_forall (fun c => char_code c <> 0) (spaced s).
Proof.
  unfold spaced. induction s as [|c s IH]; cbn [str_forall str_map]; [done|].
  intros [Hc Hs]. split; [|auto]. by case_decide.
Qed.

Lemma str_forall_app (P : ascii -> Prop) (a b : string) :
  str_forall P a -> str_forall P b -> str_forall P (a +:+ b).
Proof.
  induction a as [|c a IH]; rewrite ?str_app_cons, ?str_app_nil; cbn [str_forall]; [done|].
  intros [? ?] ?. auto.
Qed.

Lemma printed_app_zeroed (a : string) (n : nat) :
  str_forall (fun c => char_code c <> 0) a ->
  printed (a +:+ str_zeroed (S n)) = Some a.
Proof.
  intros Ha. unfold printed.
  assert (str_has_nul (a +:+ str_zeroed (S n)) = true) as ->.
  { clear Ha. induction a as [|c a IH]; rewrite ?str_app_cons, ?str_app_nil.
    - done.
    - cbn [str_has_nul]. rewrite IH. by destruct (bool_decide _). }
  by rewrite c_str_app_zeroed.
Qed.

(** X16.  A name field [SURNAME<<GIVEN<NAMES<<<] is printed as
    [GIVEN NAMES SURNAME]: the part behind the last pair of fillers
    comes first, the part in front of it last, single fillers inside
    the parts become blanks and the trailing fillers are dropped. *)
Theorem emrtd_print_name_reorders (pre surname given fill post : string)
    (localized : bool) :
  name_part surname = true ->
  name_part given = true ->
  str_forall (fun c => char_code c = 60) fill ->
  (1 <= String.length (fill +:+ post))%nat ->
  (String.length surname + 2 + String.length given <= 100)%nat ->
  let mrz := pre +:+ surname +:+ "<<" +:+ given +:+ fill +:+ post in
  let offset := Z.of_nat (String.length pre) in
  let max_length :=
    Z.of_nat (String.length surname + 2 + String.length given + String.length fill) in
  emrtd_print_name mrz offset max_length localized
    = Some (if localized then "Legal Name (Localized): " else "Legal Name............: ",
            spaced given +:+ " " +:+ spaced surname).
Proof.
  intros Hsur Hgiv Hfill Hpost Hcap mrz offset max_length.
  destruct (name_part_ends _ Hsur) as (HS & Hs0 & Hsz & Hsd & Hsn).
  destruct (name_part_ends _ Hgiv) as (HG & Hg0 & Hgz & Hgd & Hgn).
  set (S_ := Z.of_nat (String.length surname)) in *.
  set (G_ := Z.of_nat (String.length given)) in *.
  set (F_ := Z.of_nat (String.length fill)).
  assert (Hlen : Z.of_nat (String.length mrz) =
            offset + S_ + 2 + G_ + Z.of_nat (String.length (fill +:+ post))).
  { unfold mrz, offset, S_, G_. rewrite !str_app_length. cbn [String.length]. lia. }
  assert (Hfp : F_ <= Z.of_nat (String.length (fill +:+ post))).
  { unfold F_. rewrite str_app_length. lia. }
  (* the characters of the array, region by region *)
  assert (P1 : forall i, 0 <= i < S_ -> str_rd mrz (offset + i) = str_rd surname i).
  { intros i Hi. unfold mrz. rewrite str_rd_app by (unfold offset; lia).
    rewrite decide_False by (unfold offset; lia).
    replace (offset + i - Z.of_nat (String.length pre)) with i by (unfold offset; lia).
    rewrite str_rd_app by lia. by rewrite decide_True by (unfold S_ in Hi; lia). }
  assert (P2 : forall i, 0 <= i < 2 -> filler_at mrz (offset + S_ + i)).
  { intros i Hi. unfold mrz. exists "<"%char. split; [|done].
    rewrite str_rd_app by (unfold offset, S_; lia).
    rewrite decide_False by (unfold offset, S_; lia).
    replace (offset + S_ + i - Z.of_nat (String.length pre)) with (S_ + i)
      by (unfold offset; lia).
    rewrite str_rd_app by (unfold S_; lia). rewrite decide_False by (unfold S_; lia).
    replace (S_ + i - Z.of_nat (String.length surname)) with i by (unfold S_; lia).
    rewrite str_rd_app by lia. cbn [String.length]. rewrite decide_True by lia.
    destruct (decide (i = 0)) as [->|]; [done|]. by replace i with 1 by lia. }
  assert (P3 : forall i, 0 <= i < G_ -> str_rd mrz (offset + S_ + 2 + i) = str_rd given i).
  { intros i Hi. unfold mrz.
    rewrite str_rd_app by (unfold offset, S_; lia).
    rewrite decide_False by (unfold offset, S_; lia).
    replace (offset + S_ + 2 + i - Z.of_nat (String.length pre)) with (S_ + 2 + i)
      by (unfold offset; lia).
    rewrite str_rd_app by (unfold S_; lia). rewrite decide_False by (unfold S_; lia).
    replace (S_ + 2 + i - Z.of_nat (String.length surname)) with (2 + i) by (unfold S_; lia).
    rewrite str_rd_app by lia. cbn [String.length]. rewrite decide_False by lia.
    replace (2 + i - Z.of_nat 2) with i by lia.
    rewrite str_rd_app by lia. by rewrite decide_True by (unfold G_ in Hi; lia). }
  assert (P4 : forall i, 0 <= i < F_ -> filler_at mrz (offset + S_ + 2 + G_ + i)).
  { intros i Hi.
    replace mrz with ((pre +:+ surname +:+ "<<" +:+ given) +:+ fill +:+ post)
      by (unfold mrz; by rewrite !str_app_assoc).
    unfold filler_at. rewrite str_rd_app by (unfold offset, S_, G_; lia).
    rewrite decide_False
      by (rewrite !str_app_length; cbn [String.length]; unfold offset, S_, G_; lia).
    rewrite str_rd_app
      by (rewrite !str_app_length; cbn [String.length]; unfold offset, S_, G_; lia).
    rewrite decide_True
      by (rewrite !str_app_length; cbn [String.length]; unfold offset, S_, G_, F_ in *; lia).
    replace (offset + S_ + 2 + G_ + i
             - Z.of_nat (String.length (pre +:+ surname +:+ "<<" +:+ given)))
      with i by (rewrite !str_app_length; cbn [String.length]; unfold offset, S_, G_; lia).
    clear -Hfill Hi. unfold F_ in Hi. revert i Hi.
    induction fill as [|c fill IH]; intros i Hi; cbn [String.length] in Hi; [lia|].
    destruct Hfill as [Hc Hrest]. rewrite str_rd_cons by lia.
    case_decide; [by exists c|]. apply IH; [done|lia]. }
  assert (Hglast : other_at mrz (offset + S_ + 2 + G_ - 1)).
  { destruct Hgz as (c & Hc & Hn). exists c. split; [|done].
    replace (offset + S_ + 2 + G_ - 1) with (offset + S_ + 2 + (G_ - 1)) by lia.
    rewrite P3 by (unfold G_; lia). done. }
  assert (Hgfirst : other_at mrz (offset + S_ + 2)).
  { destruct Hg0 as (c & Hc & Hn). exists c. split; [|done].
    replace (offset + S_ + 2) with (offset + S_ + 2 + 0) by lia.
    rewrite P3 by (unfold G_; lia). done. }
  (* the length of the name *)
  assert (Hnamelen : emrtd_mrz_determine_length mrz offset max_length = Some (S_ + 2 + G_)).
  { unfold emrtd_mrz_determine_length. rewrite decide_True by lia.
    destruct (mrz_determine_length_loop_trims mrz offset (Z.to_nat (max_length + 1)))
      as (r & Hr & Hrange & Hro & Hrf).
    - unfold offset. lia.
    - unfold max_length, S_, G_, F_ in *. lia.
    - exists (S_ + 2 + G_ - 1). split; [unfold max_length, S_, G_; lia|].
      by replace (offset + (S_ + 2 + G_ - 1)) with (offset + S_ + 2 + G_ - 1) by lia.
    - rewrite Hr. f_equal.
      destruct (decide (r = S_ + 2 + G_)) as [|Hne]; [done|]. exfalso.
      destruct (decide (r < S_ + 2 + G_)).
      + eapply filler_not_other; [|exact Hglast].
        replace (offset + S_ + 2 + G_ - 1) with (offset + (S_ + 2 + G_ - 1)) by lia.
        apply Hrf. unfold max_length, S_, G_ in *. lia.
      + eapply filler_not_other; [|exact Hro].
        replace (offset + r - 1) with (offset + S_ + 2 + G_ + (r - 1 - (S_ + 2 + G_))) by lia.
        apply P4. unfold max_length, S_, G_, F_ in *. lia. }
  (* the separator *)
  assert (Hsep : emrtd_mrz_determine_separator mrz offset (S_ + 2 + G_) = Some S_).
  { unfold emrtd_mrz_determine_separator. rewrite decide_True by (unfold S_, G_; lia).
    destruct (mrz_determine_separator_loop_last mrz offset (Z.to_nat (S_ + 2 + G_ - 1)))
      as (s & Hs & Hrange & Hfound & Hlater).
    - unfold offset. lia.
    - unfold S_, G_ in *. lia.
    - rewrite Hs. f_equal.
      destruct (decide (s = S_)) as [|Hne]; [done|]. exfalso.
      destruct (decide (s < S_)).
      + apply (Hlater S_); [unfold S_, G_ in *; lia|]. split.
        * replace (offset + S_) with (offset + S_ + 0) by lia. apply P2. lia.
        * apply P2. lia.
      + destruct Hfound as [Hf1 Hf2]; [unfold S_ in *; lia|].
        destruct (decide (s = S_ + 1)) as [->|].
        { eapply filler_not_other; [|exact Hgfirst].
          by replace (offset + S_ + 2) with (offset + (S_ + 1) + 1) by lia. }
        destruct (decide (s = S_ + 2 + G_ - 1)) as [->|].
        { eapply filler_not_other; [|exact Hglast].
          by replace (offset + S_ + 2 + G_ - 1) with (offset + (S_ + 2 + G_ - 1)) by lia. }
        apply (no_double_filler_at given (s - S_ - 2) Hgd).
        unfold filler_at in *.
        rewrite <- !P3 by (unfold S_, G_ in *; lia).
        replace (offset + S_ + 2 + (s - S_ - 2)) with (offset + s) by lia.
        replace (offset + S_ + 2 + (s - S_ - 2 + 1)) with (offset + s + 1) by lia.
        done. }
  (* the copies *)
  unfold emrtd_print_name. rewrite Hnamelen. cbn [obind]. rewrite Hsep. cbn [obind].
  rewrite decide_True by (unfold S_; lia).
  replace (S_ + 2 + G_ - (S_ + 2)) with G_ by lia.
  subst S_ G_.
  assert (str_rd_bytes mrz (offset + Z.of_nat (String.length surname) + 2)
            (Z.of_nat (String.length given)) = Some given) as ->.
  { replace mrz with ((pre +:+ surname +:+ "<<") +:+ given +:+ fill +:+ post)
      by (unfold mrz; by rewrite !str_app_assoc).
    replace (offset + Z.of_nat (String.length surname) + 2)
      with (Z.of_nat (String.length (pre +:+ surname +:+ "<<")))
      by (rewrite !str_app_length; cbn [String.length]; unfold offset; lia).
    apply str_rd_bytes_app. }
  cbn [obind].
  pose proof (str_write_zeroed EmptyString given 100 ltac:(lia)) as Hw1.
  rewrite !str_app_nil in Hw1. cbn [String.length] in Hw1. change (Z.of_nat 0) with 0 in Hw1.
  rewrite Hw1. cbn [obind].
  rewrite (str_write_zeroed given " " (100 - String.length given))
    by (cbn [String.length]; lia).
  cbn [obind String.length].
  assert (str_rd_bytes mrz offset (Z.of_nat (String.length surname)) = Some surname) as ->.
  { unfold mrz. apply str_rd_bytes_app. }
  cbn [obind].
  rewrite <- (str_app_assoc given " ").
  replace (Z.of_nat (String.length given) + 1)
    with (Z.of_nat (String.length (given +:+ " ")))
    by (rewrite str_app_length; cbn [String.length]; lia).
  rewrite str_write_zeroed by lia. cbn [obind].
  rewrite <- (str_app_assoc (given +:+ " ") surname).
  unfold emrtd_mrz_replace_pad.
  replace (Z.to_nat (Z.of_nat (String.length surname) + 2 + Z.of_nat (String.length given)))
    with (String.length ((given +:+ " ") +:+ surname) + 1)%nat
    by (rewrite !str_app_length; cbn [String.length]; lia).
  rewrite mrz_replace_pad_loop_app.
  rewrite mrz_replace_pad_loop_zeroed by lia. cbn [obind].
  fold (spaced ((given +:+ " ") +:+ surname)).
  replace (100 - String.length given - 1 - String.length surname)%nat
    with (S (100 - String.length given - 2 - String.length surname)) by lia.
  rewrite printed_app_zeroed.
  - cbn [obind]. unfold spaced. rewrite !str_map_app, str_app_assoc. cbn [str_map].
    by rewrite decide_False by done.
  - apply spaced_no_nul. apply str_forall_app; [apply str_forall_app|]; done.
Qed.

(** *** The properties above on the specimen *)

Lemma emrtd_mrz_determine_length_trims_witness :
  exists r,
    emrtd_mrz_determine_length Specimen.mrz 5 38 = Some r /\
    1 <= r <= 38 /\
    other_at Specimen.mrz (5 + r - 1) /\
    (forall j, r <= j < 38 -> filler_at Specimen.mrz (5 + j)).
Proof.
  apply (emrtd_mrz_determine_length_trims Specimen.mrz 5 38); [lia|by_computation|].
  exists 0. split; [lia|]. exists "E"%char. split; by_computation.
Defined.

Lemma emrtd_mrz_determine_length_blank_witness :
  emrtd_mrz_determine_length Specimen.mrz 25 19 = Some 0.
Proof.
  destruct (emrtd_mrz_determine_length_blank Specimen.mrz (Specimen.fill +:+ "<") 25 19
              ltac:(by_computation) ltac:(by_computation)) as [H _].
  rewrite H. reflexivity.
Defined.

Lemma emrtd_mrz_determine_separator_last_witness :
  exists s,
    emrtd_mrz_determine_separator Specimen.mrz 5 20 = Some s /\
    0 <= s < 20 /\
    (0 < s -> filler_at Specimen.mrz (5 + s) /\ filler_at Specimen.mrz (5 + s + 1)) /\
    (forall j, s < j < 20 ->
       ~ (filler_at Specimen.mrz (5 + j) /\ filler_at Specimen.mrz (5 + j + 1))).
Proof.
  apply (emrtd_mrz_determine_separator_last Specimen.mrz 5 20); by_computation.
Defined.

Lemma emrtd_mrz_replace_pad_spec_witness :
  exists out,
    emrtd_mrz_replace_pad "ANNA<MARIA<<" 10 " " = Some out /\
    String.length out = 12%nat.
Proof.
  destruct (emrtd_mrz_replace_pad_spec "ANNA<MARIA<<" 10 " " ltac:(by_computation))
    as (out & Hout & Hlen & _).
  exists out. split; [exact Hout|exact Hlen].
Defined.

Lemma emrtd_print_name_reorders_witness :
  emrtd_print_name Specimen.mrz 5 38 false
    = Some ("Legal Name............: ", "ANNA MARIA ERIKSSON").
Proof.
  exact (emrtd_print_name_reorders Specimen.pre Specimen.surname Specimen.given
           Specimen.fill ("<" +:+ Specimen.line2) false eq_refl eq_refl
           ltac:(by_computation) ltac:(by_computation) ltac:(by_computation)).
Defined.

Lemma emrtd_print_name_blank_field_witness :
  emrtd_print_name Specimen.mrz 25 19 false = None.
Proof.
  apply (emrtd_print_name_blank_field Specimen.mrz (Specimen.fill +:+ "<") 25 19 false);
    by_computation.
Defined.

Lemma emrtd_mrz_verify_check_digit_spec_witness :
  emrtd_mrz_verify_check_digit Specimen.mrz 44 9 = Some true.
Proof.
  destruct (emrtd_mrz_verify_check_digit_spec Specimen.mrz "L898902C3" 44 9 "6"
              ltac:(lia) ltac:(by_computation) ltac:(by_computation) ltac:(by_computation))
    as [H _].
  rewrite H. vm_compute. reflexivity.
Defined.

Lemma emrtd_mrz_convert_date_century_witness :
  emrtd_mrz_convert_date Specimen.mrz 57 (str_zeroed 12) false false true
    = Some ("1974-08-12" +:+ str_zeroed 2) /\
  emrtd_mrz_convert_date Specimen.mrz 65 (str_zeroed 12) true false true
    = Some ("2012-04-15" +:+ str_zeroed 2).
Proof.
  split.
  - rewrite (emrtd_mrz_convert_date_century Specimen.mrz 57 false "7" "4" "0" "8" "1" "2"
               ltac:(by_computation) ltac:(by_computation) ltac:(by_computation)).
    vm_compute. reflexivity.
  - rewrite (emrtd_mrz_convert_date_century Specimen.mrz 65 true "1" "2" "0" "4" "1" "5"
               ltac:(by_computation) ltac:(by_computation) ltac:(by_computation)).
    vm_compute. reflexivity.
Defined.

Lemma validate_date_spec_witness :
  validate_date "740812" 6 = Some true /\
  validate_date "740231" 6 = Some true /\
  validate_date "741301" 6 = Some false.
Proof.
  split; [|split].
  - destruct (validate_date_spec "7" "4" "0" "8" "1" "2" EmptyString 6
                ltac:(by_computation) ltac:(by_computation)
                ltac:(by_computation) ltac:(by_computation)) as [H _].
    etransitivity; [exact H|]. vm_compute. reflexivity.
  - destruct (validate_date_spec "7" "4" "0" "2" "3" "1" EmptyString 6
                ltac:(by_computation) ltac:(by_computation)
                ltac:(by_computation) ltac:(by_computation)) as [H _].
    etransitivity; [exact H|]. vm_compute. reflexivity.
  - destruct (validate_date_spec "7" "4" "1" "3" "0" "1" EmptyString 6
                ltac:(by_computation) ltac:(by_computation)
                ltac:(by_computation) ltac:(by_computation)) as [H _].
    etransitivity; [exact H|]. vm_compute. reflexivity.
Defined.

(** ** Dumpers *)

Lemma asn1_field_length_range (datain : list Z) (datainlen offset f : Z) :
  emrtd_get_asn1_field_length datain datainlen offset = Some f -> 0 <= f <= 4.
Proof.
  intros H. apply emrtd_get_asn1_field_length_inv in H as [_ H]. revert H.
  unfold asn1_field_length_of. destruct (rd datain offset); cbn [obind]; [|done].
  repeat case_decide; intros [= <-]; lia.
Qed.

(** X17.  [emrtd_dump_ef_sod] saves the value of the outermost
    element of the file, and reports [PM3_ESOFT] when it has done so:
    the only return of [PM3_SUCCESS] stands behind a test on the length
    of the length field, which is 4 at most, so it is never taken. *)
Theorem emrtd_dump_ef_sod_reports_failure (t : Z) (v rest : list Z) :
  zlen v < 2 ^ 24 ->
  let file := [t] ++ enc_length (zlen v) ++ v ++ rest in
  emrtd_dump_ef_sod file (zlen file)
    = Some (PM3_ESOFT, [Build_saved_file "EF_SOD" ".p7b" v]) /\
  (forall file_contents file_length st saved,
     emrtd_dump_ef_sod file_contents file_length = Some (st, saved) ->
     st = PM3_ESOFT /\ length saved = 1%nat).
Proof.
  intros Hv file. pose proof (zlen_nonneg v) as Hnn. split.
  - unfold emrtd_dump_ef_sod.
    destruct (enc_length_decodes [t] (v ++ rest) (zlen v) (zlen file) ltac:(lia))
      as (Hd & Hf & Hrange).
    { fold file. pose proof (zlen_nonneg file). lia. }
    change (zlen [t]) with 1 in Hd, Hf. fold file in Hd, Hf.
    rewrite Hf, Hd. cbn [obind].
    rewrite decide_False by (unfold EMRTD_MAX_FILE_SIZE; lia).
    change (dg_entry EF_SOD) with (dg_table !! 17%nat). cbn [dg_table lookup list_lookup obind].
    cbn [dg_filename].
    assert (rd_bytes file (zlen (enc_length (zlen v)) + 1) (zlen v) = Some v) as ->; [|done].
    unfold file. rewrite app_assoc.
    replace (zlen (enc_length (zlen v)) + 1) with (zlen ([t] ++ enc_length (zlen v)))
      by (rewrite zlen_app; change (zlen [t]) with 1; lia).
    set (head := [t] ++ enc_length (zlen v)).
    pose proof (zlen_nonneg rest). pose proof (zlen_nonneg head).
    rewrite rd_bytes_Some by (rewrite ?zlen_app; lia).
    rewrite drop_zlen_app. unfold zlen. by rewrite Nat2Z.id, take_app_length.
  - intros file_contents file_length st saved. unfold emrtd_dump_ef_sod.
    destruct (emrtd_get_asn1_field_length file_contents file_length 1) as [f|] eqn:Hf;
      cbn [obind]; [|done].
    apply asn1_field_length_range in Hf.
    destruct (emrtd_get_asn1_data_length file_contents file_length 1); cbn [obind]; [|done].
    rewrite decide_False by (unfold EMRTD_MAX_FILE_SIZE; lia).
    destruct (dg_entry EF_SOD); cbn [obind]; [|done].
    destruct (rd_bytes file_contents (f + 1) _); cbn [obind]; [|done].
    by intros [= <- <-].
Qed.




Lemma find_element_size (tag1 tag2 : Z) (twobytetag : bool) (skip : Z)
    (es : list lds_element) (v : list Z) :
  find_element tag1 tag2 twobytetag skip es = Some v -> zlen v <= zlen (enc_elements es).
Proof.
  unfold find_element. intros H.
  apply fmap_Some in H as (e & He & ->).
  apply list_elem_of_lookup_2 in He. apply list_elem_of_filter in He as [_ He].
  clear -He. induction es as [|e' es IH]; [by apply elem_of_nil in He|].
  rewrite enc_elements_cons, zlen_app.
  pose proof (zlen_nonneg (enc_element e')). pose proof (zlen_nonneg (enc_elements es)).
  apply elem_of_cons in He as [->|He].
  - unfold enc_element. rewrite !zlen_app.
    pose proof (zlen_nonneg (el_tag e')). pose proof (zlen_nonneg (enc_length (zlen (el_value e')))).
    lia.
  - specialize (IH He). lia.
Qed.

(** X19.  On a file of well-formed elements the dumpers of EF_DG5 and
    EF_DG7 save the value of the first element tagged [5F 40]
    (respectively [5F 42]) inside the outer element, whole, under a
    suffix taken from its first byte; without such an element they
    save nothing and report [PM3_ESOFT]. *)
Theorem emrtd_dump_ef_dg5_dg7_save_tagged_value (outer : lds_element)
    (es : list lds_element) :
  wf_element outer ->
  Forall wf_element es ->
  el_value outer = enc_elements es ->
  zlen (enc_element outer) <= EMRTD_MAX_FILE_SIZE ->
  let file := enc_element outer in
  let dump name tag2 :=
    match find_element 0x5F tag2 true 0 es with
    | None => Some (PM3_ESOFT, [])
    | Some v =>
        let* first := rd v 0 in
        Some (PM3_SUCCESS, [Build_saved_file name (image_suffix first) v])
    end in
  emrtd_dump_ef_dg5 file (zlen file) = dump "EF_DG5" 0x40 /\
  emrtd_dump_ef_dg7 file (zlen file) = dump "EF_DG7" 0x42.
Proof.
  intros Houter Hes Hval Hcap file dump.
  assert (Hsmall : forall tag2 v,
    find_element 0x5F tag2 true 0 es = Some v -> zlen v < zlen file).
  { intros tag2 v Hv. apply find_element_size in Hv.
    unfold file, enc_element. rewrite !zlen_app, Hval.
    destruct Houter as [Htag _]. destruct (wf_tag_head _ Htag) as (t & _ & Ht).
    pose proof (zlen_nonneg (enc_length (zlen (enc_elements es)))). lia. }
  unfold emrtd_dump_ef_dg5, emrtd_dump_ef_dg7, dump_image_by_tag, dump.
  rewrite !(lds_lookup_nested _ _ _ _ outer es) by done.
  cbn [obind]. split.
  - destruct (find_element 95 64 true 0 es) as [v|] eqn:Hv; [|done].
    apply Hsmall in Hv. unfold file in Hv. rewrite !decide_True by lia. reflexivity.
  - destruct (find_element 95 66 true 0 es) as [v|] eqn:Hv; [|done].
    apply Hsmall in Hv. unfold file in Hv. rewrite !decide_True by lia. reflexivity.
Qed.

(** *** The properties above on concrete files *)

Lemma emrtd_dump_ef_sod_reports_failure_witness :
  emrtd_dump_ef_sod [0x77; 0x05; 0x30; 0x03; 0x01; 0x02; 0x03] 7
    = Some (PM3_ESOFT, [Build_saved_file "EF_SOD" ".p7b" [0x30; 0x03; 0x01; 0x02; 0x03]]).
Proof.
  destruct (emrtd_dump_ef_sod_reports_failure 0x77 [0x30; 0x03; 0x01; 0x02; 0x03] []
              ltac:(by_computation)) as [H _].
  exact H.
Defined.


Lemma emrtd_dump_ef_dg5_dg7_save_tagged_value_witness :
  let es := [ {| el_tag := [0x02]; el_value := [0x01] |};
              {| el_tag := [0x5F; 0x40]; el_value := [0xFF; 0xD8; 0xFF] |} ] in
  let outer := {| el_tag := [0x65]; el_value := enc_elements es |} in
  emrtd_dump_ef_dg5 (enc_element outer) (zlen (enc_element outer))
    = Some (PM3_SUCCESS, [Build_saved_file "EF_DG5" ".jpg" [0xFF; 0xD8; 0xFF]]) /\
  emrtd_dump_ef_dg7 (enc_element outer) (zlen (enc_element outer)) = Some (PM3_ESOFT, []).
Proof.
  intros es outer.
  destruct (emrtd_dump_ef_dg5_dg7_save_tagged_value outer es
              ltac:(by_computation) ltac:(by_computation) eq_refl ltac:(by_computation))
    as [H5 H7].
  split; [rewrite H5|rewrite H7]; vm_compute; reflexivity.
Defined.

(** ** The secure channel and the handshake *)

Section Channel.
Context {prim : Primitives}.
Context {Card : Type} {trx : Transceiver Card}.

(** X20.  When the checksum of the response is the one expected, the
    secure read takes the cryptogram out of the field DO'87' (its
    length byte less one, from the fourth byte of the response on),
    decrypts it in CBC mode from the zero block and hands back the
    first [n] bytes of the plaintext: the padding is cut off by
    length, without a look at its bytes.  The function hands 20 bytes
    of [kmac] to the log first, so that many have to be readable
    there. *)
Theorem secure_read_returns_plaintext (kenc kmac ssc ssc1 ssc2 cmd response cc : list Z)
    (cryptogram iv' plain : list Z) (offset n r1 : Z) (use_14b : bool) (card card' : Card) :
  20 <= zlen kmac ->
  length ssc = 8%nat ->
  0 <= offset < 0x10000 ->
  emrtd_bump_ssc ssc = Some ssc1 ->
  emrtd_bump_ssc ssc1 = Some ssc2 ->
  secure_read_apdu kmac ssc1 offset n = Some cmd ->
  emrtd_exchange_commands cmd false true use_14b card = Some (card', true, Some response) ->
  zlen response <= 500 ->
  response_cc ssc2 kmac response = Some cc ->
  rd_bytes response (zlen response - 8) 8 = Some cc ->
  rd response 1 = Some r1 ->
  rd_bytes response 3 (r1 - 1) = Some cryptogram ->
  des3_decrypt_cbc (replicate 8 0x00) kenc cryptogram (r1 - 1) = Some (iv', plain) ->
  0 <= n <= zlen plain ->
  _emrtd_secure_read_binary_decrypt kenc kmac ssc offset n use_14b card
    = Some (card', ssc2, true, Some (take (Z.to_nat n) plain)).
Proof.
  intros Hkmac Hlen Hoff Hb1 Hb2 Hcmd Hex Hcap Hcc Htail Hr1 Hcrypt Hdec Hn.
  assert (Hlen1 : length ssc1 = 8%nat).
  { apply emrtd_bump_ssc_length in Hb1. lia. }
  unfold _emrtd_secure_read_binary_decrypt.
  rewrite (secure_read_binary_spec kmac ssc ssc1) by done.
  rewrite Hcmd. cbn [obind]. rewrite Hex. cbn [obind].
  rewrite (emrtd_check_cc_spec ssc1 ssc2) by done.
  rewrite Hcc. cbn [obind]. rewrite Htail. cbn [obind].
  rewrite bool_decide_eq_true_2 by done. cbn [default from_option]. unfold id.
  rewrite decide_True by done. rewrite Hr1. cbn [obind]. rewrite Hcrypt. cbn [obind].
  rewrite Hdec. cbn [obind]. by rewrite rd_bytes_0 by lia.
Qed.

(** X21.  The reader's nonce RND.IFD comes from [rng], which fills it
    with zeros: whenever the handshake succeeds the counter it hands
    back is 8 bytes long and its lower half, taken from RND.IFD, is
    zero. *)
Theorem emrtd_do_bac_counter_low_half (documentnumber dob expiry : string) (use_14b : bool)
    (card card' : Card) (ssc ks_enc ks_mac : list Z) :
  emrtd_do_bac documentnumber dob expiry use_14b card
    = Some (card', true, Some (ssc, ks_enc, ks_mac)) ->
  length ssc = 8%nat /\ drop 4 ssc = [0x00; 0x00; 0x00; 0x00].
Proof.
  unfold emrtd_do_bac.
  destruct (bac_static_keys documentnumber dob expiry) as [[[kseed kenc] kmac]|];
    cbn [obind]; [|done].
  osteps. intros [= _ <- _ _].
  match goal with E : rd_bytes _ 4 4 = Some ?r |- _ =>
    apply rd_bytes_length in E; unfold zlen in E;
    assert (length r = 4%nat) as Hr by lia end.
  rewrite length_app, Hr. split; [done|].
  by rewrite drop_app_length' by done.
Qed.

(** X22.  [rnd_ic] has room for 8 bytes, and the exchange copies the
    whole body of the response to GET CHALLENGE into it before the
    status is looked at: when a chip answers with more than 8 bytes
    the copy runs past the array, and the handshake has no defined
    behaviour. *)
Theorem emrtd_do_bac_long_challenge (documentnumber dob expiry : string) (use_14b ok : bool)
    (card card1 : Card) (body : list Z) (keys : list Z * list Z * list Z) :
  bac_static_keys documentnumber dob expiry = Some keys ->
  emrtd_get_challenge 8 use_14b card = Some (card1, ok, Some body) ->
  8 < zlen body ->
  emrtd_do_bac documentnumber dob expiry use_14b card = None.
Proof.
  intros Hkeys Hch Hlong. unfold emrtd_do_bac. rewrite Hkeys. cbn [obind].
  destruct keys as [[kseed kenc] kmac]. rewrite Hch. cbn [obind].
  unfold store_zeroed. cbn [default from_option]. unfold id.
  by rewrite decide_False by lia.
Qed.

End Channel.

(** ** Bounds of the tag reader *)

Lemma lds_scan_bounded (datain : list Z) (datainlen tag1 tag2 : Z) (twobytetag : bool)
    (skiptagcount : Z) (n : nat) : forall (offset skipcounter : Z) (data : list Z),
  lds_scan n datain datainlen tag1 tag2 twobytetag skiptagcount offset skipcounter
    = Some (Some data) ->
  zlen data < datainlen /\ zlen data <= zlen datain.
Proof.
  induction n as [|n IH]; intros offset skipcounter data; cbn [lds_scan].
  - by case_decide.
  - case_decide; [|done].
    osteps; repeat case_bool_decide; osteps; try (by apply IH).
    all: intros [= <-].
    all: match goal with E : rd_bytes _ _ _ = Some _ |- _ =>
           pose proof (rd_bytes_length _ _ _ _ E) as Hlen;
           unfold rd_bytes in E; case_decide; [|done] end.
    all: unfold zlen in *; lia.
Qed.

(** X23.  A value the tag reader hands back is shorter than the
    length it was given for the buffer, and lies inside the buffer.
    The test it applies compares the declared length with the length
    of the whole buffer, not with what is left behind the header: an
    element that declares one byte more than the buffer holds behind
    its header passes the test, and the copy reads past the end. *)
Theorem emrtd_lds_get_data_by_tag_bounds (datain : list Z) (datainlen tag1 tag2 : Z)
    (twobytetag entertoptag : bool) (skiptagcount : Z) :
  (forall data,
     emrtd_lds_get_data_by_tag datain datainlen tag1 tag2 twobytetag entertoptag skiptagcount
       = Some (Some data) ->
     zlen data < datainlen /\ zlen data <= zlen datain) /\
  (forall t v,
     is_u8 t -> t <> 0x5F -> t <> 0x7F -> zlen v + 1 <= 0x7F ->
     emrtd_lds_get_data_by_tag ([t; zlen v + 1] ++ v) (zlen v + 2) t tag2 false false 0
       = None).
Proof.
  split.
  - intros data. unfold emrtd_lds_get_data_by_tag.
    destruct (if entertoptag then _ else _) as [offset|]; cbn [obind]; [|done].
    apply lds_scan_bounded.
  - intros t v Ht H5f H7f Hv. pose proof (zlen_nonneg v) as Hnn.
    unfold emrtd_lds_get_data_by_tag. cbn [obind].
    replace (Z.to_nat (zlen v + 2)) with (S (Z.to_nat (zlen v + 1))) by lia.
    cbn [lds_scan]. rewrite decide_True by lia.
    change (rd ([t; zlen v + 1] ++ v) 0) with (Some t). cbn [obind].
    unfold emrtd_lds_determine_tag_length. rewrite decide_False by (intros [?|?]; done).
    change (drop (Z.to_nat 0) ([t; zlen v + 1] ++ v)) with ([t; zlen v + 1] ++ v).
    assert (Hbuf : zlen ([t; zlen v + 1] ++ v) = zlen v + 2).
    { rewrite zlen_app. change (zlen [t; zlen v + 1]) with 2. lia. }
    rewrite emrtd_get_asn1_data_length_eq, emrtd_get_asn1_field_length_eq by lia.
    unfold asn1_data_length_of, asn1_field_length_of.
    change (rd ([t; zlen v + 1] ++ v) 1) with (Some (zlen v + 1)). cbn [obind].
    rewrite !decide_True by lia. cbn [obind].
    rewrite decide_False by lia. rewrite decide_True by lia.
    unfold rd_bytes. rewrite decide_False; [done|].
    cbn [app length]. unfold zlen in *. lia.
Qed.

(** ** The commands sent *)

Lemma gethex_cons2 (a b : ascii) (rest : string) :
  param_gethex_to_eol (String a (String b rest)) =
    (let* x := hex_digit a in
     let* y := hex_digit b in
     let* r := param_gethex_to_eol rest in
     Some ((16 * x + y) :: r)).
Proof. reflexivity. Qed.

Lemma gethex_select_head (select_by rest : string) (cmd : list Z) :
  param_gethex_to_eol ("00" +:+ "A4" +:+ select_by +:+ rest) = Some cmd ->
  exists tail, cmd = 0x00 :: 0xA4 :: tail /\ param_gethex_to_eol (select_by +:+ rest) = Some tail.
Proof.
  change ("00" +:+ "A4" +:+ select_by +:+ rest)
    with (String "0" (String "0" (String "A" (String "4" (select_by +:+ rest))))).
  rewrite !gethex_cons2.
  change (hex_digit "0") with (Some 0). change (hex_digit "A") with (Some 10).
  change (hex_digit "4") with (Some 4). cbn [obind].
  destruct (param_gethex_to_eol (select_by +:+ rest)) as [tail|]; cbn [obind]; [|done].
  intros [= <-]. by exists tail.
Qed.

Lemma read_request_ins (cmd : list Z) (req : Z * Z) :
  requested cmd req -> cmd !! 1%nat = Some 0xB0.
Proof.
  unfold requested, read_request. rd_simpl.
  destruct (cmd !! 0%nat); cbn [obind]; [|done].
  destruct (cmd !! 1%nat) as [ins|]; cbn [obind]; [|done].
  destruct (cmd !! 2%nat); cbn [obind]; [|done].
  destruct (cmd !! 3%nat); cbn [obind]; [|done].
  case_decide; [by subst|done].
Qed.

Section PlainCounter.
Context {prim : Primitives}.
Context {Card : Type} {trx : Transceiver Card}.

Lemma read_file_chunk_plain_ssc (kenc kmac ssc ssc' data : list Z) (use_14b ok : bool)
    (offset toread capacity : Z) (card card' : Card) :
  read_file_chunk kenc kmac ssc false use_14b offset toread capacity card
    = Some (card', ssc', ok, data) ->
  ssc' = ssc.
Proof. unfold read_file_chunk. osteps. by intros [= _ <- _ _]. Qed.

Lemma read_file_loop_plain_ssc (kenc kmac : list Z) (use_14b : bool) (n : nat) :
  forall (ssc response : list Z) (offset readlen : Z) (card card' : Card)
         (ssc' : list Z) (ok : bool) (out : option (list Z)),
  read_file_loop n kenc kmac ssc false use_14b response offset readlen card
    = Some (card', ssc', ok, out) ->
  ssc' = ssc.
Proof.
  induction n as [|n IH]; intros ssc response offset readlen card card' ssc' ok out;
    cbn [read_file_loop].
  - case_decide; [done|]. by intros [= _ <- _ _].
  - case_decide; [|by intros [= _ <- _ _]].
    destruct (read_file_chunk _ _ _ _ _ _ _ _ _) as [[[[c1 s1] ok1] temp]|] eqn:Hchunk;
      cbn [obind]; [|done].
    apply read_file_chunk_plain_ssc in Hchunk as ->.
    destruct ok1; [|by intros [= _ <- _ _]].
    case_decide; [|done]. apply IH.
Qed.

Lemma emrtd_read_file_plain_ssc (kenc kmac ssc ssc' : list Z) (use_14b ok : bool)
    (card card' : Card) (out : option (list Z)) :
  emrtd_read_file kenc kmac ssc false use_14b card = Some (card', ssc', ok, out) ->
  ssc' = ssc.
Proof.
  unfold emrtd_read_file.
  destruct (read_file_chunk _ _ _ _ _ _ _ _ _) as [[[[c1 s1] ok1] probe]|] eqn:Hchunk;
    cbn [obind]; [|done].
  apply read_file_chunk_plain_ssc in Hchunk as ->.
  destruct ok1; [|by intros [= _ <- _ _]].
  destruct (emrtd_get_asn1_data_length _ _ _); cbn [obind]; [|done].
  destruct (emrtd_get_asn1_field_length _ _ _); cbn [obind]; [|done].
  apply read_file_loop_plain_ssc.
Qed.

End PlainCounter.

Section Commands.
Context {prim : Primitives}.
Context {Card : Type} {trx : Transceiver Card}.

Lemma select_file_recorded (select_by file_id : string) (use_14b : bool)
    (card card' : Card) (log log' : list (list Z)) (ok : bool) :
  emrtd_select_file (trx := recording trx) select_by file_id use_14b (card, log)
    = Some ((card', log'), ok) ->
  exists tail,
    log' = log ++ [0x00 :: 0xA4 :: tail] /\
    param_gethex_to_eol
      (select_by +:+ "0C" +:+ hex2 (Z.of_nat (String.length file_id) / 2) +:+ file_id)
      = Some tail.
Proof.
  unfold emrtd_select_file, emrtd_exchange_commands_noout. case_decide; [|done].
  destruct (param_gethex_to_eol _) as [cmd|] eqn:Hcmd; cbn [obind]; [|done].
  apply gethex_select_head in Hcmd as (tail & -> & Htail).
  destruct (emrtd_exchange_commands _ _ _ _ _) as [[[[c l] o] out]|] eqn:Hex;
    cbn [obind]; [|done].
  apply exchange_recorded in Hex. intros [= <- <- <-]. by exists tail.
Qed.

(** The commands of a file read, behind those already sent. *)
Lemma emrtd_read_file_recorded (kenc kmac ssc ssc' : list Z) (use_secure use_14b ok : bool)
    (card card' : Card) (log log' : list (list Z)) (out : option (list Z)) :
  length ssc = 8%nat \/ use_secure = false ->
  emrtd_read_file (trx := recording trx) kenc kmac ssc use_secure use_14b (card, log)
    = Some ((card', log'), ssc', ok, out) ->
  exists first reads reqs,
    log' = log ++ first :: reads /\
    Forall2 requested (first :: reads) ((0, 4) :: reqs) /\ advancing 4 reqs /\
    (ok = false -> out = None).
Proof.
  intros Hssc. unfold emrtd_read_file.
  destruct (read_file_chunk (trx := recording trx) kenc kmac ssc use_secure use_14b
              0 4 EMRTD_MAX_FILE_SIZE (card, log)) as [[[[[c1 l1] s1] ok1] probe]|] eqn:Hchunk;
    cbn [obind]; [|done].
  apply read_file_chunk_recorded in Hchunk as (cmd & -> & Hreq & Hs1 & Hsize); [|done|lia].
  destruct ok1.
  - destruct (emrtd_get_asn1_data_length probe (zlen probe) 1) as [datalen|];
      cbn [obind]; [|done].
    destruct (emrtd_get_asn1_field_length probe (zlen probe) 1) as [fieldlen|];
      cbn [obind]; [|done].
    intros Hloop.
    apply read_file_loop_recorded in Hloop
      as (cmds & reqs & -> & Hreqs & Hadv & Hok & Hfail); [|done].
    exists cmd, cmds, reqs. split; [by rewrite <- app_assoc|].
    split; [by constructor|]. split; [done|].
    intros ->. by destruct (Hfail eq_refl).
  - intros ?; simplify_eq. exists cmd, [], []. split; [done|].
    split; [by repeat constructor|]. done.
Qed.

(** X24.  Without secure messaging, selecting and reading a file
    sends one SELECT by file identifier and then the READ BINARY
    requests of the file read, the first for 4 bytes at offset 0; a
    refused SELECT ends the operation with no request sent and nothing
    stored; the counter is not touched. *)
Theorem emrtd_select_and_read_plain (file : string) (ks_enc ks_mac ssc ssc' : list Z)
    (use_14b ok : bool) (card card' : Card) (log : list (list Z)) (out : option (list Z)) :
  emrtd_select_and_read (trx := recording trx) file ks_enc ks_mac ssc false use_14b (card, [])
    = Some ((card', log), ssc', ok, out) ->
  ssc' = ssc /\
  exists body reads,
    log = ([0x00; 0xA4; 0x02; 0x0C] ++ body) :: reads /\
    param_gethex_to_eol (hex2 (Z.of_nat (String.length file) / 2) +:+ file) = Some body /\
    (ok = false -> out = None) /\
    (reads = [] -> ok = false) /\
    (reads <> [] ->
       exists reqs, Forall2 requested reads ((0, 4) :: reqs) /\ advancing 4 reqs) /\
    (forall st, emrtd_select_file (trx := recording trx) "02" file use_14b (card, [])
                  = Some (st, false) -> reads = []).
Proof.
  unfold emrtd_select_and_read.
  destruct (emrtd_select_file (trx := recording trx) "02" file use_14b (card, []))
    as [[[c1 l1] ok1]|] eqn:Hsel; cbn [obind]; [|done].
  apply select_file_recorded in Hsel as (tail & -> & Htail).
  change ("02" +:+ "0C" +:+ hex2 (Z.of_nat (String.length file) / 2) +:+ file)
    with (String "0" (String "2" (String "0" (String "C"
            (hex2 (Z.of_nat (String.length file) / 2) +:+ file))))) in Htail.
  rewrite !gethex_cons2 in Htail.
  change (hex_digit "0") with (Some 0) in Htail.
  change (hex_digit "2") with (Some 2) in Htail.
  change (hex_digit "C") with (Some 12) in Htail. cbn [obind] in Htail.
  destruct (param_gethex_to_eol (hex2 _ +:+ file)) as [body|] eqn:Hbody;
    cbn [obind] in Htail; [|done].
  injection Htail as <-.
  destruct ok1.
  - intros Hread. pose proof (emrtd_read_file_plain_ssc _ _ _ _ _ _ _ _ _ Hread) as Hssc.
    apply emrtd_read_file_recorded in Hread
      as (first & reads & reqs & -> & Hreqs & Hadv & Hfail); [|by right].
    split; [done|]. exists body, (first :: reads). cbn [app].
    split; [done|]. split; [done|]. split; [done|]. split; [done|].
    split; [intros _; by exists reqs|]. intros st [=].
  - intros [= <- <- <- <- <-]. split; [done|]. exists body, []. cbn [app].
    split; [done|]. split; [done|]. repeat split; done.
Qed.

(** X25.  Whenever the authentication ends without a key agreement
    having been due ([BAC] left [false] or unset) or possible (no MRZ
    data), every command sent was a SELECT or a READ BINARY: no
    challenge was asked for and no session keys exist.  It then reports
    success exactly when the chip let EF_DG1 be read in the clear. *)
Theorem emrtd_do_auth_without_handshake (documentnumber dob expiry : string)
    (BAC_available use_14b ok : bool) (card card' : Card) (log : list (list Z))
    (BAC : option bool) (session : option (list Z * list Z * list Z)) :
  emrtd_do_auth (trx := recording trx) documentnumber dob expiry BAC_available use_14b
    (card, []) = Some ((card', log), ok, BAC, session) ->
  BAC <> Some true \/ BAC_available = false ->
  session = None /\
  Forall (fun cmd => cmd !! 1%nat = Some 0xA4 \/ cmd !! 1%nat = Some 0xB0) log /\
  (ok = true <-> BAC = Some false).
Proof.
  unfold emrtd_do_auth.
  destruct (emrtd_select_file (trx := recording trx) "04" "A0000002471001" use_14b (card, []))
    as [[[c1 l1] ok1]|] eqn:Hsel1; cbn [obind]; [|done].
  apply select_file_recorded in Hsel1 as (t1 & -> & _).
  destruct ok1.
  2:{ intros [= <- <- <- <- <-] _. split; [done|]. split; [|done].
      repeat constructor. }
  unfold dg_entry, dg_index. cbn [dg_table lookup list_lookup obind dg_fileid].
  destruct (emrtd_select_file (trx := recording trx) "02" "011E" use_14b _)
    as [[[c2 l2] ok2]|] eqn:Hsel2; cbn [obind]; [|done].
  apply select_file_recorded in Hsel2 as (t2 & -> & _).
  assert (Hselects : Forall (fun cmd : list Z =>
            cmd !! 1%nat = Some 0xA4 \/ cmd !! 1%nat = Some 0xB0)
            (([] ++ [0x00 :: 0xA4 :: t1]) ++ [0x00 :: 0xA4 :: t2])).
  { repeat constructor. }
  destruct ok2.
  - destruct (emrtd_select_file (trx := recording trx) "02" "0101" use_14b _)
      as [[[c3 l3] ok3]|] eqn:Hsel3; cbn [obind]; [|done].
    apply select_file_recorded in Hsel3 as (t3 & -> & _).
    destruct (emrtd_read_file (trx := recording trx) [] [] [] false use_14b _)
      as [[[[[c4 l4] s4] ok4] out4]|] eqn:Hread; cbn [obind]; [|done].
    apply emrtd_read_file_recorded in Hread
      as (first & reads & reqs & -> & Hreqs & _ & _); [|by right].
    assert (Hall : Forall (fun cmd : list Z =>
              cmd !! 1%nat = Some 0xA4 \/ cmd !! 1%nat = Some 0xB0)
              (((([] ++ [0x00 :: 0xA4 :: t1]) ++ [0x00 :: 0xA4 :: t2])
                  ++ [0x00 :: 0xA4 :: t3]) ++ first :: reads)).
    { apply Forall_app. split; [apply Forall_app; split; [done|repeat constructor]|].
      clear -Hreqs. revert Hreqs. generalize ((0, 4) :: reqs). generalize (first :: reads).
      intros cmds rs H. induction H as [|cmd r cmds rs Hr _ IH]; [done|].
      constructor; [right; by eapply read_request_ins|done]. }
    destruct ok4; cbn [negb].
    + intros [= <- <- <- <- <-] _. done.
    + destruct BAC_available.
      * match goal with |- context [obind ?m _] =>
          destruct m as [[[c5 ok5] s5]|] end; cbn [obind]; [|done].
        intros Heq [Hno|[=]]. exfalso. apply Hno. by injection Heq as _ _ <- _.
      * intros [= <- <- <- <- <-] _. done.
  - cbn [obind]. destruct BAC_available.
    + match goal with |- context [obind ?m _] =>
        destruct m as [[[c5 ok5] s5]|] end; cbn [obind]; [|done].
      intros Heq [Hno|[=]]. exfalso. apply Hno. by injection Heq as _ _ <- _.
    + intros [= <- <- <- <- <-] _. done.
Qed.

End Commands.

(** *** The properties above on the worked example and on scripted cards *)

Lemma secure_read_returns_plaintext_witness :
  _emrtd_secure_read_binary_decrypt (prim := Std.primitives) (trx := scripted)
    Example.ksenc Example.ksmac20 Example.ssc_selected 0 4 false [Some Example.read4_response]
  = Some ([], hex_bytes "887022120C06C22A", true, Some (hex_bytes "60145F01")).
Proof.
  rewrite (secure_read_returns_plaintext (prim := Std.primitives) (trx := scripted)
             Example.ksenc Example.ksmac20 Example.ssc_selected
             (hex_bytes "887022120C06C229") (hex_bytes "887022120C06C22A")
             (hex_bytes "0CB000000D9701048E08ED6705417E96BA5500")
             (hex_bytes "8709019FF0EC34F9922651990290008E08AD55CC17140B2DED")
             (hex_bytes "AD55CC17140B2DED")
             (hex_bytes "9FF0EC34F9922651") (hex_bytes "9FF0EC34F9922651")
             (hex_bytes "60145F0180000000")
             0 4 9 false [Some Example.read4_response] []
             ltac:(by_computation)
             ltac:(by_computation) ltac:(by_computation) ltac:(by_computation)
             ltac:(by_computation) ltac:(by_computation) ltac:(by_computation)
             ltac:(by_computation) ltac:(by_computation) ltac:(by_computation)
             ltac:(by_computation) ltac:(by_computation) ltac:(by_computation)
             ltac:(by_computation)).
  vm_compute. reflexivity.
Defined.

Lemma emrtd_do_bac_counter_low_half_witness :
  exists ssc ks_enc ks_mac,
    emrtd_do_bac (prim := Std.primitives) (trx := scripted)
      Example.documentnumber Example.dob Example.expiry false Example.bac_card_zero
      = Some ([], true, Some (ssc, ks_enc, ks_mac)) /\
    length ssc = 8%nat /\ drop 4 ssc = [0x00; 0x00; 0x00; 0x00].
Proof.
  do 3 eexists. split; [vm_compute; reflexivity|].
  eapply (emrtd_do_bac_counter_low_half (prim := Std.primitives) (trx := scripted)
            Example.documentnumber Example.dob Example.expiry false Example.bac_card_zero).
  vm_compute. reflexivity.
Defined.

Lemma emrtd_do_bac_long_challenge_witness :
  emrtd_do_bac (prim := Std.primitives) (trx := scripted)
    Example.documentnumber Example.dob Example.expiry false
    [Some (Example.rnd_ic ++ [0x00; 0x90; 0x00])]
  = None.
Proof.
  eapply (emrtd_do_bac_long_challenge (prim := Std.primitives) (trx := scripted)
            Example.documentnumber Example.dob Example.expiry false true
            [Some (Example.rnd_ic ++ [0x00; 0x90; 0x00])] [] (Example.rnd_ic ++ [0x00]));
    by_computation.
Defined.

Lemma emrtd_select_and_read_plain_witness :
  exists log,
    emrtd_select_and_read (prim := Std.primitives) (trx := recording scripted)
      "011E" [] [] [] false false
      ([Some [0x90; 0x00]; Some [0x60; 0x02; 0x5C; 0x00; 0x90; 0x00]], [])
    = Some (([], log), [], true, Some [0x60; 0x02; 0x5C; 0x00]) /\
    exists body reads,
      log = ([0x00; 0xA4; 0x02; 0x0C] ++ body) :: reads /\
      body = [0x02; 0x01; 0x1E] /\
      reads = [[0x00; 0xB0; 0x00; 0x00; 0x04]].
Proof.
  eexists. split; [vm_compute; reflexivity|].
  destruct (emrtd_select_and_read_plain (prim := Std.primitives) (trx := scripted)
              "011E" [] [] [] [] false true
              [Some [0x90; 0x00]; Some [0x60; 0x02; 0x5C; 0x00; 0x90; 0x00]] [] _
              (Some [0x60; 0x02; 0x5C; 0x00]) ltac:(vm_compute; reflexivity))
    as (_ & body & reads & Hlog & Hbody & _).
  exists body, reads. split; [exact Hlog|].
  vm_compute in Hbody. injection Hbody as <-.
  injection Hlog as <-. split; reflexivity.
Defined.

Lemma emrtd_do_auth_without_handshake_witness :
  exists log,
    emrtd_do_auth (prim := Std.primitives) (trx := recording scripted)
      "L898902C<" "690806" "940623" false false
      ([Some [0x90; 0x00]; Some [0x69; 0x82]], [])
    = Some (([], log), false, Some true, None) /\
    Forall (fun cmd => cmd !! 1%nat = Some 0xA4 \/ cmd !! 1%nat = Some 0xB0) log.
Proof.
  eexists. split; [vm_compute; reflexivity|].
  eapply (emrtd_do_auth_without_handshake (prim := Std.primitives) (trx := scripted)
            "L898902C<" "690806" "940623" false false false
            [Some [0x90; 0x00]; Some [0x69; 0x82]] [] _ (Some true) None).
  - vm_compute. reflexivity.
  - right. reflexivity.
Defined.

(** ** Dumping files *)

Lemma run_dumper_names (d : emrtd_dumper) (file_contents : list Z) (file_length : Z)
    (st : pm3_status) (saved : list saved_file) :
  run_dumper d file_contents file_length = Some (st, saved) ->
  (length saved <= 1)%nat /\
  Forall (fun s => sf_suffix s <> ".BIN" /\
                   (sf_name s = "EF_DG2" \/ sf_name s = "EF_DG5" \/
                    sf_name s = "EF_DG7" \/ sf_name s = "EF_SOD")) saved.
Proof.
  destruct d; cbn [run_dumper].
  - unfold emrtd_dump_ef_dg2. case_decide; [|done].
    destruct (dg2_search _ _ _ _) as [[r|]|]; cbn [obind]; [| |done].
    + case_decide; [(intros [= <- <-]; split; [cbn; lia|constructor])|].
      change (dg_entry EF_DG2) with (dg_table !! 2%nat).
      cbn [dg_table lookup list_lookup obind dg_filename].
      destruct (rd file_contents r) as [first|]; cbn [obind]; [|done].
      destruct (rd_bytes _ _ _); cbn [obind]; [|done].
      intros [= <- <-]. split; [cbn; lia|]. constructor; [|constructor].
      cbn [sf_suffix sf_name]. split; [unfold image_suffix; by case_decide|auto].
    + rewrite decide_True by done. (intros [= <- <-]; split; [cbn; lia|constructor]).
  - unfold emrtd_dump_ef_dg5, dump_image_by_tag.
    destruct (emrtd_lds_get_data_by_tag _ _ _ _ _ _ _) as [[data|]|]; cbn [obind];
      [| (intros [= <- <-]; split; [cbn; lia|constructor]) | done].
    case_decide; [|done]. case_decide; [|(intros [= <- <-]; split; [cbn; lia|constructor])].
    change (dg_entry EF_DG5) with (dg_table !! 5%nat).
    cbn [dg_table lookup list_lookup obind dg_filename].
    destruct (rd data 0) as [first|]; cbn [obind]; [|done].
    intros [= <- <-]. split; [cbn; lia|]. constructor; [|constructor].
    cbn [sf_suffix sf_name]. split; [unfold image_suffix; by case_decide|auto].
  - unfold emrtd_dump_ef_dg7, dump_image_by_tag.
    destruct (emrtd_lds_get_data_by_tag _ _ _ _ _ _ _) as [[data|]|]; cbn [obind];
      [| (intros [= <- <-]; split; [cbn; lia|constructor]) | done].
    case_decide; [|done]. case_decide; [|(intros [= <- <-]; split; [cbn; lia|constructor])].
    change (dg_entry EF_DG7) with (dg_table !! 7%nat).
    cbn [dg_table lookup list_lookup obind dg_filename].
    destruct (rd data 0) as [first|]; cbn [obind]; [|done].
    intros [= <- <-]. split; [cbn; lia|]. constructor; [|constructor].
    cbn [sf_suffix sf_name]. split; [unfold image_suffix; by case_decide|auto].
  - unfold emrtd_dump_ef_sod.
    destruct (emrtd_get_asn1_field_length _ _ _); cbn [obind]; [|done].
    destruct (emrtd_get_asn1_data_length _ _ _); cbn [obind]; [|done].
    case_decide; [(intros [= <- <-]; split; [cbn; lia|constructor])|].
    change (dg_entry EF_SOD) with (dg_table !! 17%nat).
    cbn [dg_table lookup list_lookup obind dg_filename].
    destruct (rd_bytes _ _ _); cbn [obind]; [|done].
    intros [= <- <-]. split; [cbn; lia|]. constructor; [|constructor].
    cbn [sf_suffix sf_name]. split; [done|auto 6].
Qed.

Section Dump.
Context {prim : Primitives}.
Context {Card : Type} {trx : Transceiver Card}.

Lemma emrtd_dump_file_run (ks_enc ks_mac ssc ssc' : list Z) (file name : string)
    (use_secure use_14b ok : bool) (card card' : Card) (saved : list saved_file) :
  emrtd_dump_file ks_enc ks_mac ssc file name use_secure use_14b card
    = Some (card', ssc', ok, saved) ->
  exists out,
    emrtd_select_and_read file ks_enc ks_mac ssc use_secure use_14b card
      = Some (card', ssc', ok, out) /\
    (ok = false -> saved = []) /\
    (ok = true ->
       exists data more,
         out = Some data /\
         saved = Build_saved_file name ".BIN" data :: more /\
         (length more <= 1)%nat /\
         Forall (fun s => sf_suffix s <> ".BIN" /\
                          (sf_name s = "EF_DG2" \/ sf_name s = "EF_DG5" \/
                           sf_name s = "EF_DG7" \/ sf_name s = "EF_SOD")) more /\
         (more <> [] ->
            exists dg d, emrtd_fileid_to_dg file = Some dg /\ dg_dumper dg = Some d)).
Proof.
  unfold emrtd_dump_file.
  destruct (emrtd_select_and_read _ _ _ _ _ _ _) as [[[[c s] o] out]|]; cbn [obind]; [|done].
  destruct o.
  2:{ intros [= <- <- <- <-]. exists out. done. }
  destruct out as [data|]; cbn [obind]; [|done].
  destruct (emrtd_fileid_to_dg file) as [dg|] eqn:Hdg.
  2:{ intros [= <- <- <- <-]. exists (Some data). split; [done|]. split; [done|].
      intros _. exists data, []. split; [done|]. split; [done|]. split; [cbn; lia|].
      split; [constructor|done]. }
  destruct (dg_dumper dg) as [d|] eqn:Hd.
  2:{ intros [= <- <- <- <-]. exists (Some data). split; [done|]. split; [done|].
      intros _. exists data, []. split; [done|]. split; [done|]. split; [cbn; lia|].
      split; [constructor|done]. }
  destruct (run_dumper d data (zlen data)) as [[st more]|] eqn:Hrun; cbn [obind]; [|done].
  intros [= <- <- <- <-]. exists (Some data). split; [done|]. split; [done|].
  intros _. exists data, more. apply run_dumper_names in Hrun as [Hlen Hnames].
  split; [done|]. split; [done|]. split; [done|]. split; [done|].
  intros _. by exists dg, d.
Qed.

(** X26.  A file dump succeeds exactly when selecting and reading the
    file does: the first thing saved is then the file as read, under
    the name handed over and the suffix [.BIN]; a dumper registered
    for the file identifier may add one more file, and its status is
    dropped.  A failed read saves nothing. *)
Theorem emrtd_dump_file_saves_raw_first (ks_enc ks_mac ssc ssc' : list Z) (file name : string)
    (use_secure use_14b ok : bool) (card card' : Card) (saved : list saved_file) :
  emrtd_dump_file ks_enc ks_mac ssc file name use_secure use_14b card
    = Some (card', ssc', ok, saved) ->
  exists out,
    emrtd_select_and_read file ks_enc ks_mac ssc use_secure use_14b card
      = Some (card', ssc', ok, out) /\
    (ok = false -> saved = []) /\
    (ok = true ->
       exists data more,
         out = Some data /\
         saved = Build_saved_file name ".BIN" data :: more /\
         (length more <= 1)%nat /\
         (more <> [] ->
            exists dg d, emrtd_fileid_to_dg file = Some dg /\ dg_dumper dg = Some d)).
Proof.
  intros Hrun. apply emrtd_dump_file_run in Hrun as (out & Hread & Hfail & Hok).
  exists out. split; [done|]. split; [done|].
  intros Htrue. destruct (Hok Htrue) as (data & more & -> & -> & Hlen & _ & Hd).
  by exists data, more.
Qed.

(** X27.  Whatever tags the file list holds, the dump loop saves
    files only under the names of table entries that are neither PACE
    nor EAC files: nothing is ever saved as EF_DG3, EF_DG4,
    EF_CardAccess or EF_CardSecurity. *)
Theorem dump_file_list_skips_protected (filelist : list Z) :
  forall (ks_enc ks_mac ssc ssc' : list Z) (BAC use_14b : bool) (card card' : Card)
         (saved : list saved_file),
  dump_file_list filelist ks_enc ks_mac ssc BAC use_14b card = Some (card', ssc', saved) ->
  Forall (fun s =>
            (exists dg, dg ∈ dg_table /\ dg_pace dg = false /\ dg_eac dg = false /\
                        sf_name s = dg_filename dg) /\
            sf_name s <> "EF_DG3" /\ sf_name s <> "EF_DG4" /\
            sf_name s <> "EF_CardAccess" /\ sf_name s <> "EF_CardSecurity") saved.
Proof.
  assert (Hnames : forall name,
    (exists dg, dg ∈ dg_table /\ dg_pace dg = false /\ dg_eac dg = false /\
                name = dg_filename dg) ->
    name <> "EF_DG3" /\ name <> "EF_DG4" /\
    name <> "EF_CardAccess" /\ name <> "EF_CardSecurity").
  { intros name (dg & Hin & Hp & He & ->). unfold dg_table in Hin.
    repeat (apply elem_of_cons in Hin as [-> | Hin]; [cbn in *; done|]).
    by apply elem_of_nil in Hin. }
  assert (Hdumped : forall name,
    name = "EF_DG2" \/ name = "EF_DG5" \/ name = "EF_DG7" \/ name = "EF_SOD" ->
    exists dg, dg ∈ dg_table /\ dg_pace dg = false /\ dg_eac dg = false /\
               name = dg_filename dg).
  { intros name [-> | [-> | [-> | ->]]].
    - eexists. split; [apply (list_elem_of_lookup_2 _ 2%nat); reflexivity|done].
    - eexists. split; [apply (list_elem_of_lookup_2 _ 5%nat); reflexivity|done].
    - eexists. split; [apply (list_elem_of_lookup_2 _ 7%nat); reflexivity|done].
    - eexists. split; [apply (list_elem_of_lookup_2 _ 17%nat); reflexivity|done]. }
  induction filelist as [|t rest IH];
    intros ks_enc ks_mac ssc ssc' BAC use_14b card card' saved; cbn [dump_file_list].
  - by intros [= _ _ <-].
  - destruct (emrtd_tag_to_dg t) as [dg|] eqn:Htag; [|by apply IH].
    destruct (negb (dg_pace dg) && negb (dg_eac dg)) eqn:Hflags; [|by apply IH].
    apply andb_true_iff in Hflags as [Hp He]. apply negb_true_iff in Hp, He.
    destruct (emrtd_dump_file _ _ _ _ _ _ _ _) as [[[[c s] ok] saved1]|] eqn:Hdump;
      cbn [obind]; [|done].
    destruct (dump_file_list rest _ _ _ _ _ _) as [[[c2 s2] more]|] eqn:Hrest;
      cbn [obind]; [|done].
    intros [= <- <- <-]. apply Forall_app. split; [|by eapply IH].
    assert (Hin : dg ∈ dg_table).
    { clear -Htag. unfold emrtd_tag_to_dg in Htag. revert Htag.
      generalize dg_table. intros table. induction table as [|d table IHt]; cbn [dg_first]; [done|].
      destruct (bool_decide _); [intros [= ->]; by left|intros H; right; auto]. }
    apply emrtd_dump_file_run in Hdump as (out & _ & Hfail & Hok).
    destruct ok; [|by rewrite Hfail].
    destruct (Hok eq_refl) as (data & extra & _ & -> & _ & Hextra & _).
    constructor.
    + cbn [sf_name]. split; [by exists dg|]. apply Hnames. by exists dg.
    + eapply Forall_impl; [exact Hextra|]. intros sf [_ Hn]. cbn beta.
      destruct (Hdumped _ Hn) as (dg' & Hdg'). split; [by exists dg'|].
      apply Hnames. by exists dg'.
Qed.

End Dump.

(** *** The properties above on scripted cards *)

Lemma emrtd_dump_file_saves_raw_first_witness :
  emrtd_dump_file (prim := Std.primitives) (trx := scripted) [] [] [] "011D" "EF_SOD"
    false false [Some [0x90; 0x00]; Some [0x77; 0x02; 0x30; 0x00; 0x90; 0x00]]
  = Some ([], [], true,
          [ Build_saved_file "EF_SOD" ".BIN" [0x77; 0x02; 0x30; 0x00];
            Build_saved_file "EF_SOD" ".p7b" [0x30; 0x00] ]) /\
  exists out,
    emrtd_select_and_read (prim := Std.primitives) (trx := scripted) "011D" [] [] []
      false false [Some [0x90; 0x00]; Some [0x77; 0x02; 0x30; 0x00; 0x90; 0x00]]
    = Some ([], [], true, out).
Proof.
  assert (Hrun :
    emrtd_dump_file (prim := Std.primitives) (trx := scripted) [] [] [] "011D" "EF_SOD"
      false false [Some [0x90; 0x00]; Some [0x77; 0x02; 0x30; 0x00; 0x90; 0x00]]
    = Some ([], [], true,
            [ Build_saved_file "EF_SOD" ".BIN" [0x77; 0x02; 0x30; 0x00];
              Build_saved_file "EF_SOD" ".p7b" [0x30; 0x00] ]))
    by (vm_compute; reflexivity).
  split; [exact Hrun|].
  destruct (emrtd_dump_file_saves_raw_first (prim := Std.primitives) (trx := scripted)
              _ _ _ _ _ _ _ _ _ _ _ _ Hrun) as (out & Hread & _).
  exists out. exact Hread.
Defined.

Lemma dump_file_list_skips_protected_witness :
  exists saved,
    dump_file_list (prim := Std.primitives) (trx := scripted) [0x61; 0x63; 0x77] [] [] []
      false false
      [ Some [0x90; 0x00]; Some [0x61; 0x02; 0x5F; 0x1F; 0x90; 0x00];
        Some [0x90; 0x00]; Some [0x77; 0x02; 0x30; 0x00; 0x90; 0x00] ]
    = Some ([], [], saved) /\
    sf_name <$> saved = ["EF_DG1"; "EF_SOD"; "EF_SOD"] /\
    Forall (fun s => sf_name s <> "EF_DG3") saved.
Proof.
  eexists. split; [vm_compute; reflexivity|]. split; [reflexivity|].
  eapply Forall_impl.
  - eapply (dump_file_list_skips_protected (prim := Std.primitives) (trx := scripted)
              [0x61; 0x63; 0x77] [] [] [] [] false false
              [ Some [0x90; 0x00]; Some [0x61; 0x02; 0x5F; 0x1F; 0x90; 0x00];
                Some [0x90; 0x00]; Some [0x77; 0x02; 0x30; 0x00; 0x90; 0x00] ] []).
    vm_compute. reflexivity.
  - intros s (_ & H & _). exact H.
Defined.

(** ** The MAC key and the log *)

Section KeyLog.
Context {prim : Primitives}.
Context {Card : Type} {trx : Transceiver Card}.

Lemma emrtd_deskey_16_length (seed type key : list Z) :
  emrtd_deskey seed type 16 = Some key -> zlen key = 16.
Proof.
  unfold emrtd_deskey. osteps.
  match goal with |- rd_bytes _ 0 16 = Some _ -> _ => apply rd_bytes_length end.
Qed.

Lemma emrtd_do_bac_key_lengths (documentnumber dob expiry : string) (use_14b : bool)
    (card card' : Card) (ssc ks_enc ks_mac : list Z) :
  emrtd_do_bac documentnumber dob expiry use_14b card
    = Some (card', true, Some (ssc, ks_enc, ks_mac)) ->
  zlen ks_enc = 16 /\ zlen ks_mac = 16.
Proof.
  unfold emrtd_do_bac.
  destruct (bac_static_keys documentnumber dob expiry) as [[[kseed kenc] kmac]|];
    cbn [obind]; [|done].
  osteps. intros [= _ _ <- <-].
  split; by eapply emrtd_deskey_16_length.
Qed.

(** X28.  The secure READ BINARY hands 20 bytes of the MAC key to the
    log before it does anything else, while the key has 16: with fewer
    than 20 bytes readable at [kmac] the read, the decrypting read and
    the secure file read have no defined behaviour, whatever the card
    would answer.  The session MAC key the handshake writes is 16 bytes
    long, the size of the arrays [ks_mac[16]] of the two commands, so
    that is the case of every secure file read that follows a
    handshake. *)
Theorem secure_read_key_over_read (kenc kmac ssc : list Z) (offset n : Z) (use_14b : bool)
    (card : Card) :
  zlen kmac < 20 ->
  _emrtd_secure_read_binary kmac ssc offset n use_14b card = None /\
  _emrtd_secure_read_binary_decrypt kenc kmac ssc offset n use_14b card = None /\
  emrtd_read_file kenc kmac ssc true use_14b card = None /\
  (forall documentnumber dob expiry card0 card1 card2 ssc0 ks_enc ks_mac,
     emrtd_do_bac documentnumber dob expiry use_14b card0
       = Some (card1, true, Some (ssc0, ks_enc, ks_mac)) ->
     zlen ks_mac = 16 /\
     emrtd_read_file ks_enc ks_mac ssc0 true use_14b card2 = None).
Proof.
  intros Hshort.
  assert (Hread : forall (k s : list Z) o m (c : Card),
            zlen k < 20 -> _emrtd_secure_read_binary k s o m use_14b c = None).
  { intros k s o m c Hk. unfold _emrtd_secure_read_binary.
    by rewrite sprint_hex_inrow_None by lia. }
  assert (Hfile : forall (ke k s : list Z) (c : Card),
            zlen k < 20 -> emrtd_read_file ke k s true use_14b c = None).
  { intros ke k s c Hk. unfold emrtd_read_file, read_file_chunk,
      _emrtd_secure_read_binary_decrypt. by rewrite Hread. }
  split; [by apply Hread|]. split.
  { unfold _emrtd_secure_read_binary_decrypt. by rewrite Hread. }
  split; [by apply Hfile|].
  intros documentnumber dob expiry card0 card1 card2 ssc0 ks_enc ks_mac Hbac.
  apply emrtd_do_bac_key_lengths in Hbac as [_ Hmac].
  split; [done|]. apply Hfile. lia.
Qed.

End KeyLog.

Lemma secure_read_key_over_read_witness :
  zlen Example.ksmac = 16 /\
  _emrtd_secure_read_binary_decrypt (prim := Std.primitives) (trx := scripted)
    Example.ksenc Example.ksmac Example.ssc_selected 0 4 false [Some Example.read4_response]
  = None /\
  emrtd_read_file (prim := Std.primitives) (trx := scripted)
    Example.ksenc Example.ksmac Example.ssc_selected true false Example.ef_com_card
  = None.
Proof.
  split; [reflexivity|].
  destruct (secure_read_key_over_read (prim := Std.primitives) (trx := scripted)
              Example.ksenc Example.ksmac Example.ssc_selected 0 4 false
              [Some Example.read4_response] ltac:(by_computation)) as (_ & Hdec & _).
  destruct (secure_read_key_over_read (prim := Std.primitives) (trx := scripted)
              Example.ksenc Example.ksmac Example.ssc_selected 0 4 false
              Example.ef_com_card ltac:(by_computation)) as (_ & _ & Hfile & _).
  split; [exact Hdec|exact Hfile].
Defined.
